(** * pdfstraighten: a shallow embedding of [straighten.go] and of the
    command-line driver, with the properties of the specification.

    The Go package talks to a number of libraries (go-fitz, pdfcpu, cimg,
    docangle, textorient, the Go standard library).  Their code is not part
    of the repository; they appear below as the fields of [Collaborators],
    and every function of the package is a definition over that interface.

    Conventions:
    - Go [int] is a 64-bit two's complement integer: a [Z] kept in range
      by [wrap_int] where the source does arithmetic on it;
    - Go [float64] is IEEE 754 binary64: Rocq's primitive [float];
    - [[]byte] is [list byte];
    - a pointer [*cimg.Image] is an image record carrying the address it
      was allocated at, so that [upright == img] is a comparison of
      addresses;
    - a Go function returning [(T, error)] runs in the monad [M]: it
      threads the allocator, records the collaborator calls it makes, and
      ends in [Ok v] (Go: [v, nil]), [Err e] (Go: zero value, [e]) or
      [Panic] (a run-time panic);
    - the [main] functions of cmd/straighten and cmd/dump run in the
      monad [D], which records what they print, make and write, over a
      [Shell] of the further libraries they call. *)

From Stdlib Require Import ZArith List Bool String Ascii Lia Permutation.
From Stdlib Require Import Floats DecimalString DecimalN.
Import ListNotations.

Local Open Scope string_scope.
Local Open Scope Z_scope.

(** ** Go base types *)

Definition bytes := list Byte.byte.

Definition error := string.

Definition min_int : Z := - 2 ^ 63.
Definition max_int : Z := 2 ^ 63 - 1.

(** Arithmetic on [int] wraps around modulo 2^64. *)
Definition wrap_int (z : Z) : Z := (z + 2 ^ 63) mod 2 ^ 64 - 2 ^ 63.

Definition int_mul (a b : Z) : Z := wrap_int (a * b).

Definition int_add (a b : Z) : Z := wrap_int (a + b).

(** [len(l)] *)
Definition len {A} (l : list A) : Z := Z.of_nat (List.length l).

(** The values [for i := range n] and [for i := 0; i < n; i++] give [i]. *)
Definition range_int (n : Z) : list Z := map Z.of_nat (seq 0 (Z.to_nat n)).

(** [fmt.Sprintf("%d", n)] (and [%v] of an [int]): the decimal numeral. *)
Definition Sprintf_d (n : Z) : string := NilZero.string_of_int (Z.to_int n).

Definition float64 := float.

(** [math.Pi] as a [float64]. *)
Definition math_Pi : float64 := 0x1.921fb54442d18p+1%float.

(** [float64(n)] for an [int] [n]: the nearest binary64, ties to even. *)
Definition float64_of_int (n : Z) : float64 :=
  SF2Prim (binary_normalize prec emax n 0 false).

(** The integer part of a finite [float64], [None] for NaN and the
    infinities. *)
Definition float64_trunc (f : float64) : option Z :=
  match Prim2SF f with
  | S754_zero _ => Some 0
  | S754_finite s m e =>
      let mag := if 0 <=? e then Zpos m * 2 ^ e else Zpos m / 2 ^ (- e) in
      Some (if s then - mag else mag)
  | S754_infinity _ | S754_nan => None
  end.

(** ** Outcomes and the monad of the package's functions *)

Inductive outcome (A : Type) : Type :=
| Ok (a : A)
| Err (e : error)
| Panic (msg : string).

Arguments Ok {A} a.
Arguments Err {A} e.
Arguments Panic {A} msg.

(** ** Data of the collaborating libraries *)

Module cimg.

(** [cimg.PixelFormat] is an integer enumeration; the package only copies it. *)
Definition PixelFormat := Z.

Inductive Sampling := Sampling444 | Sampling422 | Sampling420 | SamplingGray.

Record CompressParams := MakeCompressParams
  { Sampling_ : Sampling; Quality : Z; Flags : Z }.

(** What an image holds, apart from where it lives. *)
Record Bitmap := MkBitmap
  { bm_Width : Z; bm_Height : Z; bm_Format : PixelFormat; bm_Pixels : bytes }.

(** A [*cimg.Image]: the address of the object and its fields. *)
Record Image := MkImage
  { addr : N; Width : Z; Height : Z; Format : PixelFormat; Pixels : bytes }.

Definition bitmap (img : Image) : Bitmap :=
  MkBitmap (Width img) (Height img) (Format img) (Pixels img).

End cimg.

Module io.

(** An [io.Reader] as far as [io.ReadAll] sees it: the bytes it delivers
    and the error, if any, its reading ends with. *)
Record Reader := MkReader { content : bytes; failure : option error }.

Definition ReadAll (r : Reader) : outcome bytes :=
  match failure r with
  | None => Ok (content r)
  | Some e => Err e
  end.

End io.

Module model.

(** pdfcpu's [model.Image]: an embedded [io.Reader] (nil when pdfcpu found
    no stream) and the dimensions the PDF declares. *)
Record Image := MkImage
  { Reader : option io.Reader; Width : Z; Height : Z }.

End model.

(** One page's images as pdfcpu returns them: a [map[int]model.Image] from
    object number to image.  The list is the map's entries in the order the
    [range] statement happens to visit them, which Go leaves unspecified,
    and which may differ from one [range] to the next: a statement that
    compares two reads of a page is made for maps of one image at most,
    which have one order only. *)
Definition imageMap := list (Z * model.Image).

Module types.

Inductive Anchor :=
| TopLeft | TopCenter | TopRight | Left | Center | Right
| BottomLeft | BottomCenter | BottomRight | Full.

End types.

Module pdfcpu.

(** The fields of pdfcpu's [Import] configuration the package sets; the
    others keep the values [DefaultImportConfig] gave them. *)
Record Import := MkImport
  { Scale : float64; Pos : types.Anchor; defaults : Z }.

End pdfcpu.

Module docangle.

Record Image := MkImage { Pixels : bytes; Width : Z; Height : Z }.

(** The fields of [WhiteLinesParams] the package sets; the others keep the
    values [NewWhiteLinesParams] gave them. *)
Record WhiteLinesParams := MkParams
  { Include90Degrees : bool;
    MinDeltaDegrees : float64;
    MaxDeltaDegrees : float64;
    defaults : Z }.

End docangle.

(** ** Collaborator calls *)

(** The calls a function of the package makes to its collaborators, in the
    order it makes them.  Each entry records the call and the error the
    call returned, if it returned one. *)
Inductive call :=
| Call_Images (pages : list string)
| Call_Text (page : Z)
| Call_ExtractImagesRaw (pages : list string)
| Call_ReadAll
| Call_Decompress
| Call_ToGray
| Call_GetAngleWhiteLines (params : docangle.WhiteLinesParams)
| Call_NewImage (width height : Z)
| Call_Rotate (radians : float64)
| Call_MakeUpright
| Call_Compress (params : cimg.CompressParams)
| Call_ImportImages (images : nat) (config : pdfcpu.Import).

Definition event : Type := call * option error.

(** What a run leaves behind: how it ended, the next free address of the
    allocator, and the calls it made. *)
Record run (A : Type) := MkRun
  { result : outcome A; next : N; calls : list event }.

Arguments MkRun {A} result next calls.
Arguments result {A} r.
Arguments next {A} r.
Arguments calls {A} r.

Definition M (A : Type) : Type := N -> run A.

Definition ret {A} (a : A) : M A := fun n => MkRun (Ok a) n [].

Definition fail {A} (e : error) : M A := fun n => MkRun (Err e) n [].

Definition panic {A} (msg : string) : M A := fun n => MkRun (Panic msg) n [].

Definition bind {A B} (m : M A) (k : A -> M B) : M B :=
  fun n =>
    let r := m n in
    match result r with
    | Ok a =>
        let r' := k a (next r) in
        MkRun (result r') (next r') (calls r ++ calls r')
    | Err e => MkRun (Err e) (next r) (calls r)
    | Panic msg => MkRun (Panic msg) (next r) (calls r)
    end.

Declare Scope go_scope.
Delimit Scope go_scope with go.

Notation "x <- m ;; k" := (bind m (fun x => k))
  (at level 61, m at next level, right associativity) : go_scope.
Notation "' p <- m ;; k" := (bind m (fun x => let 'p := x in k))
  (at level 61, p pattern, m at next level, right associativity) : go_scope.
Notation "m ;;; k" := (bind m (fun _ => k))
  (at level 61, right associativity) : go_scope.

Local Open Scope go_scope.

(** A call to a collaborator that returns [(T, error)]. *)
Definition invoke {A} (c : call) (r : outcome A) : M A :=
  fun n =>
    MkRun r n [(c, match r with Err e => Some e | _ => None end)].

(** A call to a collaborator that cannot fail. *)
Definition invoke_pure {A} (c : call) (a : A) : M A := invoke c (Ok a).

(** Allocation of a fresh [cimg.Image] holding [b]. *)
Definition new_Image (b : cimg.Bitmap) : M cimg.Image :=
  fun n =>
    MkRun (Ok (cimg.MkImage n (cimg.bm_Width b) (cimg.bm_Height b)
                 (cimg.bm_Format b) (cimg.bm_Pixels b)))
          (N.succ n) [].

(** ** The collaborators *)

(** An [io.ReadSeeker] interface value as [Document.reader] holds it: nil,
    an [*os.File] (itself possibly a nil pointer), or a [*bytes.Reader]. *)
Inductive ReadSeeker (File : Type) :=
| NilReader
| FileReader (f : option File)
| BytesReader (doc : bytes).

Arguments NilReader {File}.
Arguments FileReader {File} f.
Arguments BytesReader {File} doc.

(** What [MakeUpright] decided: the image is upright already, or here is
    the content of the image turned upright. *)
Inductive upright_decision := Unchanged | Transformed (b : cimg.Bitmap).

Class Collaborators := {
  (* go-fitz *)
  fitz_Document : Type;
  fitz_New : string -> outcome fitz_Document;
  fitz_NewFromMemory : bytes -> outcome fitz_Document;
  fitz_NumPage : fitz_Document -> Z;
  fitz_Text : fitz_Document -> Z -> outcome string;
  (* os *)
  os_File : Type;
  os_Open : string -> outcome os_File;
  (* pdfcpu *)
  pdfapi_Images : ReadSeeker os_File -> list string -> outcome (list imageMap);
  pdfapi_ExtractImagesRaw :
    ReadSeeker os_File -> list string -> outcome (list imageMap);
  pdfcpu_DefaultImportConfig : pdfcpu.Import;
  pdfapi_ImportImages : list bytes -> pdfcpu.Import -> outcome bytes;
  (* cimg *)
  cimg_Decompress : bytes -> outcome cimg.Bitmap;
  cimg_Compress : cimg.Bitmap -> cimg.CompressParams -> outcome bytes;
  cimg_blank : Z -> Z -> cimg.PixelFormat -> bytes;
  cimg_rotated : cimg.Bitmap -> cimg.Bitmap -> float64 -> bytes;
  cimg_gray : cimg.Bitmap -> cimg.Bitmap;
  (* docangle *)
  docangle_NewWhiteLinesParams : docangle.WhiteLinesParams;
  docangle_GetAngleWhiteLines :
    docangle.Image -> docangle.WhiteLinesParams -> float64;
  (* textorient *)
  textorient_Orient : Type;
  textorient_upright :
    textorient_Orient -> cimg.Bitmap -> outcome upright_decision;
  (* math *)
  math_Cos : float64 -> float64;
  math_Sin : float64 -> float64;
  (* the value of [int(f)] when [f] is NaN or outside the range of [int],
     which Go leaves to the implementation *)
  int_unrepresentable : float64 -> Z
}.

Section Package.

Context {C : Collaborators}.

(** [int(f)] for a [float64] [f]: the fraction is discarded. *)
Definition int_of_float64 (f : float64) : Z :=
  match float64_trunc f with
  | Some z =>
      if (min_int <=? z) && (z <=? max_int) then z else int_unrepresentable f
  | None => int_unrepresentable f
  end.

(** *** Wrappers: how the package sees the cimg and textorient calls *)

(** [cimg.NewImage(width, height, format)]: a new image of that size. *)
Definition cimg_NewImage (width height : Z) (format : cimg.PixelFormat)
  : M cimg.Image :=
  invoke_pure (Call_NewImage width height) tt ;;;
  new_Image (cimg.MkBitmap width height format (cimg_blank width height format)).

(** [cimg.Rotate(src, dst, radians, nil)] writes the rotated [src] into the
    pixels of [dst]; [dst] keeps its address, size and format. *)
Definition cimg_Rotate (src dst : cimg.Image) (radians : float64)
  : M cimg.Image :=
  invoke_pure (Call_Rotate radians) tt ;;;
  ret (cimg.MkImage (cimg.addr dst) (cimg.Width dst) (cimg.Height dst)
         (cimg.Format dst)
         (cimg_rotated (cimg.bitmap src) (cimg.bitmap dst) radians)).

(** [orient.MakeUpright(img)] returns [img] itself when nothing is to be
    done, and a new image otherwise. *)
Definition MakeUpright (orient : textorient_Orient) (img : cimg.Image)
  : M cimg.Image :=
  d <- invoke Call_MakeUpright (textorient_upright orient (cimg.bitmap img)) ;;
  match d with
  | Unchanged => ret img
  | Transformed b => new_Image b
  end.

(** [cimg.Decompress(raw)] decodes into a new image. *)
Definition Decompress (raw : bytes) : M cimg.Image :=
  b <- invoke Call_Decompress (cimg_Decompress raw) ;;
  new_Image b.

Definition Compress (img : cimg.Image) (params : cimg.CompressParams)
  : M bytes :=
  invoke (Call_Compress params) (cimg_Compress (cimg.bitmap img) params).

(** [img.ToGray()] *)
Definition ToGray (img : cimg.Image) : M cimg.Image :=
  invoke_pure Call_ToGray tt ;;;
  new_Image (cimg_gray (cimg.bitmap img)).

(** *** straighten.go *)

Record Document := MkDocument
  { fz : fitz_Document;
    reader : ReadSeeker os_File;
    NumPages : Z;
    Verbose : bool }.

Definition newDocument (fz : fitz_Document) (reader : ReadSeeker os_File)
  : outcome Document :=
  Ok (MkDocument fz reader (fitz_NumPage fz) false).

(** [NewDocumentFromFile]: the error of [os.Open] is assigned to [err] and
    never read; on failure [file] is the nil [*os.File]. *)
Definition NewDocumentFromFile (filename : string) : outcome Document :=
  match fitz_New filename with
  | Err e => Err e
  | Panic msg => Panic msg
  | Ok fz =>
      let file :=
        match os_Open filename with
        | Ok f => Some f
        | _ => None
        end in
      newDocument fz (FileReader file)
  end.

Definition NewDocumentFromMemory (doc : bytes) : outcome Document :=
  match fitz_NewFromMemory doc with
  | Err e => Err e
  | Panic msg => Panic msg
  | Ok fz => newDocument fz (BytesReader doc)
  end.

(** [IsScanned], first loop, inner [range imagesOnPage]: [true] when an
    iteration reaches [return false, nil]. *)
Fixpoint image_too_small (imagesOnPage : imageMap) : bool :=
  match imagesOnPage with
  | [] => false
  | (_, img) :: rest =>
      let pixels := int_mul (model.Width img) (model.Height img) in
      if pixels <? 800 * 600 then true else image_too_small rest
  end.

(** [IsScanned], first loop: [false] when an iteration reaches
    [return false, nil], [true] when the loop runs to its end. *)
Fixpoint images_loop (allImages : list imageMap) : bool :=
  match allImages with
  | [] => true
  | imagesOnPage :: rest =>
      if negb (len imagesOnPage =? 1) then false
      else if image_too_small imagesOnPage then false
      else images_loop rest
  end.

(** What [IsScanned] asks of the images of one page: exactly one image,
    of at least 800 x 600 pixels, the pixel count being the [int] product
    the source computes. *)
Definition one_large_image (imagesOnPage : imageMap) : Prop :=
  len imagesOnPage = 1
  /\ forall k img, In (k, img) imagesOnPage ->
       800 * 600 <= int_mul (model.Width img) (model.Height img).


(** [IsScanned], second loop. *)
Fixpoint text_loop (d : Document) (pages : list Z) : M bool :=
  match pages with
  | [] => ret true
  | i :: rest =>
      txt <- invoke (Call_Text i) (fitz_Text (fz d) i) ;;
      if negb (txt =? "")%string then ret false else text_loop d rest
  end.

Definition IsScanned (d : Document) : M bool :=
  let allPages :=
    map (fun i => Sprintf_d (int_add i 1)) (range_int (fitz_NumPage (fz d))) in
  allImages <- invoke (Call_Images allPages)
                 (pdfapi_Images (reader d) allPages) ;;
  if images_loop allImages
  then text_loop d (range_int (fitz_NumPage (fz d)))
  else ret false.

(** [l[i]]: the element, if [i] is in range. *)
Definition lookup {A} (l : list A) (i : Z) : option A :=
  if i <? 0 then None else nth_error l (Z.to_nat i).

(** The message of the run-time panic of [l[i]]. *)
Definition outOfRange {A} (l : list A) (i : Z) : string :=
  "runtime error: index out of range [" ++ Sprintf_d i
  ++ "] with length " ++ Sprintf_d (len l).

(** [l[i]]: a run-time panic when [i] is out of range. *)
Definition index {A} (l : list A) (i : Z) : M A :=
  match lookup l i with
  | Some a => ret a
  | None => panic (outOfRange l i)
  end.

(** [fmt.Errorf("No image found on page %v", pageIdx+1)] *)
Definition noImage (pageIdx : Z) : error :=
  "No image found on page " ++ Sprintf_d (int_add pageIdx 1).

Definition getImageOnPage (d : Document) (pageIdx : Z)
  : M (bytes * cimg.Image) :=
  let pageName := Sprintf_d (int_add pageIdx 1) in
  images <- invoke (Call_ExtractImagesRaw [pageName])
              (pdfapi_ExtractImagesRaw (reader d) [pageName]) ;;
  if negb (len images =? 1) then
    fail ("ExtractImagesRaw returned an unexpected number of results ("
          ++ Sprintf_d (len images) ++ ") on page "
          ++ Sprintf_d (int_add pageIdx 1))
  else
    match images with
    | [] => panic (outOfRange images 0)
    | imageMap :: _ =>
        (* the first iteration of [range imageMap] returns *)
        match imageMap with
        | (_, img) :: _ =>
            match model.Reader img with
            | None => fail (noImage pageIdx)
            | Some r =>
                raw <- invoke Call_ReadAll (io.ReadAll r) ;;
                img <- Decompress raw ;;
                ret (raw, img)
            end
        | [] => fail (noImage pageIdx)
        end
    end.

Definition makeDocAngleImage (img : cimg.Image) : M docangle.Image :=
  img <- ToGray img ;;
  ret (docangle.MkImage (cimg.Pixels img) (cimg.Width img) (cimg.Height img)).

Definition getImageAngle (d : Document) (img : cimg.Image)
  (maxAngle : float64) (include90Degrees : bool) : M float64 :=
  let getAngleParams := docangle_NewWhiteLinesParams in
  let getAngleParams :=
    docangle.MkParams include90Degrees (- maxAngle)%float maxAngle
      (docangle.defaults getAngleParams) in
  dimg <- makeDocAngleImage img ;;
  invoke_pure (Call_GetAngleWhiteLines getAngleParams)
    (docangle_GetAngleWhiteLines dimg getAngleParams).

Fixpoint PageAngles_loop (d : Document) (maxAngle : float64)
  (include90Degrees : bool) (pages : list Z) (angles : list float64)
  : M (list float64) :=
  match pages with
  | [] => ret angles
  | page :: rest =>
      ' (raw, img) <- getImageOnPage d page ;;
      angle <- getImageAngle d img maxAngle include90Degrees ;;
      PageAngles_loop d maxAngle include90Degrees rest (angles ++ [angle])
  end.

(** [PageAngles]; the [d.verbose] line only prints. *)
Definition PageAngles (d : Document) (maxAngle : float64)
  (include90Degrees : bool) : M (list float64) :=
  PageAngles_loop d maxAngle include90Degrees (range_int (NumPages d)) [].

Definition cropLimitDegrees : float64 := 5%float.

(** The first half of [rotateImage]: the size of the canvas it allocates.
    Every product and sum is rounded on its own, as the compiler for amd64
    does it (Go lets a compiler fuse [x*y + z] into one rounding). *)
Definition rotateImage_size (img : cimg.Image) (angle : float64) : Z * Z :=
  if (abs angle <=? cropLimitDegrees)%float then
    (cimg.Width img, cimg.Height img)
  else if ((abs (angle - 90) <=? cropLimitDegrees)
           || (abs (angle + 90) <=? cropLimitDegrees))%float then
    (cimg.Height img, cimg.Width img)
  else
    let cosA := abs (math_Cos (angle * math_Pi / 180)%float) in
    let sinA := abs (math_Sin (angle * math_Pi / 180)%float) in
    (int_of_float64 (float64_of_int (cimg.Width img) * cosA
                     + float64_of_int (cimg.Height img) * sinA)%float,
     int_of_float64 (float64_of_int (cimg.Width img) * sinA
                     + float64_of_int (cimg.Height img) * cosA)%float).

Definition rotateImage (d : Document) (img : cimg.Image) (angle : float64)
  : M cimg.Image :=
  let '(newWidth, newHeight) := rotateImage_size img angle in
  fixed <- cimg_NewImage newWidth newHeight (cimg.Format img) ;;
  cimg_Rotate img fixed (angle * math_Pi / 180)%float.

Definition straightenImage (d : Document) (orient : textorient_Orient)
  (raw : bytes) (img : cimg.Image) (angle : float64) : M bytes :=
  fixed <- (if negb (angle =? 0)%float
            then rotateImage d img (- angle)%float
            else ret img) ;;
  upright <- MakeUpright orient fixed ;;
  if (cimg.addr upright =? cimg.addr img)%N then
    (* There was no transformation at all, so just return the original blob *)
    ret raw
  else
    Compress upright (cimg.MakeCompressParams cimg.Sampling444 95 0).

(** The encode profile of [straightenImage], for the statements below. *)
Definition profile : cimg.CompressParams :=
  cimg.MakeCompressParams cimg.Sampling444 95 0.

(** The image [rotateImage img angle] returns when the next free address
    is [n]. *)
Definition rotated (img : cimg.Image) (angle : float64) (n : N) : cimg.Image :=
  let '(w, h) := rotateImage_size img angle in
  cimg.MkImage n w h (cimg.Format img)
    (cimg_rotated (cimg.bitmap img)
       (cimg.MkBitmap w h (cimg.Format img) (cimg_blank w h (cimg.Format img)))
       (angle * math_Pi / 180)%float).

(** The bounding box as the specification writes it:
    [|width * cos a| + |height * sin a|] and
    [|width * sin a| + |height * cos a|], [a] the angle in radians, each
    truncated to an integer. *)
Definition boundingBox (width height : Z) (angle : float64) : Z * Z :=
  let a := (angle * math_Pi / 180)%float in
  (int_of_float64 (abs (float64_of_int width * math_Cos a)
                   + abs (float64_of_int height * math_Sin a))%float,
   int_of_float64 (abs (float64_of_int width * math_Sin a)
                   + abs (float64_of_int height * math_Cos a))%float).


(** The body of the loop of [StraightenedImages] for one page. *)
Definition straightenPage (d : Document) (orient : textorient_Orient)
  (pageAngles : list float64) (page : Z) : M bytes :=
  ' (raw, img) <- getImageOnPage d page ;;
  angle <- index pageAngles page ;;
  straightenImage d orient raw img angle.

Fixpoint StraightenedImages_loop (d : Document) (orient : textorient_Orient)
  (pageAngles : list float64) (pages : list Z) (straightImages : list bytes)
  : M (list bytes) :=
  match pages with
  | [] => ret straightImages
  | page :: rest =>
      fixed <- straightenPage d orient pageAngles page ;;
      StraightenedImages_loop d orient pageAngles rest
        (straightImages ++ [fixed])
  end.

Definition StraightenedImages (d : Document) (orient : textorient_Orient)
  (pageAngles : list float64) : M (list bytes) :=
  StraightenedImages_loop d orient pageAngles (range_int (NumPages d)) [].

(** [buildNewPDF]: one [bytes.NewReader] per image, in order, handed to
    [pdfapi.ImportImages] together with the configuration. *)
Definition buildNewPDF (d : Document) (images : list bytes) : M bytes :=
  let imageReaders := map (fun img : bytes => img) images in
  let importConfig := pdfcpu_DefaultImportConfig in
  let importConfig :=
    pdfcpu.MkImport 1%float (pdfcpu.Pos importConfig)
      (pdfcpu.defaults importConfig) in
  let importConfig :=
    pdfcpu.MkImport (pdfcpu.Scale importConfig) types.Full
      (pdfcpu.defaults importConfig) in
  invoke (Call_ImportImages (List.length imageReaders) importConfig)
    (pdfapi_ImportImages imageReaders importConfig).

Definition Straighten (d : Document) (orient : textorient_Orient)
  (pageAngles : list float64) : M bytes :=
  straightImages <- StraightenedImages d orient pageAngles ;;
  buildNewPDF d straightImages.

Fixpoint StraightenOnePass_loop (d : Document) (orient : textorient_Orient)
  (maxAngle : float64) (pages : list Z) (straightImages : list bytes)
  : M (list bytes) :=
  match pages with
  | [] => ret straightImages
  | page :: rest =>
      ' (raw, img) <- getImageOnPage d page ;;
      angle <- getImageAngle d img maxAngle false ;;
      fixed <- straightenImage d orient raw img angle ;;
      StraightenOnePass_loop d orient maxAngle rest (straightImages ++ [fixed])
  end.

Definition StraightenOnePass (d : Document) (orient : textorient_Orient)
  (maxAngle : float64) : M bytes :=
  straightImages <-
    StraightenOnePass_loop d orient maxAngle (range_int (NumPages d)) [] ;;
  buildNewPDF d straightImages.

(** *** The earliest revision of the file

    [straightenImage] before [MakeUpright] came in: no third tier, no
    orientation step. *)

Definition rotateImageAndCompress_v1 (d : Document) (img : cimg.Image)
  (angle : float64) : M bytes :=
  fixed <- cimg_NewImage (cimg.Width img) (cimg.Height img) (cimg.Format img) ;;
  fixed <- cimg_Rotate img fixed (angle * math_Pi / 180)%float ;;
  Compress fixed (cimg.MakeCompressParams cimg.Sampling444 95 0).

Definition straightenImage_v1 (d : Document) (raw : bytes) (img : cimg.Image)
  (angle : float64) : M bytes :=
  if negb (angle =? 0)%float
  then rotateImageAndCompress_v1 d img (- angle)%float
  else ret raw.


(** *** Notions the statements below use *)

(** The calls of the text loop over [pages] when no call fails. *)
Definition text_calls (pages : list Z) : list event :=
  map (fun i => (Call_Text i, @None error)) pages.

(** [img] moved to the address [n]. *)
Definition at_addr (img : cimg.Image) (n : N) : cimg.Image :=
  cimg.MkImage n (cimg.Width img) (cimg.Height img) (cimg.Format img)
    (cimg.Pixels img).

(** The outputs of a run of pages, in order; the first page that fails
    ends the run. *)
Fixpoint collect (f : Z -> outcome bytes) (pages : list Z)
  : outcome (list bytes) :=
  match pages with
  | [] => Ok []
  | page :: rest =>
      match f page with
      | Ok out =>
          match collect f rest with
          | Ok outs => Ok (out :: outs)
          | Err e => Err e
          | Panic msg => Panic msg
          end
      | Err e => Err e
      | Panic msg => Panic msg
      end
  end.

(** The configuration [buildNewPDF] hands to [pdfapi.ImportImages]. *)
Definition importConfig : pdfcpu.Import :=
  pdfcpu.MkImport 1%float types.Full
    (pdfcpu.defaults pdfcpu_DefaultImportConfig).

End Package.

(** ** cmd/straighten: the angle loop of [main] *)

(** One iteration of [for i, a := range angles]: the new value of
    [angles[i]].  [allow90Degrees] is a local of [main]. *)
Definition normalizeAngle (allow90Degrees : bool) (a : float64) : float64 :=
  if negb (a =? 0)%float then
    if negb allow90Degrees && ((80 <? a) && (a <? 100))%float
    then (a - 90)%float
    else a
  else a.

(** The loop: the angles it leaves in the slice, and [nRotated]. *)
Fixpoint normalizeAngles (allow90Degrees : bool) (angles : list float64)
  : list float64 * Z :=
  match angles with
  | [] => ([], 0)
  | a :: rest =>
      let '(rest', nRotated) := normalizeAngles allow90Degrees rest in
      (normalizeAngle allow90Degrees a :: rest',
       if negb (a =? 0)%float then nRotated + 1 else nRotated)
  end.

(** [main] sets [allow90Degrees := true] and never changes it. *)
Definition main_allow90Degrees : bool := true.

(** [main] sets [maxAngle := 2.6]: the nearest [float64]. *)
Definition main_maxAngle : float64 := 0x1.4cccccccccccdp+1%float.

Definition main_angles (angles : list float64) : list float64 * Z :=
  normalizeAngles main_allow90Degrees angles.

(** [main] from [doc.PageAngles(maxAngle, true)] to the end of the angle
    loop: the angles it goes on with, and [nRotated].  ([check(err)]
    panics on an error; here the error is returned.) *)
Definition main_resolve {C : Collaborators} (doc : Document)
  : M (list float64 * Z) :=
  bind (PageAngles doc main_maxAngle true)
       (fun angles => ret (main_angles angles)).

(** The same loop in the earlier revision of the driver, which has no
    [allow90Degrees]. *)
Definition normalizeAngle_v1 (a : float64) : float64 :=
  if negb (a =? 0)%float then
    if ((80 <? a) && (a <? 100))%float then (a - 90)%float else a
  else a.

Fixpoint normalizeAngles_v1 (angles : list float64) : list float64 * Z :=
  match angles with
  | [] => ([], 0)
  | a :: rest =>
      let '(rest', nRotated) := normalizeAngles_v1 rest in
      (normalizeAngle_v1 a :: rest',
       if negb (a =? 0)%float then nRotated + 1 else nRotated)
  end.

(** ** A small world to run the package in

    A stand-in for the collaborators, simple enough to compute with: a
    PDF file is a list of pages, each with its extractable text and its
    embedded images; an encoded image is a width byte, a height byte, a
    quality byte and the pixels; a page counts as upside down when its
    first pixel is [0xff].  The examples further down run the package's
    functions in it. *)

Module Sample.

Record page := MkPage { text : outcome string; images : imageMap }.

Definition byte_of_Z (z : Z) : Byte.byte :=
  match Byte.of_N (Z.to_N (z mod 256)) with
  | Some b => b
  | None => Byte.x00
  end.

Definition Z_of_byte (b : Byte.byte) : Z := Z.of_N (Byte.to_N b).

(** An encoded image: width, height, the quality it was encoded at, and
    the pixels. *)
Definition encode (b : cimg.Bitmap) (params : cimg.CompressParams) : bytes :=
  byte_of_Z (cimg.bm_Width b) :: byte_of_Z (cimg.bm_Height b)
  :: byte_of_Z (cimg.Quality params) :: cimg.bm_Pixels b.

Definition decode (raw : bytes) : outcome cimg.Bitmap :=
  match raw with
  | w :: h :: q :: px => Ok (cimg.MkBitmap (Z_of_byte w) (Z_of_byte h) 0 px)
  | _ => Err "cimg: cannot decode"
  end.

Definition upright (b : cimg.Bitmap) : outcome upright_decision :=
  match cimg.bm_Pixels b with
  | Byte.xff :: _ =>
      Ok (Transformed (cimg.MkBitmap (cimg.bm_Width b) (cimg.bm_Height b)
                         (cimg.bm_Format b) (rev (cimg.bm_Pixels b))))
  | Byte.xee :: _ => Err "textorient: inference failed"
  | _ => Ok Unchanged
  end.

(** The page named [name] ("1" is the first) of [pages]. *)
Fixpoint select (pages : list page) (i : Z) (name : string) : list imageMap :=
  match pages with
  | [] => []
  | p :: rest =>
      if (Sprintf_d i =? name)%string then [images p]
      else select rest (i + 1) name
  end.

Definition listImages (r : ReadSeeker (list page)) (names : list string)
  : outcome (list imageMap) :=
  match r with
  | FileReader (Some pages) => Ok (flat_map (select pages 1) names)
  | FileReader None => Err "invalid argument"
  | BytesReader _ => Err "pdfcpu: not a PDF"
  | NilReader => Err "pdfcpu: missing rs"
  end.

(** Cosine and sine by their power series up to degree 17; good to many
    digits on the angles the examples use. *)
Definition cos_series (x : float64) : float64 :=
  let x2 := (x * x)%float in
  (1 - x2 / 2 * (1 - x2 / 12 * (1 - x2 / 30 * (1 - x2 / 56 * (1 - x2 / 90
   * (1 - x2 / 132 * (1 - x2 / 182 * (1 - x2 / 240))))))))%float.

Definition sin_series (x : float64) : float64 :=
  let x2 := (x * x)%float in
  (x * (1 - x2 / 6 * (1 - x2 / 20 * (1 - x2 / 42 * (1 - x2 / 72 * (1 - x2 / 110
   * (1 - x2 / 156 * (1 - x2 / 210 * (1 - x2 / 272)))))))))%float.

(** Encoded images: 100 x 80, quality 75, three pixels each. *)
Definition rawA : bytes :=
  [Byte.x64; Byte.x50; Byte.x4b; Byte.x01; Byte.x02; Byte.x03].
Definition rawB : bytes :=
  [Byte.x64; Byte.x50; Byte.x4b; Byte.x0a; Byte.x0b; Byte.x0c].
(** ... one that shows an upside-down page, *)
Definition rawF : bytes :=
  [Byte.x64; Byte.x50; Byte.x4b; Byte.xff; Byte.x02; Byte.x03].
(** ... and one that does not decode. *)
Definition rawBad : bytes := [Byte.x64].

Definition stream (raw : bytes) : option io.Reader :=
  Some (io.MkReader raw None).

Definition scanOf (raw : bytes) : page :=
  MkPage (Ok "") [(7, model.MkImage (stream raw) 1000 800)].

Definition pageA : page := scanOf rawA.
Definition pageF : page := scanOf rawF.
Definition pageBad : page := scanOf rawBad.
Definition pageText : page :=
  MkPage (Ok "Dear Sir") [(7, model.MkImage (stream rawA) 1000 800)].
Definition pageLogo : page :=
  MkPage (Ok "") [(7, model.MkImage (stream rawA) 100 100)].
Definition pageTwo : page :=
  MkPage (Ok "") [(3, model.MkImage (stream rawA) 1000 800);
                  (4, model.MkImage (stream rawB) 1000 800)].
Definition pageEmpty : page := MkPage (Ok "") [].
Definition pageNoStream : page :=
  MkPage (Ok "") [(7, model.MkImage None 1000 800)].
Definition pageTextFails : page :=
  MkPage (Err "fitz: cannot extract text")
    [(7, model.MkImage (stream rawA) 1000 800)].
Definition pageHuge : page :=
  MkPage (Ok "") [(7, model.MkImage (stream rawA) (2 ^ 32) (2 ^ 32))].

(** The files of the sample world: for each name, whether the rendering
    engine and the operating system can open it, and its pages. *)
Definition files : list (string * (bool * bool * list page)) :=
  [ ("scan.pdf", (true, true, [pageA; pageF; pageA]));
    ("locked.pdf", (true, false, [pageA]));
    ("twoimages.pdf", (true, true, [pageTwo]));
    ("letter.pdf", (true, true, [pageA; pageText; pageTextFails])) ].

Definition world : Collaborators := {|
  fitz_Document := list page;
  fitz_New name :=
    match find (fun f => (fst f =? name)%string) files with
    | Some (_, (true, _, pages)) => Ok pages
    | _ => Err "fitz: cannot open document"
    end;
  fitz_NewFromMemory doc :=
    Ok (map (fun _ => MkPage (Ok "") []) doc);
  fitz_NumPage pages := len pages;
  fitz_Text pages i :=
    match nth_error pages (Z.to_nat i) with
    | Some p => text p
    | None => Err "fitz: page not found"
    end;
  os_File := list page;
  os_Open name :=
    match find (fun f => (fst f =? name)%string) files with
    | Some (_, (_, true, pages)) => Ok pages
    | _ => Err "open: permission denied"
    end;
  pdfapi_Images := listImages;
  pdfapi_ExtractImagesRaw := listImages;
  pdfcpu_DefaultImportConfig := pdfcpu.MkImport 0.5%float types.Center 0;
  pdfapi_ImportImages imgs _ := Ok (map (fun _ => Byte.x50) imgs);
  cimg_Decompress := decode;
  cimg_Compress b params := Ok (encode b params);
  cimg_blank _ _ _ := [];
  cimg_rotated src _ _ := cimg.bm_Pixels src;
  cimg_gray b := b;
  docangle_NewWhiteLinesParams := docangle.MkParams false 0%float 0%float 0;
  docangle_GetAngleWhiteLines _ _ := 0%float;
  textorient_Orient := unit;
  textorient_upright _ := upright;
  math_Cos := cos_series;
  math_Sin := sin_series;
  int_unrepresentable _ := min_int
|}.

(** A document over [pages], as [NewDocumentFromFile] builds it. *)
Definition document (pages : list page) : @Document world :=
  @MkDocument world pages (FileReader (Some pages)) (len pages) false.

Definition scan : @Document world := document [pageA; pageF; pageA].
Definition letter : @Document world :=
  document [pageA; pageText; pageTextFails].

(** [rawA] and [rawF] decoded at address 0. *)
Definition imgA : cimg.Image :=
  cimg.MkImage 0 100 80 0 [Byte.x01; Byte.x02; Byte.x03].
Definition imgF : cimg.Image :=
  cimg.MkImage 0 100 80 0 [Byte.xff; Byte.x02; Byte.x03].

(** [rawA] rotated and encoded again, [rawF] turned upright and encoded. *)
Definition againA : bytes :=
  [Byte.x64; Byte.x50; Byte.x5f; Byte.x01; Byte.x02; Byte.x03].
Definition againF : bytes :=
  [Byte.x64; Byte.x50; Byte.x5f; Byte.x03; Byte.x02; Byte.xff].

End Sample.

(** ** The resolver and the single pass: notions for the statements *)

Section Resolver.

Context {C : Collaborators}.

(** The parameters [getImageAngle] hands to the estimator. *)
Definition window (maxAngle : float64) (include90Degrees : bool)
  : docangle.WhiteLinesParams :=
  docangle.MkParams include90Degrees (- maxAngle)%float maxAngle
    (docangle.defaults docangle_NewWhiteLinesParams).

(** The angle [getImageAngle] returns for an image of content [b]. *)
Definition angleOf (b : cimg.Bitmap) (maxAngle : float64)
  (include90Degrees : bool) : float64 :=
  let g := cimg_gray b in
  docangle_GetAngleWhiteLines
    (docangle.MkImage (cimg.bm_Pixels g) (cimg.bm_Width g) (cimg.bm_Height g))
    (window maxAngle include90Degrees).

(** The results of a run over [pages], in order; the first page that
    fails ends the run. *)
Fixpoint gather {A} (f : Z -> outcome A) (pages : list Z)
  : outcome (list A) :=
  match pages with
  | [] => Ok []
  | page :: rest =>
      match f page with
      | Ok a =>
          match gather f rest with
          | Ok l => Ok (a :: l)
          | Err e => Err e
          | Panic msg => Panic msg
          end
      | Err e => Err e
      | Panic msg => Panic msg
      end
  end.

(** What the body of the loop of [PageAngles] yields for a page. *)
Definition pageAngle (d : Document) (maxAngle : float64)
  (include90Degrees : bool) (page : Z) : outcome float64 :=
  match result (getImageOnPage d page 0%N) with
  | Ok (raw, img) => Ok (angleOf (cimg.bitmap img) maxAngle include90Degrees)
  | Err e => Err e
  | Panic msg => Panic msg
  end.

(** What the body of the loop of [StraightenOnePass] yields for a page. *)
Definition onePassPage (d : Document) (orient : textorient_Orient)
  (maxAngle : float64) (page : Z) : outcome bytes :=
  match result (getImageOnPage d page 0%N) with
  | Ok (raw, img) =>
      result (straightenImage d orient raw img
                (angleOf (cimg.bitmap img) maxAngle false) 1%N)
  | Err e => Err e
  | Panic msg => Panic msg
  end.

(** The calls [PageAngles] may make, with the window it must ask for. *)
Definition resolver_call (maxAngle : float64) (include90Degrees : bool)
  (c : call) : Prop :=
  match c with
  | Call_ExtractImagesRaw _ | Call_ReadAll | Call_Decompress | Call_ToGray =>
      True
  | Call_GetAngleWhiteLines params => params = window maxAngle include90Degrees
  | _ => False
  end.

(** The calls [getImageOnPage] may make. *)
Definition extraction_call (c : call) : Prop :=
  match c with
  | Call_ExtractImagesRaw _ | Call_ReadAll | Call_Decompress => True
  | _ => False
  end.

(** The calls the page loop of [StraightenedImages] may make. *)
Definition straightening_call (c : call) : Prop :=
  match c with
  | Call_ExtractImagesRaw _ | Call_ReadAll | Call_Decompress
  | Call_NewImage _ _ | Call_Rotate _ | Call_MakeUpright => True
  | Call_Compress params => params = profile
  | _ => False
  end.

(** The pages asked of [pdfapi.ExtractImagesRaw] during a run, call by
    call. *)
Definition extractions (l : list event) : list (list string) :=
  flat_map (fun ev => match fst ev with
                      | Call_ExtractImagesRaw pages => [pages]
                      | _ => []
                      end) l.

(** The pages [getImageOnPage] asks for, for each of [pages]. *)
Definition pageNames (pages : list Z) : list (list string) :=
  map (fun page => [Sprintf_d (int_add page 1)]) pages.

(** Every page entry [pdfapi.ExtractImagesRaw] returns for a page of [d]
    holds one image at most, so that the image [getImageOnPage] takes is
    the same whenever the page is read. *)
Definition single_images (d : Document) : Prop :=
  forall page images,
    0 <= page < NumPages d ->
    pdfapi_ExtractImagesRaw (reader d) [Sprintf_d (int_add page 1)]
    = Ok images ->
    Forall (fun imagesOnPage : imageMap => len imagesOnPage <= 1) images.


End Resolver.


(** ** [Close]

    [Close] works on the two handles of the document, which it sets to
    nil as it releases them. *)

Section Closing.

Context {C : Collaborators}.

(** The fields [fz] and [reader] of a [*Document], [fz] being nil or not. *)
Record handles := MkHandles
  { h_fz : option fitz_Document;
    h_reader : ReadSeeker os_File }.

(** The handles of a document as [newDocument] builds it. *)
Definition handles_of (d : Document) : handles :=
  MkHandles (Some (fz d)) (reader d).

(** A call of [Close] on a resource: [closer.Close()] on the file behind
    the reader (a nil [*os.File] when [os.Open] had failed), or
    [d.fz.Close()]. *)
Inductive release :=
| Release_reader (f : option os_File)
| Release_fz (fz : fitz_Document).

(** [Document.Close]: the handles it leaves and the resources it
    released, in order.  An [*os.File] is an [io.Closer], a
    [*bytes.Reader] is not. *)
Definition Close (h : handles) : handles * list release :=
  let '(reader, closed) :=
    match h_reader h with
    | NilReader => (NilReader, [])
    | FileReader f => (NilReader, [Release_reader f])
    | BytesReader doc => (BytesReader doc, [])
    end in
  match h_fz h with
  | Some fz => (MkHandles None reader, (closed ++ [Release_fz fz])%list)
  | None => (MkHandles None reader, closed)
  end.

(** [Close] in the earlier revisions of the file. *)
Definition Close_v1 (h : handles) : handles * list release :=
  match h_reader h with
  | FileReader f => (h, [Release_reader f])
  | _ => (h, [])
  end.

(** [k] calls of a [Close], one after the other: the handles they leave
    and all they released. *)
Fixpoint repeatedly (close : handles -> handles * list release) (k : nat)
  (h : handles) : handles * list release :=
  match k with
  | O => (h, [])
  | S k' =>
      let '(h', closed) := close h in
      let '(h'', closed') := repeatedly close k' h' in
      (h'', (closed ++ closed')%list)
  end.

End Closing.

(** ** The drivers: cmd/straighten and cmd/dump *)

(** What the drivers ask of the world beyond the collaborators of the
    package.  [filepath_Walk dir] is the sequence of calls [filepath.Walk]
    makes to its callback as long as the callback returns nil: the path,
    whether it is a directory, and the error. *)
Class Shell {C : Collaborators} := {
  textorient_NewOrient : outcome textorient_Orient;
  os_WriteFile : string -> bytes -> Z -> option error;
  filepath_Walk : string -> list (string * bool * option error);
  filepath_Ext : string -> string;
  filepath_Base : string -> string;
  strings_ToLower : string -> string
}.

(** What a driver does to the world around it.  Of the standard output
    only the lines the driver prints itself are kept; those [d.verbose]
    prints from inside the package are left out. *)
Inductive effect {C : Collaborators} :=
| Out_Printf (s : string)
| Out_MkdirAll (path : string) (perm : Z)
| Out_WriteFile (name : string) (data : bytes) (perm : Z) (err : option error)
| Out_Close (released : list release).

(** A run of a driver: how it ended ([Panic] is a crash), the state of
    the allocator, and what it did. *)
Record session {C : Collaborators} (A : Type) := MkSession
  { exit : outcome A; heap : N; output : list effect }.

Arguments MkSession {C A} exit heap output.
Arguments exit {C A} s.
Arguments heap {C A} s.
Arguments output {C A} s.

Definition D {C : Collaborators} (A : Type) : Type := N -> session A.

Section Driving.

Context {C : Collaborators}.

Definition done {A} (a : A) : D A := fun n => MkSession (Ok a) n [].

Definition andThen {A B} (m : D A) (k : A -> D B) : D B :=
  fun n =>
    let s := m n in
    match exit s with
    | Ok a =>
        let s' := k a (heap s) in
        MkSession (exit s') (heap s') (output s ++ output s')%list
    | Err e => MkSession (Err e) (heap s) (output s)
    | Panic msg => MkSession (Panic msg) (heap s) (output s)
    end.

Definition emit (e : effect) : D unit := fun n => MkSession (Ok tt) n [e].

(** A call into the package. *)
Definition run_pkg {A} (m : M A) : D A :=
  fun n => let r := m n in MkSession (result r) (next r) [].

(** A call that touches neither the allocator nor the world. *)
Definition call_pure {A} (r : outcome A) : D A := fun n => MkSession r n [].

(** [x, err := f(); check(err)]: an error becomes a panic. *)
Definition check {A} (m : D A) : D A :=
  fun n =>
    let s := m n in
    MkSession (match exit s with
               | Err e => Panic e
               | r => r
               end) (heap s) (output s).

(** [x, err := f()] with [err] looked at by the caller. *)
Definition attempt {A} (m : D A) : D (A + error) :=
  fun n =>
    let s := m n in
    MkSession (match exit s with
               | Ok a => Ok (inl a)
               | Err e => Ok (inr e)
               | Panic msg => Panic msg
               end) (heap s) (output s).

(** [f()] with the error it returns dropped. *)
Definition ignore (m : D unit) : D unit :=
  fun n =>
    let s := m n in
    MkSession (match exit s with
               | Err e => Ok tt
               | r => r
               end) (heap s) (output s).

(** [defer]: [e] happens when [body] is left, however it is left. *)
Definition defer {A} (e : effect) (body : D A) : D A :=
  fun n =>
    let s := body n in MkSession (exit s) (heap s) (output s ++ [e])%list.

(** From every state of the allocator, [m] ends with [r] after doing
    [out]. *)
Definition yields {A} (m : D A) (r : outcome A) (out : list effect) : Prop :=
  forall n, exit (m n) = r /\ output (m n) = out.

(** The names of the files written, in order. *)
Definition written (out : list effect) : list string :=
  flat_map (fun e => match e with
                     | Out_WriteFile name _ _ _ => [name]
                     | _ => []
                     end) out.

End Driving.

Declare Scope driver_scope.
Delimit Scope driver_scope with driver.

Notation "x <- m ;; k" := (andThen m (fun x => k))
  (at level 61, m at next level, right associativity) : driver_scope.
Notation "m ;;; k" := (andThen m (fun _ => k))
  (at level 61, right associativity) : driver_scope.

(** ["\n"] *)
Definition nl : string := String (ascii_of_nat 10) EmptyString.

(** [0644] and [0755] *)
Definition perm_0644 : Z := 6 * 64 + 4 * 8 + 4.
Definition perm_0755 : Z := 7 * 64 + 5 * 8 + 5.

Section Writing.

Context {C : Collaborators} {Sh : Shell}.

(** [os.WriteFile(name, data, perm)] *)
Definition WriteFile (name : string) (data : bytes) (perm : Z) : D unit :=
  fun n =>
    let err := os_WriteFile name data perm in
    MkSession (match err with
               | Some e => Err e
               | None => Ok tt
               end) n [Out_WriteFile name data perm err].

End Writing.

Module cmd_straighten.

Section Main.

Context {C : Collaborators} {Sh : Shell}.

Local Open Scope driver_scope.

(** [main] sets [outputPDF := true] and never changes it. *)
Definition outputPDF : bool := true.

(** The loop of the branch that writes one image per page. *)
Fixpoint write_pages (i : Z) (images : list bytes) : D unit :=
  match images with
  | [] => done tt
  | img :: rest =>
      let outputFileName :=
        ("straightened_page_" ++ Sprintf_d (int_add i 1) ++ ".jpg")%string in
      check (WriteFile outputFileName img perm_0644) ;;;
      write_pages (i + 1) rest
  end.

Definition main (args : list string) : D unit :=
  if negb (len args =? 2) then
    arg0 <- run_pkg (index args 0) ;;
    emit (Out_Printf ("Usage: " ++ arg0 ++ " <filename>" ++ nl))
  else
    filename <- run_pkg (index args 1) ;;
    orient <- check (call_pure textorient_NewOrient) ;;
    let maxAngle := main_maxAngle in
    let allow90Degrees := main_allow90Degrees in
    doc <- check (call_pure (NewDocumentFromFile filename)) ;;
    defer (Out_Close (snd (Close (handles_of doc))))
      (let doc := MkDocument (fz doc) (reader doc) (NumPages doc) true in
       r <- attempt (run_pkg (IsScanned doc)) ;;
       match r with
       | inr err =>
           emit (Out_Printf ("Error checking if document is scanned: "
                             ++ err ++ nl))
       | inl false => emit (Out_Printf ("Document is not scanned" ++ nl))
       | inl true =>
           angles <- check (run_pkg (PageAngles doc maxAngle true)) ;;
           let '(angles, nRotated) := normalizeAngles allow90Degrees angles in
           if nRotated =? 0 then
             emit (Out_Printf ("Document is already 100% straight" ++ nl))
           else
             emit (Out_Printf ("Straightening" ++ nl)) ;;;
             if outputPDF then
               straight <- check (run_pkg (Straighten doc orient angles)) ;;
               ignore (WriteFile "straightened.pdf" straight perm_0644)
             else
               images <-
                 check (run_pkg (StraightenedImages doc orient angles)) ;;
               write_pages 0 images
       end).

End Main.

End cmd_straighten.

Module cmd_dump.

Section Main.

Context {C : Collaborators} {Sh : Shell}.

Local Open Scope driver_scope.

(** [k] zeros. *)
Fixpoint zeros (k : nat) : string :=
  match k with
  | O => EmptyString
  | S k' => String "0" (zeros k')
  end.

(** [fmt.Sprintf("%0<width>d", n)]: zeros up to the width, the sign
    taking one place of it. *)
Definition Sprintf_0d (width : nat) (n : Z) : string :=
  let digits := NilEmpty.string_of_uint (N.to_uint (Z.abs_N n)) in
  if n <? 0 then
    ("-" ++ zeros (width - 1 - String.length digits) ++ digits)%string
  else (zeros (width - String.length digits) ++ digits)%string.

(** [strings.ReplaceAll(s, old, new)] for [old] and [new] of one byte. *)
Fixpoint ReplaceAll (s : string) (old new : ascii) : string :=
  match s with
  | EmptyString => EmptyString
  | String c rest =>
      String (if Ascii.eqb c old then new else c) (ReplaceAll rest old new)
  end.

(** The name [main] gives to the image of index [i] of a document. *)
Definition outputFile (outputDir : string) (outputIdx : Z) (base : string)
  (i : Z) : string :=
  let outputFile :=
    (outputDir ++ "/" ++ Sprintf_0d 5 outputIdx ++ "_" ++ base ++ "_"
     ++ Sprintf_0d 2 (int_add i 1) ++ ".jpg")%string in
  ReplaceAll outputFile " " "_".

(** [for i, img := range images]: returns [outputIdx] as the loop leaves
    it. *)
Fixpoint write_images (outputDir base : string) (i : Z) (images : list bytes)
  (outputIdx : Z) : D Z :=
  match images with
  | [] => done outputIdx
  | img :: rest =>
      check (WriteFile (outputFile outputDir outputIdx base i) img perm_0644) ;;;
      write_images outputDir base (i + 1) rest (int_add outputIdx 1)
  end.

(** Names given under consecutive values of [outputIdx], from [outputIdx]
    on. *)
Inductive numbered (outputDir : string) : Z -> list string -> Prop :=
| numbered_nil outputIdx : numbered outputDir outputIdx []
| numbered_cons outputIdx base i names :
    numbered outputDir (outputIdx + 1) names ->
    numbered outputDir outputIdx
      (outputFile outputDir outputIdx base i :: names).

(** [for _, pdfFile := range pdfFiles] *)
Fixpoint process (orient : textorient_Orient) (outputDir : string)
  (pdfFiles : list string) (outputIdx : Z) : D unit :=
  match pdfFiles with
  | [] => done tt
  | pdfFile :: rest =>
      doc <- check (call_pure (NewDocumentFromFile pdfFile)) ;;
      scanned <- check (run_pkg (IsScanned doc)) ;;
      let base := filepath_Base pdfFile in
      if negb scanned then
        emit (Out_Printf ("Skipping " ++ base ++ " (not scanned)" ++ nl)) ;;;
        process orient outputDir rest outputIdx
      else
        emit (Out_Printf ("Processing " ++ base ++ nl)) ;;;
        angles <- check (run_pkg (PageAngles doc 2.5%float true)) ;;
        images <- check (run_pkg (StraightenedImages doc orient angles)) ;;
        outputIdx <- write_images outputDir base 0 images outputIdx ;;
        process orient outputDir rest outputIdx
  end.

(** The callback of [filepath.Walk], over the calls made to it. *)
Fixpoint walk (entries : list (string * bool * option error))
  (pdfFiles : list string) : outcome (list string) :=
  match entries with
  | [] => Ok pdfFiles
  | (path, isDir, err) :: rest =>
      match err with
      | Some e => Err e
      | None =>
          if negb isDir
             && (strings_ToLower (filepath_Ext path) =? ".pdf")%string
          then walk rest (pdfFiles ++ [path])%list
          else walk rest pdfFiles
      end
  end.

Definition findAllPDFFilesInDirectory (dir : string) : D (list string) :=
  check (call_pure (walk (filepath_Walk dir) [])).

Definition main (args : list string) : D unit :=
  inputDir <- run_pkg (index args 1) ;;
  outputDir <- run_pkg (index args 2) ;;
  emit (Out_MkdirAll outputDir perm_0755) ;;;
  pdfFiles <- findAllPDFFilesInDirectory inputDir ;;
  let outputIdx := 1 in
  orient <- check (call_pure textorient_NewOrient) ;;
  process orient outputDir pdfFiles outputIdx.

End Main.

End cmd_dump.

(** ** More small worlds, and one to run the drivers in

    The sample world with an estimator that finds the pages beginning with
    the pixel [0x01] tilted by 2 degrees, and a shell around it: a
    directory with three files, an orientation model that loads, and
    a disk that takes every write, or none.  And the sample world with an
    image listing that has no entry for a page without image. *)

Module SampleShell.

Definition tilted : Collaborators := {|
  fitz_Document := @fitz_Document Sample.world;
  fitz_New := @fitz_New Sample.world;
  fitz_NewFromMemory := @fitz_NewFromMemory Sample.world;
  fitz_NumPage := @fitz_NumPage Sample.world;
  fitz_Text := @fitz_Text Sample.world;
  os_File := @os_File Sample.world;
  os_Open := @os_Open Sample.world;
  pdfapi_Images := @pdfapi_Images Sample.world;
  pdfapi_ExtractImagesRaw := @pdfapi_ExtractImagesRaw Sample.world;
  pdfcpu_DefaultImportConfig := @pdfcpu_DefaultImportConfig Sample.world;
  pdfapi_ImportImages := @pdfapi_ImportImages Sample.world;
  cimg_Decompress := @cimg_Decompress Sample.world;
  cimg_Compress := @cimg_Compress Sample.world;
  cimg_blank := @cimg_blank Sample.world;
  cimg_rotated := @cimg_rotated Sample.world;
  cimg_gray := @cimg_gray Sample.world;
  docangle_NewWhiteLinesParams := @docangle_NewWhiteLinesParams Sample.world;
  docangle_GetAngleWhiteLines img _ :=
    match docangle.Pixels img with
    | Byte.x01 :: _ => 2%float
    | _ => 0%float
    end;
  textorient_Orient := @textorient_Orient Sample.world;
  textorient_upright := @textorient_upright Sample.world;
  math_Cos := @math_Cos Sample.world;
  math_Sin := @math_Sin Sample.world;
  int_unrepresentable := @int_unrepresentable Sample.world
|}.

(** The sample world with an image listing that leaves out the pages
    without image. *)
Definition sparse : Collaborators := {|
  fitz_Document := @fitz_Document Sample.world;
  fitz_New := @fitz_New Sample.world;
  fitz_NewFromMemory := @fitz_NewFromMemory Sample.world;
  fitz_NumPage := @fitz_NumPage Sample.world;
  fitz_Text := @fitz_Text Sample.world;
  os_File := @os_File Sample.world;
  os_Open := @os_Open Sample.world;
  pdfapi_Images r names :=
    match Sample.listImages r names with
    | Ok allImages =>
        Ok (filter (fun imagesOnPage : imageMap =>
                      negb (len imagesOnPage =? 0)) allImages)
    | Err e => Err e
    | Panic msg => Panic msg
    end;
  pdfapi_ExtractImagesRaw := @pdfapi_ExtractImagesRaw Sample.world;
  pdfcpu_DefaultImportConfig := @pdfcpu_DefaultImportConfig Sample.world;
  pdfapi_ImportImages := @pdfapi_ImportImages Sample.world;
  cimg_Decompress := @cimg_Decompress Sample.world;
  cimg_Compress := @cimg_Compress Sample.world;
  cimg_blank := @cimg_blank Sample.world;
  cimg_rotated := @cimg_rotated Sample.world;
  cimg_gray := @cimg_gray Sample.world;
  docangle_NewWhiteLinesParams := @docangle_NewWhiteLinesParams Sample.world;
  docangle_GetAngleWhiteLines := @docangle_GetAngleWhiteLines Sample.world;
  textorient_Orient := @textorient_Orient Sample.world;
  textorient_upright := @textorient_upright Sample.world;
  math_Cos := @math_Cos Sample.world;
  math_Sin := @math_Sin Sample.world;
  int_unrepresentable := @int_unrepresentable Sample.world
|}.

(** A scan followed by a blank page, in that world. *)
Definition withBlank : @Document sparse :=
  @MkDocument sparse [Sample.pageA; Sample.pageEmpty]
    (FileReader (Some [Sample.pageA; Sample.pageEmpty])) 2 false.

Fixpoint has_slash (path : string) : bool :=
  match path with
  | EmptyString => false
  | String c rest => Ascii.eqb c "/" || has_slash rest
  end.

(** The suffix from the last dot of the last element on. *)
Fixpoint Ext (path : string) : string :=
  match path with
  | EmptyString => EmptyString
  | String c rest =>
      match Ext rest with
      | EmptyString =>
          if has_slash rest then EmptyString
          else if Ascii.eqb c "." then path
          else EmptyString
      | ext => ext
      end
  end.

(** The last element. *)
Fixpoint Base (path : string) : string :=
  match path with
  | EmptyString => EmptyString
  | String c rest =>
      if has_slash rest then Base rest
      else if Ascii.eqb c "/" then rest
      else path
  end.

Fixpoint ToLower (s : string) : string :=
  match s with
  | EmptyString => EmptyString
  | String c rest =>
      let k := nat_of_ascii c in
      String (if (65 <=? k)%nat && (k <=? 90)%nat
              then ascii_of_nat (k + 32) else c)
        (ToLower rest)
  end.

Definition shell (C : Collaborators) (orient : @textorient_Orient C)
  (disk : bool) : @Shell C := {|
  textorient_NewOrient := Ok orient;
  os_WriteFile _ _ _ :=
    if disk then None else Some "write: no space left on device";
  filepath_Walk dir :=
    [(dir, true, None); ("letter.pdf", false, None);
     ("notes.txt", false, None); ("scan.pdf", false, None)];
  filepath_Ext := Ext;
  filepath_Base := Base;
  strings_ToLower := ToLower
|}.

(** The sample scan in the world of the tilted pages. *)
Definition scan : @Document tilted :=
  @MkDocument tilted [Sample.pageA; Sample.pageF; Sample.pageA]
    (FileReader (Some [Sample.pageA; Sample.pageF; Sample.pageA])) 3 false.

(** The handles of the sample scan, as [main] closes them. *)
Definition closing : @effect tilted :=
  @Out_Close tilted
    [@Release_reader tilted
       (Some [Sample.pageA; Sample.pageF; Sample.pageA]);
     @Release_fz tilted [Sample.pageA; Sample.pageF; Sample.pageA]].

End SampleShell.


(** ** Facts on [float64]

    Proved from the specification of the primitive floats. *)

Section Float64.

Lemma SFabs_binary_round_aux (s : bool) (m e : Z) (l : location) :
  SFabs (binary_round_aux prec emax s m e l) = binary_round_aux prec emax false m e l.
Proof.
  unfold binary_round_aux.
  destruct (shr_fexp prec emax m e l) as [mrs' e'].
  destruct (shr_fexp prec emax _ e' loc_Exact) as [mrs'' e''].
  destruct (shr_m mrs'') as [|p|p]; [reflexivity| |reflexivity].
  destruct (e'' <=? emax - prec); reflexivity.
Qed.

Lemma SFabs_SFmul (x y : spec_float) :
  SFabs (SFmul prec emax x y) = SFmul prec emax (SFabs x) (SFabs y).
Proof.
  destruct x as [sx|sx| |sx mx ex], y as [sy|sy| |sy my ey];
    try reflexivity.
  cbn [SFmul SFabs xorb]. apply SFabs_binary_round_aux.
Qed.

(** [|x * y| = |x| * |y|], bit for bit. *)
Lemma abs_mul (x y : float64) : abs (x * y) = (abs x * abs y)%float.
Proof.
  apply Prim2SF_inj.
  rewrite abs_spec, !mul_spec, !abs_spec.
  apply SFabs_SFmul.
Qed.

Lemma SFabs_binary_round (m : positive) (e : Z) :
  SFabs (binary_round prec emax false m e) = binary_round prec emax false m e.
Proof.
  unfold binary_round.
  destruct (shl_align m e _) as [mz ez].
  apply SFabs_binary_round_aux.
Qed.

Lemma SFabs_binary_normalize (z e : Z) :
  0 <= z ->
  SFabs (binary_normalize prec emax z e false)
  = binary_normalize prec emax z e false.
Proof.
  intros Hz. destruct z as [|p|p]; cbn [binary_normalize].
  - reflexivity.
  - apply SFabs_binary_round.
  - lia.
Qed.

Lemma SFabs_SFldexp (x : spec_float) (e : Z) :
  SFabs x = x -> SFabs (SFldexp prec emax x e) = SFldexp prec emax x e.
Proof.
  destruct x as [s|s| |s m ex]; cbn [SFldexp]; try (intros H; exact H).
  cbn [SFabs]. intros H. injection H as H. subst s.
  apply SFabs_binary_round.
Qed.

Lemma abs_fixpoint (x : float64) :
  SFabs (Prim2SF x) = Prim2SF x -> abs x = x.
Proof.
  intros H. apply Prim2SF_inj. rewrite abs_spec. exact H.
Qed.

(** The conversion of a non-negative [int] is its own absolute value. *)
Lemma abs_float64_of_int (n : Z) :
  0 <= n -> abs (float64_of_int n) = float64_of_int n.
Proof.
  intros Hn. unfold float64_of_int.
  pose proof (SFabs_binary_normalize n 0 Hn) as H.
  destruct (binary_normalize prec emax n 0 false) as [s|s| |s m e];
    cbn [SFabs] in H.
  - injection H as H. subst s. reflexivity.
  - injection H as H. subst s. reflexivity.
  - reflexivity.
  - injection H as H. subst s. cbn [SF2Prim].
    apply abs_fixpoint.
    rewrite Z_ldexp_spec. apply SFabs_SFldexp.
    rewrite of_uint63_spec. apply SFabs_binary_normalize.
    apply Uint63.to_Z_bounded.
Qed.

Lemma SFcompare_antisym (x y : spec_float) :
  SFcompare y x = option_map CompOpp (SFcompare x y).
Proof.
  destruct x as [sx|sx| |sx mx ex], y as [sy|sy| |sy my ey];
    try reflexivity;
    try (destruct sx; reflexivity);
    try (destruct sy; reflexivity);
    try (destruct sx, sy; reflexivity).
  cbn [SFcompare option_map].
  destruct sx, sy; try reflexivity.
  - rewrite (Z.compare_antisym ex ey).
    destruct (ex ?= ey); try reflexivity.
    cbn [CompOpp]. rewrite CompOpp_involutive.
    rewrite (Pos.compare_cont_antisym my mx Eq). reflexivity.
  - rewrite (Z.compare_antisym ex ey).
    destruct (ex ?= ey); try reflexivity.
    cbn [CompOpp].
    rewrite (Pos.compare_cont_antisym mx my Eq). reflexivity.
Qed.

(** [a <= b] excludes [b < a]. *)
Lemma leb_not_ltb (a b : float64) :
  (a <=? b)%float = true -> (b <? a)%float = false.
Proof.
  rewrite leb_spec, ltb_spec. unfold SFleb, SFltb.
  rewrite (SFcompare_antisym (Prim2SF a) (Prim2SF b)).
  destruct (SFcompare (Prim2SF a) (Prim2SF b)) as [[| |]|];
    cbn [option_map CompOpp]; congruence.
Qed.


(** Rounding to nearest, as far as the comparisons of [rotateImage] need
    it. *)

Lemma digits2_pos_size (p : positive) : digits2_pos p = Pos.size p.
Proof. induction p; cbn; congruence. Qed.

Lemma digits2_pos_bounds (p : positive) (d : Z) :
  2 ^ (d - 1) <= Zpos p < 2 ^ d -> Zpos (digits2_pos p) = d.
Proof.
  intros [Hlo Hhi]. rewrite digits2_pos_size.
  pose proof (Pos.size_gt p) as Hgt. pose proof (Pos.size_le p) as Hle.
  assert (Hgt' : Zpos p < 2 ^ Zpos (Pos.size p)).
  { rewrite <- Pos2Z.inj_pow. apply Pos2Z.pos_lt_pos. exact Hgt. }
  assert (Hle' : 2 ^ Zpos (Pos.size p) <= 2 * Zpos p).
  { rewrite <- Pos2Z.inj_pow. apply (Pos2Z.pos_le_pos _ (p~0)). exact Hle. }
  assert (Hd : 0 < d).
  { destruct (Z.ltb_spec 0 d) as [H|H]; [exact H|].
    rewrite Z.pow_neg_r in Hlo by lia.
    assert (2 ^ d <= 1).
    { destruct (Z.eq_dec d 0) as [->|]; [cbn; lia|].
      rewrite Z.pow_neg_r by lia. lia. }
    lia. }
  assert (H1 : d - 1 < Zpos (Pos.size p)).
  { apply (Z.pow_lt_mono_r_iff 2); lia. }
  assert (H2 : Zpos (Pos.size p) < d + 1).
  { apply (Z.pow_lt_mono_r_iff 2); try lia.
    replace (d + 1) with (Z.succ d) by lia. rewrite Z.pow_succ_r by lia. lia. }
  lia.
Qed.

Lemma shr_m_shr_1 (mrs : shr_record) :
  0 <= shr_m mrs -> shr_m (shr_1 mrs) = shr_m mrs / 2.
Proof.
  destruct mrs as [m r s]. cbn [shr_m].
  intros Hm. rewrite <- Z.div2_div.
  destruct m as [|[p|p|]|p]; try reflexivity; lia.
Qed.

Lemma shr_m_iter (p : positive) (mrs : shr_record) :
  0 <= shr_m mrs ->
  shr_m (iter_pos shr_1 p mrs) = shr_m mrs / 2 ^ Zpos p.
Proof.
  revert mrs. induction p as [p IH|p IH|]; intros mrs Hm; cbn [iter_pos].
  - assert (H1 : 0 <= shr_m (shr_1 mrs))
      by (rewrite shr_m_shr_1 by exact Hm; apply Z.div_pos; lia).
    assert (H2 : 0 <= shr_m (iter_pos shr_1 p (shr_1 mrs)))
      by (rewrite IH by exact H1; apply Z.div_pos; [exact H1|apply Z.pow_pos_nonneg; lia]).
    rewrite IH by exact H2. rewrite IH by exact H1.
    rewrite shr_m_shr_1 by exact Hm.
    rewrite !Z.div_div by (try apply Z.pow_pos_nonneg; lia).
    f_equal.
    rewrite (Pos2Z.inj_xI p), Z.pow_add_r, Z.pow_twice_r, Z.pow_1_r by lia.
    lia.
  - assert (H2 : 0 <= shr_m (iter_pos shr_1 p mrs))
      by (rewrite IH by exact Hm; apply Z.div_pos; [exact Hm|apply Z.pow_pos_nonneg; lia]).
    rewrite IH by exact H2. rewrite IH by exact Hm.
    rewrite !Z.div_div by (try apply Z.pow_pos_nonneg; lia).
    f_equal. rewrite (Pos2Z.inj_xO p), Z.pow_twice_r. lia.
  - rewrite shr_m_shr_1 by exact Hm. reflexivity.
Qed.

Lemma iter_xO (m d : positive) :
  Zpos (Pos.iter xO m d) = Zpos m * 2 ^ Zpos d.
Proof.
  induction d as [|d IH] using Pos.peano_ind.
  - cbn. lia.
  - rewrite Pos.iter_succ, (Pos2Z.inj_xO (Pos.iter xO m d)), IH,
      Pos2Z.inj_succ, Z.pow_succ_r by lia.
    lia.
Qed.

Lemma fexp_7 : fexp prec emax 7 = -46.
Proof. reflexivity. Qed.

Lemma round_nearest_even_bounds (m : Z) (l : location) :
  m <= round_nearest_even m l <= m + 1.
Proof.
  destruct l as [|[| |]]; cbn [round_nearest_even]; try lia.
  destruct (Z.even m); lia.
Qed.

Lemma binary_round_near_90 (s : bool) (P : positive) (e : Z) :
  e < -46 ->
  85 * 2 ^ 46 * 2 ^ (-46 - e) <= Zpos P <= 95 * 2 ^ 46 * 2 ^ (-46 - e) ->
  exists m, binary_round prec emax s P e = S754_finite s m (-46).
Proof.
  intros He HP.
  destruct (-46 - e) as [|kp|kp] eqn:Hk; try lia.
  assert (HK : 0 < 2 ^ Zpos kp) by (apply Z.pow_pos_nonneg; lia).
  change (2 ^ 46) with 70368744177664 in HP.
  assert (Hdig : Zpos (digits2_pos P) = 53 + Zpos kp).
  { apply digits2_pos_bounds.
    replace (53 + Zpos kp - 1) with (52 + Zpos kp) by lia.
    rewrite !Z.pow_add_r by lia.
    change (2 ^ 52) with 4503599627370496.
    change (2 ^ 53) with 9007199254740992. nia. }
  unfold binary_round. rewrite Hdig.
  replace (53 + Zpos kp + e) with 7 by lia. rewrite fexp_7.
  unfold shl_align. rewrite Hk.
  unfold binary_round_aux, shr_fexp.
  cbn [Zdigits2]. rewrite Hdig.
  replace (53 + Zpos kp + e) with 7 by lia. rewrite fexp_7, Hk.
  cbn [shr shr_record_of_loc].
  set (mrs := iter_pos shr_1 kp _).
  assert (Hm : shr_m mrs = Zpos P / 2 ^ Zpos kp)
    by (unfold mrs; rewrite shr_m_iter; [reflexivity|cbn; lia]).
  assert (Hlo : 85 * 70368744177664 <= shr_m mrs)
    by (rewrite Hm; apply Z.div_le_lower_bound; lia).
  assert (Hhi : shr_m mrs <= 95 * 70368744177664)
    by (rewrite Hm; apply Z.div_le_upper_bound; lia).
  pose proof (round_nearest_even_bounds (shr_m mrs) (loc_of_shr_record mrs))
    as Hr.
  destruct (round_nearest_even (shr_m mrs) (loc_of_shr_record mrs))
    as [|q|q]; try lia.
  assert (Hq : Zpos (digits2_pos q) = 53)
    by (apply digits2_pos_bounds; cbn; lia).
  cbn [Zdigits2]. rewrite Hq.
  replace (e + Zpos kp) with (-46) by lia.
  cbn [Z.add Z.sub Z.opp Pos.add fexp]. 
  exists q. reflexivity.
Qed.


Lemma valid_mantissa_lt (m : positive) (e : Z) :
  valid_binary (S754_finite false m e) = true ->
  Zpos m < 2 ^ 53.
Proof.
  cbn [valid_binary]. unfold bounded, canonical_mantissa, fexp.
  intros H. apply andb_prop in H. destruct H as [H _].
  apply Z.eqb_eq in H.
  assert (Hd : Zpos (digits2_pos m) <= 53) by (unfold prec in H; lia).
  rewrite digits2_pos_size in Hd.
  pose proof (Pos.size_gt m) as Hgt.
  assert (Hgt' : Zpos m < 2 ^ Zpos (Pos.size m)).
  { rewrite <- Pos2Z.inj_pow. apply Pos2Z.pos_lt_pos. exact Hgt. }
  eapply Z.lt_le_trans; [exact Hgt'|].
  apply Z.pow_le_mono_r; [lia|exact Hd].
Qed.

Lemma SFleb_finite (m m' : positive) (e e' : Z) :
  SFleb (S754_finite false m e) (S754_finite false m' e') = true ->
  e < e' \/ (e = e' /\ Zpos m <= Zpos m').
Proof.
  unfold SFleb, SFcompare.
  destruct (Z.compare_spec e e') as [Heq|Hlt|Hgt].
  - intros H. right. split; [exact Heq|].
    rewrite Pos.compare_cont_spec in H.
    destruct (Pos.compare_spec m m') as [Hm|Hl|Hg]; cbn [Pos.switch_Eq] in H.
    + rewrite Hm. apply Z.le_refl.
    + apply Z.lt_le_incl. apply Pos2Z.pos_lt_pos. exact Hl.
    + discriminate H.
  - intros _. left. exact Hlt.
  - discriminate.
Qed.

Lemma SFleb_above (s : bool) (m m' : positive) (e e' : Z) :
  e' < e ->
  SFleb (SFabs (S754_finite s m e)) (S754_finite false m' e') = false.
Proof.
  intros H. cbn [SFabs]. unfold SFleb, SFcompare.
  destruct (Z.compare_spec e e'); try lia; reflexivity.
Qed.

(** Within 5 of zero is further than 5 from 90 and from -90. *)
Lemma near_zero_not_near_quarter (a : float64) :
  (abs a <=? 5)%float = true ->
  (abs (a - 90) <=? 5)%float = false /\ (abs (a + 90) <=? 5)%float = false.
Proof.
  rewrite !leb_spec, !abs_spec, sub_spec, add_spec.
  pose proof (Prim2SF_valid a) as Hv.
  set (five := Prim2SF 5). vm_compute in five. subst five.
  set (ninety := Prim2SF 90). vm_compute in ninety. subst ninety.
  destruct (Prim2SF a) as [s|s| |s m e].
  - intros _. destruct s; split; reflexivity.
  - discriminate.
  - discriminate.
  - cbn [SFabs]. intros Hle.
    apply SFleb_finite in Hle.
    pose proof (valid_mantissa_lt m e Hv) as Hm.
    change (2 ^ 53) with 9007199254740992 in Hm.
    assert (He : e < -46) by lia.
    destruct (-46 - e) as [|kp|kp] eqn:Hk; try lia.
    assert (HK : 16 <= 2 ^ Zpos kp).
    { change 16 with (2 ^ 4). apply Z.pow_le_mono_r; lia. }
    assert (Hsmall : Zpos m <= 5 * 70368744177664 * 2 ^ Zpos kp).
    { destruct Hle as [Hlt|[Heq Hle]].
      - assert (32 <= 2 ^ Zpos kp)
          by (change 32 with (2 ^ 5); apply Z.pow_le_mono_r; lia).
        nia.
      - assert (Zpos kp = 4) by lia. rewrite H.
        change (2 ^ 4) with 16. lia. }
    assert (Hmin : Z.min e (-46) = e) by lia.
    assert (Hal : shl_align m e e = (m, e))
      by (unfold shl_align; rewrite Z.sub_diag; reflexivity).
    assert (Hal90 : forall m90,
               shl_align m90 (-46) e = (Pos.iter xO m90 kp, e)).
    { intros m90. unfold shl_align.
      replace (e - -46) with (Zneg kp) by lia. reflexivity. }
    split.
    + cbv beta iota zeta delta [SF64sub SFsub].
      rewrite Hmin, Hal, Hal90. cbn [fst].
      cbn [cond_Zopp]. rewrite iter_xO.
      set (N := _ - _).
      assert (HN : - (95 * 70368744177664 * 2 ^ Zpos kp) <= N
                   <= - (85 * 70368744177664 * 2 ^ Zpos kp)).
      { unfold N. destruct s; cbn [cond_Zopp]; lia. }
      destruct N as [|P|P]; try lia. cbn [binary_normalize].
      destruct (binary_round_near_90 true P e He) as [q Hq].
      { rewrite Hk. change (2 ^ 46) with 70368744177664. lia. }
      rewrite Hq. apply SFleb_above. lia.
    + cbv beta iota zeta delta [SF64add SFadd].
      rewrite Hmin, Hal, Hal90. cbn [fst].
      cbn [cond_Zopp]. rewrite iter_xO.
      set (N := _ + _).
      assert (HN : 85 * 70368744177664 * 2 ^ Zpos kp <= N
                   <= 95 * 70368744177664 * 2 ^ Zpos kp).
      { unfold N. destruct s; cbn [cond_Zopp]; lia. }
      destruct N as [|P|P]; try lia. cbn [binary_normalize].
      destruct (binary_round_near_90 false P e He) as [q Hq].
      { rewrite Hk. change (2 ^ 46) with 70368744177664. lia. }
      rewrite Hq. apply SFleb_above. lia.
Qed.

(** An angle above 80 is not zero. *)
Lemma above_80_nonzero (a : float64) :
  (80 <? a)%float = true -> (a =? 0)%float = false.
Proof.
  rewrite ltb_spec, eqb_spec.
  set (lo := Prim2SF 80). vm_compute in lo. subst lo.
  set (z := Prim2SF 0). vm_compute in z. subst z.
  unfold SFltb, SFeqb.
  destruct (Prim2SF a) as [s|s| |s m e]; cbn [SFcompare];
    try destruct s; try discriminate; try reflexivity.
Qed.


End Float64.


(** ** Properties *)

Section Properties.

Context {C : Collaborators}.

(** *** Running [bind] *)

Lemma bind_Ok {A B} (m : M A) (k : A -> M B) (n : N) (a : A) :
  result (m n) = Ok a ->
  bind m k n =
  MkRun (result (k a (next (m n)))) (next (k a (next (m n))))
        (calls (m n) ++ calls (k a (next (m n)))).
Proof. intros H. unfold bind. rewrite H. reflexivity. Qed.

Lemma bind_Err {A B} (m : M A) (k : A -> M B) (n : N) (e : error) :
  result (m n) = Err e ->
  bind m k n = MkRun (Err e) (next (m n)) (calls (m n)).
Proof. intros H. unfold bind. rewrite H. reflexivity. Qed.

Lemma bind_Panic {A B} (m : M A) (k : A -> M B) (n : N) (msg : string) :
  result (m n) = Panic msg ->
  bind m k n = MkRun (Panic msg) (next (m n)) (calls (m n)).
Proof. intros H. unfold bind. rewrite H. reflexivity. Qed.

Lemma bitmap_new (b : cimg.Bitmap) (n : N) :
  cimg.bitmap (cimg.MkImage n (cimg.bm_Width b) (cimg.bm_Height b)
                 (cimg.bm_Format b) (cimg.bm_Pixels b)) = b.
Proof. destruct b. reflexivity. Qed.

(** *** [rotateImage] *)

(** [rotateImage] always returns: a new image at the next free address,
    of the size [rotateImage_size] gives and the format of the input. *)
Lemma rotateImage_run (d : Document) (img : cimg.Image) (angle : float64)
  (n : N) :
  rotateImage d img angle n =
  MkRun (Ok (rotated img angle n)) (N.succ n)
    [(Call_NewImage (fst (rotateImage_size img angle))
        (snd (rotateImage_size img angle)), None);
     (Call_Rotate (angle * math_Pi / 180)%float, None)].
Proof.
  unfold rotateImage, rotated.
  destruct (rotateImage_size img angle) as [w h].
  reflexivity.
Qed.

Lemma rotated_fields (img : cimg.Image) (angle : float64) (n : N) :
  cimg.addr (rotated img angle n) = n /\
  (cimg.Width (rotated img angle n), cimg.Height (rotated img angle n))
  = rotateImage_size img angle /\
  cimg.Format (rotated img angle n) = cimg.Format img.
Proof.
  unfold rotated. destruct (rotateImage_size img angle) as [w h].
  repeat split.
Qed.

(** *** [straightenImage] *)

(** The run of [straightenImage] on an angle equal to zero, by what
    [MakeUpright] decides. *)
Lemma straightenImage_zero_run (d : Document) (orient : textorient_Orient)
  (raw : bytes) (img : cimg.Image) (angle : float64) (n : N) :
  (angle =? 0)%float = true ->
  straightenImage d orient raw img angle n =
  match textorient_upright orient (cimg.bitmap img) with
  | Ok Unchanged => MkRun (Ok raw) n [(Call_MakeUpright, None)]
  | Ok (Transformed b) =>
      if (n =? cimg.addr img)%N
      then MkRun (Ok raw) (N.succ n) [(Call_MakeUpright, None)]
      else MkRun (cimg_Compress b profile) (N.succ n)
             [(Call_MakeUpright, None);
              (Call_Compress profile,
               match cimg_Compress b profile with
               | Err e => Some e
               | _ => None
               end)]
  | Err e => MkRun (Err e) n [(Call_MakeUpright, Some e)]
  | Panic msg => MkRun (Panic msg) n [(Call_MakeUpright, None)]
  end.
Proof.
  intros Hz.
  unfold straightenImage, MakeUpright, Compress, new_Image, invoke, bind, ret.
  rewrite Hz. simpl.
  destruct (textorient_upright orient (cimg.bitmap img)) as [[|b]|e|msg];
    simpl; try reflexivity.
  - rewrite N.eqb_refl. reflexivity.
  - destruct (n =? cimg.addr img)%N; [reflexivity|].
    rewrite bitmap_new. reflexivity.
Qed.

(** The run of [straightenImage] on an angle different from zero, for an
    image allocated before the run starts. *)
Lemma straightenImage_nonzero_run (d : Document) (orient : textorient_Orient)
  (raw : bytes) (img : cimg.Image) (angle : float64) (n : N) :
  (angle =? 0)%float = false ->
  (cimg.addr img < n)%N ->
  let fixed := rotated img (- angle)%float n in
  let rotation :=
    [(Call_NewImage (fst (rotateImage_size img (- angle)%float))
        (snd (rotateImage_size img (- angle)%float)), None);
     (Call_Rotate (- angle * math_Pi / 180)%float, None)] in
  let encoded (b : cimg.Bitmap) :=
    (Call_Compress profile,
     match cimg_Compress b profile with Err e => Some e | _ => None end) in
  straightenImage d orient raw img angle n =
  match textorient_upright orient (cimg.bitmap fixed) with
  | Ok Unchanged =>
      MkRun (cimg_Compress (cimg.bitmap fixed) profile) (N.succ n)
        (rotation ++ [(Call_MakeUpright, None); encoded (cimg.bitmap fixed)])
  | Ok (Transformed b) =>
      MkRun (cimg_Compress b profile) (N.succ (N.succ n))
        (rotation ++ [(Call_MakeUpright, None); encoded b])
  | Err e => MkRun (Err e) (N.succ n) (rotation ++ [(Call_MakeUpright, Some e)])
  | Panic msg =>
      MkRun (Panic msg) (N.succ n) (rotation ++ [(Call_MakeUpright, None)])
  end.
Proof.
  intros Hnz Hlt fixed rotation encoded.
  assert (Hn : (n =? cimg.addr img)%N = false) by (apply N.eqb_neq; lia).
  assert (Hs : (N.succ n =? cimg.addr img)%N = false) by (apply N.eqb_neq; lia).
  destruct (rotated_fields img (- angle)%float n) as [Haddr _].
  unfold straightenImage. rewrite Hnz. simpl negb. cbv iota.
  rewrite (bind_Ok _ _ n (rotated img (- angle)%float n))
    by (rewrite rotateImage_run; reflexivity).
  rewrite rotateImage_run. cbn [result next calls].
  fold fixed. fold rotation.
  unfold MakeUpright, Compress, new_Image, invoke, bind, ret.
  cbn [result next calls].
  destruct (textorient_upright orient (cimg.bitmap fixed)) as [[|b]|e|msg];
    cbn [result next calls cimg.addr].
  - fold fixed in Haddr. rewrite Haddr, Hn. reflexivity.
  - rewrite Hs, bitmap_new. reflexivity.
  - reflexivity.
  - reflexivity.
Qed.

(** C1 (amended).  For a page whose angle is exactly 0 (the comparison is
    that of [float64], so -0 counts) [straightenImage] returns the raw
    bytes, byte for byte, when the upright-orientation collaborator hands
    back the image it was given: the only collaborator call of the run is
    [MakeUpright], nothing is encoded.  When the collaborator returns a
    transformed image the output is that image under the fixed encode
    profile, and when it fails the output is its error. *)
Theorem straightenImage_zero_angle (d : Document) (orient : textorient_Orient)
  (raw : bytes) (img : cimg.Image) (angle : float64) (n : N) :
  (angle =? 0)%float = true ->
  (textorient_upright orient (cimg.bitmap img) = Ok Unchanged ->
   straightenImage d orient raw img angle n
   = MkRun (Ok raw) n [(Call_MakeUpright, None)])
  /\ (forall b,
        textorient_upright orient (cimg.bitmap img) = Ok (Transformed b) ->
        (cimg.addr img < n)%N ->
        result (straightenImage d orient raw img angle n)
        = cimg_Compress b profile
        /\ In (Call_Compress profile)
             (map fst (calls (straightenImage d orient raw img angle n))))
  /\ (forall e,
        textorient_upright orient (cimg.bitmap img) = Err e ->
        result (straightenImage d orient raw img angle n) = Err e).
Proof.
  intros Hz. rewrite (straightenImage_zero_run d orient raw img angle n Hz).
  split; [|split].
  - intros ->. reflexivity.
  - intros b -> Hlt.
    assert (Hn : (n =? cimg.addr img)%N = false) by (apply N.eqb_neq; lia).
    rewrite Hn. split; [reflexivity|].
    cbn [calls map fst]. right. left. reflexivity.
  - intros e ->. reflexivity.
Qed.

(** C7.  For a page whose angle is not zero, and an image allocated before
    the call, [straightenImage] rotates into a new image and its output is
    what [cimg.Compress] returns, under quality 95 and 4:4:4 sampling, for
    the image [MakeUpright] hands back: the rotated image itself when
    [MakeUpright] leaves it unchanged, the transformed one otherwise (and
    the collaborator's error when it fails).  Every successful run made
    the [Compress] call, and the run is the same whatever the raw bytes
    are: they are never passed through. *)
Theorem straightenImage_nonzero_angle (d : Document)
  (orient : textorient_Orient) (raw : bytes) (img : cimg.Image)
  (angle : float64) (n : N) :
  (angle =? 0)%float = false ->
  (cimg.addr img < n)%N ->
  result (rotateImage d img (- angle)%float n)
  = Ok (rotated img (- angle)%float n)
  /\ result (straightenImage d orient raw img angle n)
     = match textorient_upright orient
               (cimg.bitmap (rotated img (- angle)%float n)) with
       | Ok Unchanged =>
           cimg_Compress (cimg.bitmap (rotated img (- angle)%float n)) profile
       | Ok (Transformed b) => cimg_Compress b profile
       | Err e => Err e
       | Panic msg => Panic msg
       end
  /\ (forall out,
        result (straightenImage d orient raw img angle n) = Ok out ->
        In (Call_Compress profile, None)
           (calls (straightenImage d orient raw img angle n)))
  /\ (forall raw',
        straightenImage d orient raw' img angle n
        = straightenImage d orient raw img angle n).
Proof.
  intros Hnz Hlt.
  split; [rewrite rotateImage_run; reflexivity|].
  pose proof (straightenImage_nonzero_run d orient raw img angle n Hnz Hlt)
    as Hrun.
  cbv zeta in Hrun.
  split; [|split].
  - rewrite Hrun.
    destruct (textorient_upright orient _) as [[|b]|e|msg]; reflexivity.
  - intros out. rewrite Hrun.
    destruct (textorient_upright orient _) as [[|b]|e|msg];
      cbn [result calls]; try discriminate; intros Hout;
      apply in_or_app; right; right; left; rewrite Hout; reflexivity.
  - intros raw'. rewrite Hrun.
    apply (straightenImage_nonzero_run d orient raw' img angle n Hnz Hlt).
Qed.

(** The bounding box of the specification is the one the code computes,
    for an image whose dimensions are not negative. *)
Lemma boundingBox_code (img : cimg.Image) (angle : float64) :
  0 <= cimg.Width img -> 0 <= cimg.Height img ->
  boundingBox (cimg.Width img) (cimg.Height img) angle
  = (let cosA := abs (math_Cos (angle * math_Pi / 180)%float) in
     let sinA := abs (math_Sin (angle * math_Pi / 180)%float) in
     (int_of_float64 (float64_of_int (cimg.Width img) * cosA
                      + float64_of_int (cimg.Height img) * sinA)%float,
      int_of_float64 (float64_of_int (cimg.Width img) * sinA
                      + float64_of_int (cimg.Height img) * cosA)%float)).
Proof.
  intros Hw Hh. unfold boundingBox. cbv zeta.
  rewrite !abs_mul, !(abs_float64_of_int _ Hw), !(abs_float64_of_int _ Hh).
  reflexivity.
Qed.

(** C3.  [rotateImage] always returns a new image, and its canvas is:
    the input's (width, height) when |angle| <= 5; the input's
    (height, width) when |angle - 90| <= 5 or |angle + 90| <= 5 (the two
    conditions exclude each other); otherwise the bounding box
    [|w cos a| + |h sin a|], [|w sin a| + |h cos a|] with [a] the angle in
    radians, each truncated to an integer (the input's dimensions being
    those of an image: not negative).  The comparisons and the arithmetic
    are those of [float64]. *)
Theorem rotateImage_canvas (d : Document) (img : cimg.Image)
  (angle : float64) (n : N) :
  exists fixed : cimg.Image,
    result (rotateImage d img angle n) = Ok fixed
    /\ In (Call_NewImage (cimg.Width fixed) (cimg.Height fixed), None)
         (calls (rotateImage d img angle n))
    /\ ((abs angle <=? 5)%float = true ->
        (cimg.Width fixed, cimg.Height fixed)
        = (cimg.Width img, cimg.Height img))
    /\ (((abs (angle - 90) <=? 5) || (abs (angle + 90) <=? 5))%float = true ->
        (cimg.Width fixed, cimg.Height fixed)
        = (cimg.Height img, cimg.Width img))
    /\ ((abs angle <=? 5)%float = false ->
        ((abs (angle - 90) <=? 5) || (abs (angle + 90) <=? 5))%float = false ->
        0 <= cimg.Width img -> 0 <= cimg.Height img ->
        (cimg.Width fixed, cimg.Height fixed)
        = boundingBox (cimg.Width img) (cimg.Height img) angle).
Proof.
  exists (rotated img angle n).
  destruct (rotated_fields img angle n) as (_ & Hsize & _).
  rewrite rotateImage_run. cbn [result calls].
  split; [reflexivity|]. split.
  - left. rewrite <- Hsize. reflexivity.
  - rewrite Hsize. unfold rotateImage_size, cropLimitDegrees.
    split; [|split].
    + intros ->. reflexivity.
    + intros Hquarter.
      destruct (abs angle <=? 5)%float eqn:Hsmall.
      * destruct (near_zero_not_near_quarter angle Hsmall) as [H1 H2].
        rewrite H1, H2 in Hquarter. discriminate.
      * rewrite Hquarter. reflexivity.
    + intros -> -> Hw Hh. rewrite (boundingBox_code img angle Hw Hh).
      reflexivity.
Qed.

(** *** [IsScanned] *)

(** The [int] product is the product, for dimensions below 2^31. *)
Lemma int_mul_exact (a b : Z) :
  0 <= a < 2 ^ 31 -> 0 <= b < 2 ^ 31 -> int_mul a b = a * b.
Proof.
  intros Ha Hb. unfold int_mul, wrap_int.
  assert (H : 0 <= a * b < 2 ^ 62) by nia.
  rewrite Z.mod_small by lia. lia.
Qed.

Lemma image_too_small_false (m : imageMap) :
  image_too_small m = false <->
  forall k img, In (k, img) m ->
    800 * 600 <= int_mul (model.Width img) (model.Height img).
Proof.
  induction m as [|[k0 img0] rest IH]; cbn [image_too_small].
  - split; [intros _ k img []|reflexivity].
  - destruct (int_mul (model.Width img0) (model.Height img0) <? 800 * 600)
      eqn:Hlt.
    + split; [discriminate|]. intros H.
      specialize (H k0 img0 (or_introl eq_refl)).
      apply Z.ltb_lt in Hlt. lia.
    + apply Z.ltb_ge in Hlt. rewrite IH. split.
      * intros H k img [Heq|Hin]; [injection Heq as <- <-; exact Hlt|].
        exact (H k img Hin).
      * intros H k img Hin. apply (H k img). right. exact Hin.
Qed.

Lemma images_loop_true (allImages : list imageMap) :
  images_loop allImages = true <-> Forall one_large_image allImages.
Proof.
  induction allImages as [|m rest IH]; cbn [images_loop].
  - split; [constructor|reflexivity].
  - destruct (len m =? 1) eqn:Hlen; cbn [negb].
    + apply Z.eqb_eq in Hlen.
      destruct (image_too_small m) eqn:Hsmall.
      * split; [discriminate|]. intros H. inversion H as [|? ? [_ Hm] _]; subst.
        apply (proj2 (image_too_small_false m)) in Hm. congruence.
      * rewrite IH.
        pose proof (proj1 (image_too_small_false m) Hsmall) as Hbig. split.
        -- intros H. constructor; [split; assumption|exact H].
        -- intros H. inversion H; assumption.
    + apply Z.eqb_neq in Hlen. split; [discriminate|].
      intros H. inversion H as [|? ? [Hm _] _]; subst. contradiction.
Qed.

Lemma text_loop_cons (d : Document) (i : Z) (rest : list Z) (n : N) :
  text_loop d (i :: rest) n =
  match fitz_Text (fz d) i with
  | Ok txt =>
      if negb (txt =? "")%string
      then MkRun (Ok false) n [(Call_Text i, None)]
      else MkRun (result (text_loop d rest n)) (next (text_loop d rest n))
             ((Call_Text i, None) :: calls (text_loop d rest n))
  | Err e => MkRun (Err e) n [(Call_Text i, Some e)]
  | Panic msg => MkRun (Panic msg) n [(Call_Text i, None)]
  end.
Proof.
  cbn [text_loop]. unfold bind, invoke. cbn [result next calls].
  destruct (fitz_Text (fz d) i) as [txt|e|msg]; try reflexivity.
  destruct (negb (txt =? "")%string); reflexivity.
Qed.

(** The second loop runs through a prefix of pages without text. *)
Lemma text_loop_app (d : Document) (pre rest : list Z) (n : N) :
  Forall (fun i => fitz_Text (fz d) i = Ok "") pre ->
  text_loop d (pre ++ rest) n =
  MkRun (result (text_loop d rest n)) (next (text_loop d rest n))
    (text_calls pre ++ calls (text_loop d rest n)).
Proof.
  induction 1 as [|i pre Hi _ IH]; cbn [app text_calls map].
  - destruct (text_loop d rest n); reflexivity.
  - rewrite text_loop_cons, Hi. cbn [String.eqb negb].
    rewrite IH. reflexivity.
Qed.

Lemma text_loop_true (d : Document) (pages : list Z) (n : N) :
  result (text_loop d pages n) = Ok true <->
  Forall (fun i => fitz_Text (fz d) i = Ok "") pages.
Proof.
  induction pages as [|i rest IH].
  - split; [constructor|reflexivity].
  - rewrite text_loop_cons. split.
    + destruct (fitz_Text (fz d) i) as [txt|e|msg] eqn:Hi; try discriminate.
      destruct (txt =? "")%string eqn:Htxt; cbn [negb result];
        [|discriminate].
      apply String.eqb_eq in Htxt. subst txt. intros H.
      constructor; [exact Hi|apply IH; exact H].
    + intros H. inversion H as [|? ? Hi Hrest]; subst. rewrite Hi.
      cbn [String.eqb negb result]. apply IH. exact Hrest.
Qed.

Lemma text_loop_error (d : Document) (pages : list Z) (n : N) (c : call)
  (e : error) :
  In (c, Some e) (calls (text_loop d pages n)) ->
  result (text_loop d pages n) = Err e.
Proof.
  induction pages as [|i rest IH].
  - intros [].
  - rewrite text_loop_cons.
    destruct (fitz_Text (fz d) i) as [txt|e'|msg].
    + destruct (negb (txt =? "")%string); cbn [calls result].
      * intros [H|[]]. discriminate.
      * intros [H|H]; [discriminate|]. apply IH. exact H.
    + cbn [calls result]. intros [H|[]]. congruence.
    + cbn [calls result]. intros [H|[]]. discriminate.
Qed.

(** The run of [IsScanned], by what the image listing returns. *)
Lemma IsScanned_run (d : Document) (n : N) :
  let pages := range_int (fitz_NumPage (fz d)) in
  let names := map (fun i => Sprintf_d (int_add i 1)) pages in
  IsScanned d n =
  match pdfapi_Images (reader d) names with
  | Ok allImages =>
      if images_loop allImages
      then MkRun (result (text_loop d pages n)) (next (text_loop d pages n))
             ((Call_Images names, None) :: calls (text_loop d pages n))
      else MkRun (Ok false) n [(Call_Images names, None)]
  | Err e => MkRun (Err e) n [(Call_Images names, Some e)]
  | Panic msg => MkRun (Panic msg) n [(Call_Images names, None)]
  end.
Proof.
  intros pages names. unfold IsScanned. fold pages. fold names.
  unfold bind, invoke, ret. cbn [result next calls].
  destruct (pdfapi_Images (reader d) names) as [allImages|e|msg];
    try reflexivity.
  destruct (images_loop allImages); reflexivity.
Qed.

(** [IsScanned] by the entries of the image listing: it returns [true]
    exactly when the listing succeeds, every entry it returns holds
    exactly one image, of at least 800 x 600 = 480000 pixels, and the
    text extracted from every page is empty.  An entry with no image,
    several images or a small image makes it return [false] at once,
    before any text is extracted; otherwise the first page with text
    makes it return [false] at once, no later page being looked at. *)
Lemma IsScanned_by_entries (d : Document) (n : N) :
  let pages := range_int (fitz_NumPage (fz d)) in
  let names := map (fun i => Sprintf_d (int_add i 1)) pages in
  (result (IsScanned d n) = Ok true <->
   exists allImages,
     pdfapi_Images (reader d) names = Ok allImages
     /\ Forall one_large_image allImages
     /\ Forall (fun i => fitz_Text (fz d) i = Ok "") pages)
  /\ (forall allImages,
        pdfapi_Images (reader d) names = Ok allImages ->
        ~ Forall one_large_image allImages ->
        IsScanned d n = MkRun (Ok false) n [(Call_Images names, None)])
  /\ (forall allImages pre i post txt,
        pdfapi_Images (reader d) names = Ok allImages ->
        Forall one_large_image allImages ->
        pages = (pre ++ i :: post)%list ->
        Forall (fun j => fitz_Text (fz d) j = Ok "") pre ->
        fitz_Text (fz d) i = Ok txt ->
        txt <> "" ->
        IsScanned d n
        = MkRun (Ok false) n
            ((Call_Images names, None) :: text_calls (pre ++ [i]))).
Proof.
  intros pages names.
  pose proof (IsScanned_run d n) as Hrun. cbv zeta in Hrun.
  fold pages in Hrun. fold names in Hrun.
  split; [|split].
  - rewrite Hrun. split.
    + destruct (pdfapi_Images (reader d) names) as [allImages|e|msg];
        try discriminate.
      destruct (images_loop allImages) eqn:Himg; [|discriminate].
      cbn [result]. intros Htxt. exists allImages.
      split; [reflexivity|]. split.
      * apply images_loop_true. exact Himg.
      * apply (text_loop_true d pages n). exact Htxt.
    + intros (allImages & -> & Himg & Htxt).
      apply images_loop_true in Himg. rewrite Himg. cbn [result].
      apply text_loop_true. exact Htxt.
  - intros allImages Hall Hbad. rewrite Hrun, Hall.
    destruct (images_loop allImages) eqn:Himg; [|reflexivity].
    apply images_loop_true in Himg. contradiction.
  - intros allImages pre i post txt Hall Himg Hpages Hpre Hi Htxt.
    rewrite Hrun, Hall.
    apply images_loop_true in Himg. rewrite Himg.
    rewrite Hpages, (text_loop_app d pre (i :: post) n Hpre).
    cbn [result next calls]. rewrite text_loop_cons, Hi.
    assert (Hne : (txt =? "")%string = false)
      by (apply String.eqb_neq; exact Htxt).
    rewrite Hne. cbn [negb result next calls].
    unfold text_calls. rewrite map_app. reflexivity.
Qed.


Lemma range_int_In (k page : Z) : In page (range_int k) <-> 0 <= page < k.
Proof.
  unfold range_int. rewrite in_map_iff. split.
  - intros (i & <- & Hi). apply in_seq in Hi. lia.
  - intros H. exists (Z.to_nat page). split; [lia|].
    apply in_seq. lia.
Qed.

(** A property of every element is a property of the element at every
    index. *)
Lemma Forall_by_index {A} (P : A -> Prop) (l : list A) :
  Forall P l <->
  forall i, 0 <= i < len l -> exists x, lookup l i = Some x /\ P x.
Proof.
  rewrite Forall_forall. unfold lookup, len. split.
  - intros H i Hi.
    destruct (i <? 0) eqn:Hneg; [apply Z.ltb_lt in Hneg; lia|].
    destruct (nth_error l (Z.to_nat i)) as [x|] eqn:Hnth.
    + exists x. split; [reflexivity|]. apply H.
      apply (nth_error_In l (Z.to_nat i)). exact Hnth.
    + apply nth_error_None in Hnth. lia.
  - intros H x Hx. apply In_nth_error in Hx. destruct Hx as [k Hk].
    assert (Hlt : (k < List.length l)%nat)
      by (apply nth_error_Some; rewrite Hk; discriminate).
    destruct (H (Z.of_nat k)) as (y & Hy & HP); [lia|].
    destruct (Z.of_nat k <? 0) eqn:Hneg; [apply Z.ltb_lt in Hneg; lia|].
    rewrite Nat2Z.id, Hk in Hy. injection Hy as <-. exact HP.
Qed.

(** Under the contract of the listing (one entry for each page asked
    for, in order), the entries are the pages. *)
Lemma entries_are_pages (d : Document) (allImages : list imageMap) :
  let pages := range_int (fitz_NumPage (fz d)) in
  let names := map (fun i => Sprintf_d (int_add i 1)) pages in
  len allImages = len names ->
  (Forall one_large_image allImages <->
   forall i, In i pages ->
     exists imagesOnPage,
       lookup allImages i = Some imagesOnPage
       /\ one_large_image imagesOnPage).
Proof.
  intros pages names Hlen.
  assert (Hcount : len allImages = Z.of_nat (Z.to_nat (fitz_NumPage (fz d)))).
  { rewrite Hlen. unfold len, names, pages, range_int.
    rewrite !length_map, length_seq. reflexivity. }
  rewrite Forall_by_index. split.
  - intros H i Hi. apply range_int_In in Hi. apply H. lia.
  - intros H i Hi. apply H. apply range_int_In. lia.
Qed.

(** C4.  The pages are those go-fitz counts, and the images of a page are
    the entry the image listing returns for it: the listing is taken to
    answer with one entry for each page asked for, in order (the
    hypothesis; [pdfapi.Images] is not part of the repository).  Then
    [IsScanned] returns [true] exactly when the listing succeeds and
    every page has exactly one image, of at least 800 x 600 = 480000
    pixels, and no extractable text.  A page with no image, with several
    images or with a small image makes it return [false] at once, before
    any text is extracted; otherwise the first page with text makes it
    return [false] at once, no later page being looked at. *)
Theorem IsScanned_classifies (d : Document) (n : N) :
  let pages := range_int (fitz_NumPage (fz d)) in
  let names := map (fun i => Sprintf_d (int_add i 1)) pages in
  (forall allImages,
     pdfapi_Images (reader d) names = Ok allImages ->
     len allImages = len names) ->
  (result (IsScanned d n) = Ok true <->
   exists allImages,
     pdfapi_Images (reader d) names = Ok allImages
     /\ forall i, In i pages ->
          (exists imagesOnPage,
             lookup allImages i = Some imagesOnPage
             /\ one_large_image imagesOnPage)
          /\ fitz_Text (fz d) i = Ok "")
  /\ (forall allImages i imagesOnPage,
        pdfapi_Images (reader d) names = Ok allImages ->
        In i pages ->
        lookup allImages i = Some imagesOnPage ->
        len imagesOnPage <> 1
        \/ (exists k img,
              In (k, img) imagesOnPage
              /\ int_mul (model.Width img) (model.Height img) < 800 * 600) ->
        IsScanned d n = MkRun (Ok false) n [(Call_Images names, None)])
  /\ (forall allImages pre i post txt,
        pdfapi_Images (reader d) names = Ok allImages ->
        (forall j, In j pages ->
           exists imagesOnPage,
             lookup allImages j = Some imagesOnPage
             /\ one_large_image imagesOnPage) ->
        pages = (pre ++ i :: post)%list ->
        Forall (fun j => fitz_Text (fz d) j = Ok "") pre ->
        fitz_Text (fz d) i = Ok txt ->
        txt <> "" ->
        IsScanned d n
        = MkRun (Ok false) n
            ((Call_Images names, None) :: text_calls (pre ++ [i]))).
Proof.
  intros pages names Hcontract.
  destruct (IsScanned_by_entries d n) as (Htrue & Himages & Htext).
  fold pages in Htrue, Himages, Htext. fold names in Htrue, Himages, Htext.
  split; [|split].
  - rewrite Htrue. split.
    + intros (allImages & Hall & Hentries & Htxt). exists allImages.
      split; [exact Hall|]. intros i Hi. split.
      * apply (proj1 (entries_are_pages d allImages (Hcontract _ Hall)));
          assumption.
      * rewrite Forall_forall in Htxt. apply Htxt, Hi.
    + intros (allImages & Hall & Hpages). exists allImages.
      split; [exact Hall|]. split.
      * apply (proj2 (entries_are_pages d allImages (Hcontract _ Hall))).
        intros i Hi. apply (Hpages i Hi).
      * apply Forall_forall. intros i Hi. apply (Hpages i Hi).
  - intros allImages i imagesOnPage Hall Hi Hlook Hbad.
    apply (Himages allImages Hall). intros Hentries.
    rewrite Forall_by_index in Hentries.
    assert (Hin : 0 <= i < len allImages).
    { unfold lookup in Hlook.
      destruct (i <? 0) eqn:Hneg; [discriminate|].
      apply Z.ltb_ge in Hneg.
      assert (Hsome : nth_error allImages (Z.to_nat i) <> None)
        by (rewrite Hlook; discriminate).
      apply nth_error_Some in Hsome. unfold len. lia. }
    destruct (Hentries i Hin) as (m & Hm & [Hone Hlarge]).
    rewrite Hlook in Hm. injection Hm as <-.
    destruct Hbad as [Hcount|(k & img & Hk & Hsmall)].
    + contradiction.
    + specialize (Hlarge k img Hk). lia.
  - intros allImages pre i post txt Hall Hpages Hsplit Hpre Hi Htxt.
    apply (Htext allImages pre i post txt Hall); try assumption.
    apply (proj2 (entries_are_pages d allImages (Hcontract _ Hall))).
    exact Hpages.
Qed.

(** C8.  An error returned by the image listing or by the text extraction
    while [IsScanned] runs is the error [IsScanned] returns: whatever call
    of the run returned an error [e], the run ends in [Err e] (Go:
    [false, e]), never in [false, nil]; and [IsScanned] returns no error
    of its own making.  The run stops at the failed call. *)
Theorem IsScanned_propagates_errors (d : Document) (n : N) :
  let pages := range_int (fitz_NumPage (fz d)) in
  let names := map (fun i => Sprintf_d (int_add i 1)) pages in
  (forall c e,
     In (c, Some e) (calls (IsScanned d n)) ->
     result (IsScanned d n) = Err e)
  /\ (forall e,
        result (IsScanned d n) = Err e ->
        exists c, last (calls (IsScanned d n)) (c, None) = (c, Some e))
  /\ (forall e,
        pdfapi_Images (reader d) names = Err e ->
        IsScanned d n = MkRun (Err e) n [(Call_Images names, Some e)])
  /\ (forall allImages pre i post e,
        pdfapi_Images (reader d) names = Ok allImages ->
        Forall one_large_image allImages ->
        pages = (pre ++ i :: post)%list ->
        Forall (fun j => fitz_Text (fz d) j = Ok "") pre ->
        fitz_Text (fz d) i = Err e ->
        IsScanned d n
        = MkRun (Err e) n
            ((Call_Images names, None)
             :: text_calls pre ++ [(Call_Text i, Some e)])).
Proof.
  intros pages names.
  pose proof (IsScanned_run d n) as Hrun. cbv zeta in Hrun.
  fold pages in Hrun. fold names in Hrun.
  split; [|split; [|split]].
  - intros c e. rewrite Hrun.
    destruct (pdfapi_Images (reader d) names) as [allImages|e'|msg].
    + destruct (images_loop allImages); cbn [calls result].
      * intros [H|H]; [discriminate|].
        apply (text_loop_error d pages n c e H).
      * intros [H|[]]. discriminate.
    + cbn [calls result]. intros [H|[]]. congruence.
    + cbn [calls result]. intros [H|[]]. discriminate.
  - intros e. rewrite Hrun.
    destruct (pdfapi_Images (reader d) names) as [allImages|e'|msg].
    + destruct (images_loop allImages); cbn [calls result];
        [|discriminate].
      clear Hrun. generalize (Call_Images names, @None error).
      induction pages as [|i rest IH]; intros ev; [discriminate|].
      rewrite text_loop_cons.
      destruct (fitz_Text (fz d) i) as [txt|e1|msg].
      * destruct (negb (txt =? "")%string); cbn [result calls];
          [discriminate|].
        intros H. destruct (IH (Call_Text i, None) H) as [c Hc].
        exists c. exact Hc.
      * cbn [result calls]. intros H. injection H as ->.
        exists (Call_Text i). reflexivity.
      * discriminate.
    + cbn [calls result]. intros H. injection H as ->.
      exists (Call_Images names). reflexivity.
    + discriminate.
  - intros e He. rewrite Hrun, He. reflexivity.
  - intros allImages pre i post e Hall Himg Hpages Hpre Hi.
    rewrite Hrun, Hall.
    apply images_loop_true in Himg. rewrite Himg.
    rewrite Hpages, (text_loop_app d pre (i :: post) n Hpre).
    cbn [result next calls]. rewrite text_loop_cons, Hi. reflexivity.
Qed.

(** *** [getImageOnPage] *)

(** The run of [getImageOnPage] once the collaborator has returned one
    page entry whose first image is [img]. *)
Lemma getImageOnPage_first (d : Document) (pageIdx : Z) (n : N)
  (k : Z) (img : model.Image) (others : imageMap) :
  let name := Sprintf_d (int_add pageIdx 1) in
  pdfapi_ExtractImagesRaw (reader d) [name] = Ok [(k, img) :: others] ->
  getImageOnPage d pageIdx n =
  match model.Reader img with
  | None => MkRun (Err (noImage pageIdx)) n [(Call_ExtractImagesRaw [name], None)]
  | Some r =>
      match io.ReadAll r with
      | Ok raw =>
          match cimg_Decompress raw with
          | Ok b =>
              MkRun (Ok (raw, cimg.MkImage n (cimg.bm_Width b)
                                (cimg.bm_Height b) (cimg.bm_Format b)
                                (cimg.bm_Pixels b)))
                (N.succ n)
                [(Call_ExtractImagesRaw [name], None); (Call_ReadAll, None);
                 (Call_Decompress, None)]
          | Err e =>
              MkRun (Err e) n
                [(Call_ExtractImagesRaw [name], None); (Call_ReadAll, None);
                 (Call_Decompress, Some e)]
          | Panic msg =>
              MkRun (Panic msg) n
                [(Call_ExtractImagesRaw [name], None); (Call_ReadAll, None);
                 (Call_Decompress, None)]
          end
      | Err e =>
          MkRun (Err e) n
            [(Call_ExtractImagesRaw [name], None); (Call_ReadAll, Some e)]
      | Panic msg =>
          MkRun (Panic msg) n
            [(Call_ExtractImagesRaw [name], None); (Call_ReadAll, None)]
      end
  end.
Proof.
  intros name Hex. unfold getImageOnPage. fold name.
  unfold Decompress, new_Image, bind, invoke, ret, fail, noImage.
  rewrite Hex. cbn [result next calls len List.length Z.of_nat].
  cbn [Z.eqb Pos.of_succ_nat Pos.eqb negb].
  destruct (model.Reader img) as [r|]; [|reflexivity].
  cbn [result next calls].
  destruct (io.ReadAll r) as [raw|e|msg]; try reflexivity.
  cbn [result next calls].
  destruct (cimg_Decompress raw) as [b|e|msg]; reflexivity.
Qed.

Lemma getImageOnPage_collaborator_error (d : Document) (pageIdx : Z) (n : N)
  (e : error) :
  pdfapi_ExtractImagesRaw (reader d) [Sprintf_d (int_add pageIdx 1)] = Err e ->
  result (getImageOnPage d pageIdx n) = Err e.
Proof.
  intros He. unfold getImageOnPage, bind, invoke. rewrite He. reflexivity.
Qed.

(** C6 (amended).  [getImageOnPage] returns an error when the extraction
    collaborator fails, when the collaborator returns a number of page
    entries other than 1, when the page entry holds no image, and when
    the image it takes, the first one the iteration over the page entry
    visits, has no reader, cannot be read or cannot be decoded; otherwise
    it returns the raw bytes of that image and the decoded image.  More
    than one image in the page entry is no error. *)
Theorem getImageOnPage_outcome (d : Document) (pageIdx : Z) (n : N) :
  let name := Sprintf_d (int_add pageIdx 1) in
  (forall e,
     pdfapi_ExtractImagesRaw (reader d) [name] = Err e ->
     result (getImageOnPage d pageIdx n) = Err e)
  /\ (forall images,
        pdfapi_ExtractImagesRaw (reader d) [name] = Ok images ->
        len images <> 1 ->
        result (getImageOnPage d pageIdx n)
        = Err ("ExtractImagesRaw returned an unexpected number of results ("
               ++ Sprintf_d (len images) ++ ") on page "
               ++ Sprintf_d (int_add pageIdx 1)))
  /\ (pdfapi_ExtractImagesRaw (reader d) [name] = Ok [[]] ->
      result (getImageOnPage d pageIdx n) = Err (noImage pageIdx))
  /\ (forall k img others,
        pdfapi_ExtractImagesRaw (reader d) [name] = Ok [(k, img) :: others] ->
        result (getImageOnPage d pageIdx n)
        = match model.Reader img with
          | None => Err (noImage pageIdx)
          | Some r =>
              match io.ReadAll r with
              | Ok raw =>
                  match cimg_Decompress raw with
                  | Ok b =>
                      Ok (raw, cimg.MkImage n (cimg.bm_Width b)
                                 (cimg.bm_Height b) (cimg.bm_Format b)
                                 (cimg.bm_Pixels b))
                  | Err e => Err e
                  | Panic msg => Panic msg
                  end
              | Err e => Err e
              | Panic msg => Panic msg
              end
          end).
Proof.
  intros name. split; [|split; [|split]].
  - intros e He. apply getImageOnPage_collaborator_error. exact He.
  - intros images Him Hlen. unfold getImageOnPage. fold name.
    unfold bind, invoke, fail. rewrite Him. cbn [result next calls].
    apply Z.eqb_neq in Hlen. rewrite Hlen. reflexivity.
  - intros Him. unfold getImageOnPage. fold name.
    unfold bind, invoke, fail. rewrite Him. reflexivity.
  - intros k img others Him.
    rewrite (getImageOnPage_first d pageIdx n k img others Him).
    destruct (model.Reader img) as [r|]; [|reflexivity].
    destruct (io.ReadAll r) as [raw|e|msg]; try reflexivity.
    destruct (cimg_Decompress raw) as [b|e|msg]; reflexivity.
Qed.

(** *** [NewDocumentFromFile] *)

(** C9.  When the rendering engine opens the file and [os.Open] fails,
    [NewDocumentFromFile] returns a document and no error; the document's
    reader is the nil file.  The error of [os.Open] is gone: it surfaces
    only when a later call hands the nil file to pdfcpu, and whatever
    error pdfcpu then returns is the error of [getImageOnPage], for every
    page, and of [IsScanned]. *)
Theorem NewDocumentFromFile_drops_open_error (filename : string)
  (fz0 : fitz_Document) (e : error) :
  fitz_New filename = Ok fz0 ->
  os_Open filename = Err e ->
  exists d : Document,
    NewDocumentFromFile filename = Ok d
    /\ fz d = fz0
    /\ reader d = FileReader None
    /\ NumPages d = fitz_NumPage fz0
    /\ (forall pageIdx n e',
          pdfapi_ExtractImagesRaw (FileReader None)
            [Sprintf_d (int_add pageIdx 1)] = Err e' ->
          result (getImageOnPage d pageIdx n) = Err e')
    /\ (forall n e',
          pdfapi_Images (FileReader None)
            (map (fun i => Sprintf_d (int_add i 1))
               (range_int (fitz_NumPage fz0))) = Err e' ->
          result (IsScanned d n) = Err e').
Proof.
  intros Hfz Hopen.
  exists (MkDocument fz0 (FileReader None) (fitz_NumPage fz0) false).
  split.
  - unfold NewDocumentFromFile, newDocument. rewrite Hfz, Hopen. reflexivity.
  - repeat split.
    + intros pageIdx n e' He'.
      apply getImageOnPage_collaborator_error. exact He'.
    + intros n e' He'.
      pose proof (IsScanned_run
                    (MkDocument fz0 (FileReader None) (fitz_NumPage fz0) false)
                    n) as Hrun.
      cbv zeta in Hrun. cbn [fz reader] in Hrun. rewrite He' in Hrun.
      rewrite Hrun. reflexivity.
Qed.

(** *** The page loop of [StraightenedImages] *)

(** [getImageOnPage] does the same from every state of the allocator; the
    image it returns lives at the first free address. *)
Lemma getImageOnPage_shift (d : Document) (pageIdx : Z) (n n' : N) :
  match result (getImageOnPage d pageIdx n) with
  | Ok (raw, img) =>
      cimg.addr img = n
      /\ next (getImageOnPage d pageIdx n) = N.succ n
      /\ result (getImageOnPage d pageIdx n') = Ok (raw, at_addr img n')
  | Err e => result (getImageOnPage d pageIdx n') = Err e
  | Panic msg => result (getImageOnPage d pageIdx n') = Panic msg
  end.
Proof.
  unfold getImageOnPage, Decompress, new_Image, bind, invoke, ret, fail, panic.
  cbn [result next calls].
  destruct (pdfapi_ExtractImagesRaw (reader d) _) as [images|e|msg];
    [|reflexivity|reflexivity].
  destruct (negb (len images =? 1)); [reflexivity|].
  destruct images as [|m rest]; [reflexivity|].
  destruct m as [|[k img] others]; [reflexivity|].
  destruct (model.Reader img) as [r|]; [|reflexivity].
  cbn [result next calls].
  destruct (io.ReadAll r) as [raw|e|msg]; [|reflexivity|reflexivity].
  cbn [result next calls].
  destruct (cimg_Decompress raw) as [b|e|msg]; [|reflexivity|reflexivity].
  cbn [result next calls]. repeat split.
Qed.

Lemma rotated_bitmap (img img' : cimg.Image) (angle : float64) (n n' : N) :
  cimg.bitmap img = cimg.bitmap img' ->
  cimg.bitmap (rotated img angle n) = cimg.bitmap (rotated img' angle n').
Proof.
  destruct img as [a w h f px], img' as [a' w' h' f' px'].
  unfold cimg.bitmap. cbn [cimg.Width cimg.Height cimg.Format cimg.Pixels].
  intros H. injection H as -> -> -> ->.
  unfold rotated, rotateImage_size.
  cbn [cimg.Width cimg.Height cimg.Format cimg.Pixels cimg.bitmap].
  repeat match goal with
         | |- context [if ?c then _ else _] => destruct c
         end; reflexivity.
Qed.

(** The result of [straightenImage] depends on the content of the image
    only, not on where the image lives nor on the state of the allocator,
    as long as the image was allocated before the call. *)
Lemma straightenImage_result_indep (d : Document) (orient : textorient_Orient)
  (raw : bytes) (img img' : cimg.Image) (angle : float64) (n n' : N) :
  cimg.bitmap img = cimg.bitmap img' ->
  (cimg.addr img < n)%N -> (cimg.addr img' < n')%N ->
  result (straightenImage d orient raw img angle n)
  = result (straightenImage d orient raw img' angle n').
Proof.
  intros Hb Hlt Hlt'.
  destruct (angle =? 0)%float eqn:Hz.
  - rewrite !(straightenImage_zero_run _ _ _ _ _ _ Hz), <- Hb.
    assert (Hn : (n =? cimg.addr img)%N = false) by (apply N.eqb_neq; lia).
    assert (Hn' : (n' =? cimg.addr img')%N = false)
      by (apply N.eqb_neq; lia).
    destruct (textorient_upright orient (cimg.bitmap img)) as [[|b]|e|msg];
      try reflexivity.
    rewrite Hn, Hn'. reflexivity.
  - pose proof (straightenImage_nonzero_run d orient raw img angle n Hz Hlt)
      as H.
    pose proof (straightenImage_nonzero_run d orient raw img' angle n' Hz Hlt')
      as H'.
    cbv zeta in H, H'. rewrite H, H'. clear H H'.
    rewrite (rotated_bitmap img img' (- angle)%float n n' Hb).
    destruct (textorient_upright orient
                (cimg.bitmap (rotated img' (- angle)%float n')))
      as [[|b]|e|msg]; reflexivity.
Qed.

Lemma index_run {A} (l : list A) (i : Z) (n : N) :
  index l i n =
  MkRun (match lookup l i with
         | Some a => Ok a
         | None => Panic (outOfRange l i)
         end) n [].
Proof.
  unfold index, ret, panic. destruct (lookup l i); reflexivity.
Qed.

Lemma straightenPage_result (d : Document) (orient : textorient_Orient)
  (pageAngles : list float64) (page : Z) (n : N) :
  result (straightenPage d orient pageAngles page n) =
  match result (getImageOnPage d page n) with
  | Ok (raw, img) =>
      match lookup pageAngles page with
      | Some angle =>
          result (straightenImage d orient raw img angle
                    (next (getImageOnPage d page n)))
      | None => Panic (outOfRange pageAngles page)
      end
  | Err e => Err e
  | Panic msg => Panic msg
  end.
Proof.
  unfold straightenPage, bind.
  destruct (result (getImageOnPage d page n)) as [[raw img]|e|msg];
    try reflexivity.
  cbn [result]. rewrite index_run. cbn [result next].
  destruct (lookup pageAngles page); reflexivity.
Qed.

(** The loop body does the same from every state of the allocator. *)
Lemma straightenPage_result_indep (d : Document) (orient : textorient_Orient)
  (pageAngles : list float64) (page : Z) (n n' : N) :
  result (straightenPage d orient pageAngles page n)
  = result (straightenPage d orient pageAngles page n').
Proof.
  rewrite !straightenPage_result.
  pose proof (getImageOnPage_shift d page n n') as Hs.
  pose proof (getImageOnPage_shift d page n' n') as Hs'.
  destruct (result (getImageOnPage d page n)) as [[raw img]|e|msg].
  - destruct Hs as (Haddr & Hnext & Hg').
    rewrite Hg' in Hs' |- *. destruct Hs' as (_ & Hnext' & _).
    rewrite Hnext, Hnext'.
    destruct (lookup pageAngles page) as [angle|]; [|reflexivity].
    apply straightenImage_result_indep.
    + destruct img; reflexivity.
    + lia.
    + cbn [at_addr cimg.addr]. lia.
  - rewrite Hs. reflexivity.
  - rewrite Hs. reflexivity.
Qed.

Lemma collect_Ok (f : Z -> outcome bytes) (pages : list Z)
  (outs : list bytes) :
  collect f pages = Ok outs <->
  Forall2 (fun page out => f page = Ok out) pages outs.
Proof.
  revert outs. induction pages as [|page rest IH]; intros outs.
  - cbn [collect]. split.
    + intros H. injection H as <-. constructor.
    + intros H. inversion H. reflexivity.
  - cbn [collect]. split.
    + destruct (f page) as [out|e|msg] eqn:Hf; try discriminate.
      destruct (collect f rest) as [outs'|e|msg]; try discriminate.
      intros H. injection H as <-.
      constructor; [exact Hf|apply IH; reflexivity].
    + intros H. inversion H as [|? out ? outs' Hf Hrest]; subst.
      rewrite Hf. apply IH in Hrest. rewrite Hrest. reflexivity.
Qed.

Lemma collect_app (f : Z -> outcome bytes) (pre rest : list Z) :
  collect f (pre ++ rest) =
  match collect f pre with
  | Ok outs =>
      match collect f rest with
      | Ok outs' => Ok (outs ++ outs')%list
      | Err e => Err e
      | Panic msg => Panic msg
      end
  | Err e => Err e
  | Panic msg => Panic msg
  end.
Proof.
  induction pre as [|page pre IH]; cbn [app collect].
  - destruct (collect f rest); reflexivity.
  - destruct (f page) as [out|e|msg]; try reflexivity.
    rewrite IH. destruct (collect f pre) as [outs|e|msg]; try reflexivity.
    destruct (collect f rest); reflexivity.
Qed.

(** The loop of [StraightenedImages] appends the outputs of its pages, in
    order, and stops at the first page that fails. *)
Lemma StraightenedImages_loop_result (d : Document)
  (orient : textorient_Orient) (pageAngles : list float64)
  (pages : list Z) (straightImages : list bytes) (n : N) :
  result (StraightenedImages_loop d orient pageAngles pages straightImages n) =
  match collect (fun page => result (straightenPage d orient pageAngles page 0%N))
          pages with
  | Ok outs => Ok (straightImages ++ outs)%list
  | Err e => Err e
  | Panic msg => Panic msg
  end.
Proof.
  revert straightImages n.
  induction pages as [|page rest IH]; intros acc n.
  - cbn [StraightenedImages_loop collect]. rewrite app_nil_r. reflexivity.
  - cbn [StraightenedImages_loop collect].
    rewrite <- (straightenPage_result_indep d orient pageAngles page n 0%N).
    unfold bind.
    destruct (result (straightenPage d orient pageAngles page n))
      as [out|e|msg]; try reflexivity.
    cbn [result]. rewrite IH.
    destruct (collect _ rest) as [outs|e|msg]; try reflexivity.
    rewrite <- app_assoc. reflexivity.
Qed.

Lemma range_int_nth (k page : Z) :
  0 <= page < k -> nth_error (range_int k) (Z.to_nat page) = Some page.
Proof.
  intros H. unfold range_int.
  rewrite nth_error_map, nth_error_seq.
  destruct (Z.to_nat page <? Z.to_nat k)%nat eqn:Hlt.
  - cbn [option_map]. f_equal. lia.
  - apply Nat.ltb_ge in Hlt. lia.
Qed.

Lemma range_int_split (k m : Z) :
  0 <= k < m ->
  exists rest, range_int m = (range_int k ++ k :: rest)%list.
Proof.
  intros H. unfold range_int.
  replace (Z.to_nat m) with (Z.to_nat k + S (Z.to_nat m - S (Z.to_nat k)))%nat
    by lia.
  rewrite seq_app, map_app. cbn [seq map Nat.add].
  rewrite Z2Nat.id by lia. eexists. reflexivity.
Qed.

Lemma Forall2_nth_error_l {A B} (P : A -> B -> Prop) (l : list A)
  (l' : list B) (i : nat) (a : A) :
  Forall2 P l l' -> nth_error l i = Some a ->
  exists b, nth_error l' i = Some b /\ P a b.
Proof.
  intros H. revert i. induction H as [|x y l l' Hxy _ IH]; intros i.
  - destruct i; discriminate.
  - destruct i as [|i]; cbn [nth_error].
    + intros Heq. injection Heq as <-. exists y. split; [reflexivity|exact Hxy].
    + apply IH.
Qed.

Lemma buildNewPDF_result (d : Document) (images : list bytes) (n : N) :
  result (buildNewPDF d images n) = pdfapi_ImportImages images importConfig.
Proof.
  unfold buildNewPDF, invoke, importConfig. cbn [result pdfcpu.Scale pdfcpu.Pos
    pdfcpu.defaults].
  rewrite map_id. reflexivity.
Qed.

Lemma Straighten_result (d : Document) (orient : textorient_Orient)
  (pageAngles : list float64) (n : N) :
  result (Straighten d orient pageAngles n) =
  match result (StraightenedImages d orient pageAngles n) with
  | Ok straightImages => pdfapi_ImportImages straightImages importConfig
  | Err e => Err e
  | Panic msg => Panic msg
  end.
Proof.
  unfold Straighten, bind.
  destruct (result (StraightenedImages d orient pageAngles n));
    try reflexivity.
  cbn [result]. apply buildNewPDF_result.
Qed.

(** [StraightenedImages] returns exactly when every page yields an output,
    and then returns those outputs. *)
Lemma StraightenedImages_Ok (d : Document) (orient : textorient_Orient)
  (pageAngles : list float64) (n : N) (outs : list bytes) :
  result (StraightenedImages d orient pageAngles n) = Ok outs <->
  Forall2 (fun page out =>
             result (straightenPage d orient pageAngles page 0%N) = Ok out)
    (range_int (NumPages d)) outs.
Proof.
  unfold StraightenedImages. rewrite StraightenedImages_loop_result.
  rewrite <- collect_Ok.
  destruct (collect _ (range_int (NumPages d))) as [outs'|e|msg];
    cbn [app]; split; congruence.
Qed.


(** C10.  The loop body reads [pageAngles[page]] for every page from 0 to
    [NumPages - 1] with no check of its own.  When [pageAngles] has at
    least [NumPages] entries every such read succeeds.  When it has fewer,
    and the pages before the missing entry yield their outputs and the
    image of the page of the missing entry is obtained, the read is out of
    range: [StraightenedImages] and [Straighten] end in a run-time panic,
    not in a returned error. *)
Theorem pageAngles_index_unchecked (d : Document)
  (orient : textorient_Orient) (pageAngles : list float64) (n : N) :
  (NumPages d <= len pageAngles ->
   forall page, In page (range_int (NumPages d)) ->
     exists angle,
       nth_error pageAngles (Z.to_nat page) = Some angle
       /\ index pageAngles page n = MkRun (Ok angle) n [])
  /\ (len pageAngles < NumPages d ->
      (forall page, 0 <= page < len pageAngles ->
         exists out,
           result (straightenPage d orient pageAngles page 0%N) = Ok out) ->
      (exists raw img,
         result (getImageOnPage d (len pageAngles) 0%N) = Ok (raw, img)) ->
      result (StraightenedImages d orient pageAngles n)
      = Panic (outOfRange pageAngles (len pageAngles))
      /\ result (Straighten d orient pageAngles n)
         = Panic (outOfRange pageAngles (len pageAngles))
      /\ forall e,
           result (StraightenedImages d orient pageAngles n) <> Err e).
Proof.
  split.
  - intros Hlen page Hin. apply range_int_In in Hin.
    destruct (nth_error pageAngles (Z.to_nat page)) as [angle|] eqn:Hnth.
    + exists angle. split; [reflexivity|].
      rewrite index_run. unfold lookup.
      destruct (page <? 0) eqn:Hneg; [apply Z.ltb_lt in Hneg; lia|].
      rewrite Hnth. reflexivity.
    + apply nth_error_None in Hnth. unfold len in Hlen. lia.
  - intros Hshort Hbefore (raw & img & Himg).
    assert (Hk : 0 <= len pageAngles < NumPages d) by (unfold len in *; lia).
    destruct (range_int_split _ _ Hk) as [rest Hsplit].
    assert (Hpre : exists outs,
               collect (fun page =>
                          result (straightenPage d orient pageAngles page 0%N))
                 (range_int (len pageAngles)) = Ok outs).
    { assert (Hall : forall page, In page (range_int (len pageAngles)) ->
                 exists out,
                   result (straightenPage d orient pageAngles page 0%N)
                   = Ok out).
      { intros page Hin. apply Hbefore. apply range_int_In. exact Hin. }
      clear Hsplit. induction (range_int (len pageAngles)) as [|p ps IH].
      - exists []. reflexivity.
      - destruct (Hall p (or_introl eq_refl)) as [out Hout].
        destruct IH as [outs Houts];
          [intros q Hq; apply Hall; right; exact Hq|].
        exists (out :: outs). cbn [collect]. rewrite Hout, Houts.
        reflexivity. }
    destruct Hpre as [outs Houts].
    assert (Hmiss : result (straightenPage d orient pageAngles
                              (len pageAngles) 0%N)
                    = Panic (outOfRange pageAngles (len pageAngles))).
    { rewrite straightenPage_result, Himg.
      unfold lookup.
      destruct (len pageAngles <? 0) eqn:Hneg; [reflexivity|].
      assert (Hnone : nth_error pageAngles (Z.to_nat (len pageAngles)) = None)
        by (apply nth_error_None; unfold len; lia).
      rewrite Hnone. reflexivity. }
    assert (Hrun : result (StraightenedImages d orient pageAngles n)
                   = Panic (outOfRange pageAngles (len pageAngles))).
    { unfold StraightenedImages.
      rewrite StraightenedImages_loop_result, Hsplit, collect_app, Houts.
      cbn [collect]. rewrite Hmiss. reflexivity. }
    split; [exact Hrun|]. split.
    + rewrite Straighten_result, Hrun. reflexivity.
    + intros e. rewrite Hrun. discriminate.
Qed.

(** *** The earliest revision *)

(** In the earliest revision an angle of exactly 0 is a pass-through
    with no condition: the raw bytes come back and no collaborator is
    called. *)
Lemma straightenImage_v1_zero_angle (d : Document) (raw : bytes)
  (img : cimg.Image) (angle : float64) (n : N) :
  (angle =? 0)%float = true ->
  straightenImage_v1 d raw img angle n = MkRun (Ok raw) n [].
Proof.
  intros Hz. unfold straightenImage_v1. rewrite Hz. reflexivity.
Qed.


End Properties.

(** *** The angle loop of the driver *)

Lemma normalizeAngles_fst (allow90Degrees : bool) (angles : list float64) :
  fst (normalizeAngles allow90Degrees angles)
  = map (normalizeAngle allow90Degrees) angles.
Proof.
  induction angles as [|a rest IH]; [reflexivity|].
  cbn [normalizeAngles map].
  destruct (normalizeAngles allow90Degrees rest) as [rest' nRotated].
  cbn [fst] in *. rewrite IH. reflexivity.
Qed.

Lemma normalizeAngle_allowed (a : float64) : normalizeAngle true a = a.
Proof.
  unfold normalizeAngle. cbn [negb andb].
  destruct (negb (a =? 0)%float); reflexivity.
Qed.

Lemma main_angles_fst (angles : list float64) :
  fst (main_angles angles) = angles.
Proof.
  unfold main_angles, main_allow90Degrees. rewrite normalizeAngles_fst.
  induction angles as [|x rest IH]; [reflexivity|].
  cbn [map]. rewrite normalizeAngle_allowed, IH. reflexivity.
Qed.

(** C2 (amended).  The loop of [main] replaces an angle [a] with
    80 < a < 100 by [a - 90] only when [allow90Degrees] is false; an angle
    with a <= 80 or a >= 100 is left as it is.  The driver sets
    [allow90Degrees] to true, so that it leaves every angle as the
    resolver returned it, those between 80 and 100 included: the angles
    [main] goes on with are the angles [PageAngles] returned. *)
Theorem normalizeAngle_by_switch (allow90Degrees : bool) (a : float64) :
  (allow90Degrees = false ->
   (80 <? a)%float = true -> (a <? 100)%float = true ->
   normalizeAngle allow90Degrees a = (a - 90)%float)
  /\ ((a <=? 80)%float = true \/ (100 <=? a)%float = true ->
      normalizeAngle allow90Degrees a = a)
  /\ (allow90Degrees = true -> normalizeAngle allow90Degrees a = a)
  /\ normalizeAngle main_allow90Degrees a = a
  /\ (forall angles, fst (main_angles angles) = angles)
  /\ (forall (C : Collaborators) (doc : Document) (n : N) angles,
        result (PageAngles doc main_maxAngle true n) = Ok angles ->
        exists nRotated,
          result (main_resolve doc n) = Ok (angles, nRotated)).
Proof.
  split; [|split; [|split; [|split; [|split]]]].
  - intros -> Hlo Hhi. unfold normalizeAngle.
    rewrite (above_80_nonzero a Hlo), Hlo, Hhi. reflexivity.
  - intros H. unfold normalizeAngle.
    assert (Hout : ((80 <? a) && (a <? 100))%float = false).
    { destruct H as [H|H]; apply leb_not_ltb in H; rewrite H.
      - reflexivity.
      - apply andb_false_r. }
    rewrite Hout, andb_false_r.
    destruct (negb (a =? 0)%float); reflexivity.
  - intros ->. apply normalizeAngle_allowed.
  - apply normalizeAngle_allowed.
  - apply main_angles_fst.
  - intros C doc n angles Hangles. exists (snd (main_angles angles)).
    unfold main_resolve. rewrite (bind_Ok _ _ n angles Hangles).
    cbn [result ret]. rewrite <- (main_angles_fst angles) at 2.
    destruct (main_angles angles); reflexivity.
Qed.

(** X1.  The earlier revision of the driver has no [allow90Degrees]:
    there the normalization is what the specification describes. *)
Lemma normalizeAngle_v1_spec (a : float64) :
  ((80 <? a)%float = true -> (a <? 100)%float = true ->
   normalizeAngle_v1 a = (a - 90)%float)
  /\ ((a <=? 80)%float = true \/ (100 <=? a)%float = true ->
      normalizeAngle_v1 a = a).
Proof.
  split.
  - intros Hlo Hhi. unfold normalizeAngle_v1.
    rewrite (above_80_nonzero a Hlo), Hlo, Hhi. reflexivity.
  - intros H. unfold normalizeAngle_v1.
    assert (Hout : ((80 <? a) && (a <? 100))%float = false).
    { destruct H as [H|H]; apply leb_not_ltb in H; rewrite H.
      - reflexivity.
      - apply andb_false_r. }
    rewrite Hout. destruct (negb (a =? 0)%float); reflexivity.
Qed.

(** C2, counterexample.  An estimate of 91 degrees lies strictly between
    80 and 100, and the driver keeps it: the angles [0, 91, 0] stay
    [0, 91, 0] and do not become [0, 1, 0]. *)
Lemma main_keeps_quarter_turn :
  (80 <? 91)%float = true /\ (91 <? 100)%float = true
  /\ main_angles [0; 91; 0]%float = ([0; 91; 0]%float, 1)
  /\ normalizeAngle main_allow90Degrees 91%float <> (91 - 90)%float.
Proof.
  repeat split.
  intros H.
  assert (Heq : (normalizeAngle main_allow90Degrees 91%float =? 91 - 90)%float
                = true)
    by (rewrite H; reflexivity).
  vm_compute in Heq. discriminate.
Qed.

(** ** The package at work in the sample world *)

(** C1, counterexample.  Page 2 of the sample scan is upside down.  Its
    angle is 0, yet [straightenImage] does not return its raw bytes: it
    returns the page turned upright and encoded again. *)
Lemma straightenImage_zero_angle_reencodes :
  result (@getImageOnPage Sample.world Sample.scan 1 0%N)
  = Ok (Sample.rawF, Sample.imgF)
  /\ result (@straightenImage Sample.world Sample.scan tt Sample.rawF
               Sample.imgF 0%float 1%N)
     = Ok Sample.againF
  /\ Sample.againF <> Sample.rawF
  /\ In (Call_Compress (cimg.MakeCompressParams cimg.Sampling444 95 0))
       (map fst (calls (@straightenImage Sample.world Sample.scan tt
                          Sample.rawF Sample.imgF 0%float 1%N))).
Proof.
  split; [vm_compute; reflexivity|].
  split; [vm_compute; reflexivity|].
  split; [discriminate|].
  vm_compute. right. left. reflexivity.
Qed.

Lemma straightenImage_zero_angle_witness :
  (0 =? 0)%float = true
  /\ @straightenImage Sample.world Sample.scan tt Sample.rawA Sample.imgA
       0%float 1%N
     = MkRun (Ok Sample.rawA) 1%N [(Call_MakeUpright, None)].
Proof.
  split; [reflexivity|].
  apply (proj1 (@straightenImage_zero_angle Sample.world Sample.scan tt
                  Sample.rawA Sample.imgA 0%float 1%N eq_refl)).
  reflexivity.
Defined.

Lemma straightenImage_nonzero_angle_witness :
  (1 =? 0)%float = false
  /\ (cimg.addr Sample.imgA < 1)%N
  /\ result (@straightenImage Sample.world Sample.scan tt Sample.rawA
               Sample.imgA 1%float 1%N)
     = Ok Sample.againA
  /\ Sample.againA <> Sample.rawA.
Proof.
  split; [reflexivity|]. split; [reflexivity|]. split; [|discriminate].
  rewrite (proj1 (proj2 (@straightenImage_nonzero_angle Sample.world
                           Sample.scan tt Sample.rawA Sample.imgA 1%float 1%N
                           eq_refl eq_refl))).
  reflexivity.
Defined.

Lemma normalizeAngle_by_switch_witness :
  (80 <? 91)%float = true /\ (91 <? 100)%float = true
  /\ normalizeAngle false 91%float = (91 - 90)%float
  /\ normalizeAngle main_allow90Degrees 91%float = 91%float.
Proof.
  split; [reflexivity|]. split; [reflexivity|]. split.
  - apply (proj1 (normalizeAngle_by_switch false 91%float));
      reflexivity.
  - apply (proj1 (proj2 (proj2 (proj2
             (normalizeAngle_by_switch main_allow90Degrees 91%float))))).
Defined.

(** A page of 1000 x 2000 turned by 30 degrees needs 1866 x 2232; turned
    by -1 degree it keeps its canvas, and by -89 degrees it swaps it. *)
Lemma rotateImage_canvas_witness :
  exists fixed : cimg.Image,
    result (@rotateImage Sample.world Sample.scan
              (cimg.MkImage 0 1000 2000 0 []) 30%float 1%N) = Ok fixed
    /\ (cimg.Width fixed, cimg.Height fixed) = (1866, 2232)
    /\ @boundingBox Sample.world 1000 2000 30%float = (1866, 2232).
Proof.
  destruct (@rotateImage_canvas Sample.world Sample.scan
              (cimg.MkImage 0 1000 2000 0 []) 30%float 1%N)
    as (fixed & Hrun & _ & _ & _ & Hbox).
  exists fixed. split; [exact Hrun|].
  split; [|vm_compute; reflexivity].
  rewrite Hbox; [vm_compute; reflexivity| reflexivity | reflexivity
                | discriminate | discriminate].
Defined.

Example rotateImage_size_small :
  @rotateImage_size Sample.world (cimg.MkImage 0 1000 2000 0 []) (-1)%float
  = (1000, 2000).
Proof. vm_compute. reflexivity. Qed.

Example rotateImage_size_quarter :
  @rotateImage_size Sample.world (cimg.MkImage 0 1000 2000 0 []) (-89)%float
  = (2000, 1000).
Proof. vm_compute. reflexivity. Qed.

(** The sample listing answers with one entry per page.  The sample
    letter has text on its second page: [IsScanned] stops there, and
    never asks for the text of the third page. *)
Lemma IsScanned_classifies_witness :
  (forall allImages,
     @pdfapi_Images Sample.world (reader Sample.letter) ["1"; "2"; "3"]
     = Ok allImages ->
     len allImages = 3)
  /\ @IsScanned Sample.world Sample.letter 0%N
     = MkRun (Ok false) 0%N
         [(Call_Images ["1"; "2"; "3"], None); (Call_Text 0, None);
          (Call_Text 1, None)].
Proof.
  assert (Hcontract : forall allImages,
             @pdfapi_Images Sample.world (reader Sample.letter)
               ["1"; "2"; "3"] = Ok allImages ->
             len allImages = 3).
  { intros allImages H. vm_compute in H. injection H as <-. reflexivity. }
  split; [exact Hcontract|].
  apply (proj2 (proj2 (@IsScanned_classifies Sample.world Sample.letter 0%N
                         Hcontract))
           (map Sample.images
              [Sample.pageA; Sample.pageText; Sample.pageTextFails])
           [0] 1 [2] "Dear Sir").
  - reflexivity.
  - intros j [<-|[<-|[<-|[]]]]; eexists; (split; [reflexivity|]);
      (split; [reflexivity|]);
      intros k img [H|[]]; injection H as <- <-; vm_compute; discriminate.
  - reflexivity.
  - repeat constructor.
  - reflexivity.
  - discriminate.
Defined.

(** A page without image makes a document not scanned when the listing
    has an entry for it... *)
Example IsScanned_blank_page :
  result (@IsScanned Sample.world
            (Sample.document [Sample.pageA; Sample.pageEmpty]) 0%N)
  = Ok false.
Proof. vm_compute. reflexivity. Qed.

(** ... and goes unnoticed when the listing leaves out the pages without
    image: the listing then has one entry for two pages, and [IsScanned]
    looks at the entries. *)
Example IsScanned_blank_page_left_out :
  @pdfapi_Images SampleShell.sparse (reader SampleShell.withBlank) ["1"; "2"]
  = Ok [Sample.images Sample.pageA]
  /\ result (@IsScanned SampleShell.sparse SampleShell.withBlank 0%N)
     = Ok true.
Proof. vm_compute. split; reflexivity. Qed.

Example IsScanned_scan :
  result (@IsScanned Sample.world Sample.scan 0%N) = Ok true.
Proof. vm_compute. reflexivity. Qed.

Example IsScanned_logo :
  result (@IsScanned Sample.world
            (Sample.document [Sample.pageA; Sample.pageLogo]) 0%N) = Ok false.
Proof. vm_compute. reflexivity. Qed.

(** A page whose text cannot be extracted: the error of the extraction is
    the error of [IsScanned]. *)
Lemma IsScanned_propagates_errors_witness :
  @IsScanned Sample.world
    (Sample.document [Sample.pageA; Sample.pageTextFails; Sample.pageText]) 0%N
  = MkRun (Err "fitz: cannot extract text") 0%N
      [(Call_Images ["1"; "2"; "3"], None); (Call_Text 0, None);
       (Call_Text 1, Some "fitz: cannot extract text")].
Proof.
  apply (proj2 (proj2 (proj2
           (@IsScanned_propagates_errors Sample.world
              (Sample.document
                 [Sample.pageA; Sample.pageTextFails; Sample.pageText]) 0%N)))
           (map Sample.images
              [Sample.pageA; Sample.pageTextFails; Sample.pageText])
           [0] 1 [2] "fitz: cannot extract text").
  - reflexivity.
  - repeat constructor; intros k img [H|[]]; injection H as <- <-;
      vm_compute; discriminate.
  - reflexivity.
  - repeat constructor.
  - reflexivity.
Defined.

(** C6, counterexample.  The collaborator returns one page entry holding
    two images; [getImageOnPage] returns the first of them and no error. *)
Lemma getImageOnPage_two_images :
  @pdfapi_ExtractImagesRaw Sample.world
    (reader (Sample.document [Sample.pageTwo])) ["1"]
  = Ok [Sample.images Sample.pageTwo]
  /\ len (Sample.images Sample.pageTwo) = 2
  /\ result (@getImageOnPage Sample.world
               (Sample.document [Sample.pageTwo]) 0 0%N)
     = Ok (Sample.rawA, Sample.imgA).
Proof. repeat split. Qed.

Lemma getImageOnPage_outcome_witness :
  result (@getImageOnPage Sample.world Sample.scan 1 0%N)
  = Ok (Sample.rawF, Sample.imgF)
  /\ result (@getImageOnPage Sample.world
               (Sample.document [Sample.pageNoStream]) 0 0%N)
     = Err "No image found on page 1"
  /\ result (@getImageOnPage Sample.world
               (Sample.document [Sample.pageEmpty]) 0 7%N)
     = Err "No image found on page 1".
Proof.
  split; [|split].
  - rewrite (proj2 (proj2 (proj2
               (@getImageOnPage_outcome Sample.world Sample.scan 1 0%N)))
               7 (model.MkImage (Sample.stream Sample.rawF) 1000 800) []
               eq_refl).
    reflexivity.
  - rewrite (proj2 (proj2 (proj2
               (@getImageOnPage_outcome Sample.world
                  (Sample.document [Sample.pageNoStream]) 0 0%N)))
               7 (model.MkImage None 1000 800) [] eq_refl).
    reflexivity.
  - apply (proj1 (proj2 (proj2
             (@getImageOnPage_outcome Sample.world
                (Sample.document [Sample.pageEmpty]) 0 7%N)))).
    reflexivity.
Defined.

(** The file "locked.pdf" of the sample world opens in the rendering
    engine and not in the operating system. *)
Lemma NewDocumentFromFile_drops_open_error_witness :
  @fitz_New Sample.world "locked.pdf" = Ok [Sample.pageA]
  /\ @os_Open Sample.world "locked.pdf" = Err "open: permission denied"
  /\ exists d : @Document Sample.world,
       @NewDocumentFromFile Sample.world "locked.pdf" = Ok d
       /\ reader d = FileReader None
       /\ result (@getImageOnPage Sample.world d 0 0%N)
          = Err "invalid argument".
Proof.
  split; [reflexivity|]. split; [reflexivity|].
  destruct (@NewDocumentFromFile_drops_open_error Sample.world "locked.pdf"
              [Sample.pageA] "open: permission denied" eq_refl eq_refl)
    as (d & Hnew & _ & Hreader & _ & Hpage & _).
  exists d. split; [exact Hnew|]. split; [exact Hreader|].
  apply Hpage. reflexivity.
Defined.


(** Two angles for the three pages of the sample scan: the third page
    panics. *)
Lemma pageAngles_index_unchecked_witness :
  len [0; 1]%float < NumPages Sample.scan
  /\ result (@StraightenedImages Sample.world Sample.scan tt [0; 1]%float 0%N)
     = Panic "runtime error: index out of range [2] with length 2"
  /\ result (@Straighten Sample.world Sample.scan tt [0; 1]%float 0%N)
     = Panic "runtime error: index out of range [2] with length 2".
Proof.
  split; [reflexivity|].
  destruct (proj2 (@pageAngles_index_unchecked Sample.world Sample.scan tt
                     [0; 1]%float 0%N))
    as (Himages & Hpdf & _).
  - reflexivity.
  - intros page Hpage.
    assert (Hcases : page = 0 \/ page = 1) by (cbn in Hpage; lia).
    destruct Hcases as [-> | ->]; eexists; vm_compute; reflexivity.
  - eexists. eexists. vm_compute. reflexivity.
  - split; [exact Himages|exact Hpdf].
Defined.

(** An image that does not decode: the error of [cimg.Decompress] is the
    error of [getImageOnPage]. *)
Example getImageOnPage_undecodable :
  @getImageOnPage Sample.world (Sample.document [Sample.pageBad]) 0 0%N
  = MkRun (Err "cimg: cannot decode") 0%N
      [(Call_ExtractImagesRaw ["1"], None); (Call_ReadAll, None);
       (Call_Decompress, Some "cimg: cannot decode")].
Proof. vm_compute. reflexivity. Qed.

(** A page with two images is not a scanned page for [IsScanned]. *)
Example IsScanned_two_images :
  @IsScanned Sample.world (Sample.document [Sample.pageA; Sample.pageTwo]) 0%N
  = MkRun (Ok false) 0%N [(Call_Images ["1"; "2"], None)].
Proof. vm_compute. reflexivity. Qed.

(** The pixel count is a product of [int]s: for an image declared as
    2^32 x 2^32 it wraps around to 0. *)
Example IsScanned_wraps :
  int_mul (2 ^ 32) (2 ^ 32) = 0
  /\ result (@IsScanned Sample.world
               (Sample.document [Sample.pageA; Sample.pageHuge]) 0%N)
     = Ok false.
Proof. split; vm_compute; reflexivity. Qed.

(** The resolver on the sample scan, and what [main] makes of it. *)
Example main_resolve_scan :
  result (@main_resolve Sample.world Sample.scan 0%N)
  = Ok ([0; 0; 0]%float, 0).
Proof. vm_compute. reflexivity. Qed.

Lemma straightenImage_v1_zero_angle_witness :
  (0 =? 0)%float = true
  /\ @straightenImage_v1 Sample.world Sample.scan Sample.rawF Sample.imgF
       0%float 1%N
     = MkRun (Ok Sample.rawF) 1%N [].
Proof.
  split; [reflexivity|].
  apply (@straightenImage_v1_zero_angle Sample.world). reflexivity.
Defined.

(** ** Further properties of the package *)

Section Resolving.

Context {C : Collaborators}.

Lemma gather_Ok {A} (f : Z -> outcome A) (pages : list Z) (l : list A) :
  gather f pages = Ok l <-> Forall2 (fun page a => f page = Ok a) pages l.
Proof.
  revert l. induction pages as [|page rest IH]; intros l; cbn [gather].
  - split.
    + intros H. injection H as <-. constructor.
    + intros H. inversion H. reflexivity.
  - split.
    + destruct (f page) as [a|e|msg] eqn:Hf; try discriminate.
      destruct (gather f rest) as [l'|e|msg]; try discriminate.
      intros H. injection H as <-.
      constructor; [exact Hf|apply IH; reflexivity].
    + intros H. inversion H as [|? a ? l' Hf Hrest]; subst.
      rewrite Hf. apply IH in Hrest. rewrite Hrest. reflexivity.
Qed.

Lemma gather_ext {A} (f g : Z -> outcome A) (pages : list Z) :
  (forall page, In page pages -> f page = g page) ->
  gather f pages = gather g pages.
Proof.
  induction pages as [|page rest IH]; intros H; cbn [gather]; [reflexivity|].
  rewrite (H page (or_introl eq_refl)).
  rewrite IH by (intros q Hq; apply H; right; exact Hq).
  reflexivity.
Qed.

Lemma collect_gather (f : Z -> outcome bytes) (pages : list Z) :
  collect f pages = gather f pages.
Proof.
  induction pages as [|page rest IH]; cbn [collect gather]; [reflexivity|].
  rewrite IH. reflexivity.
Qed.

(** [getImageAngle] always returns, after two calls. *)
Lemma getImageAngle_run (d : Document) (img : cimg.Image)
  (maxAngle : float64) (include90Degrees : bool) (n : N) :
  getImageAngle d img maxAngle include90Degrees n =
  MkRun (Ok (angleOf (cimg.bitmap img) maxAngle include90Degrees)) (N.succ n)
    [(Call_ToGray, None);
     (Call_GetAngleWhiteLines (window maxAngle include90Degrees), None)].
Proof. reflexivity. Qed.

Lemma bitmap_at_addr (img : cimg.Image) (n : N) :
  cimg.bitmap (at_addr img n) = cimg.bitmap img.
Proof. reflexivity. Qed.

(** The body of the loop of [PageAngles], from any state. *)
Lemma pageAngle_run (d : Document) (maxAngle : float64)
  (include90Degrees : bool) (page : Z) (n : N) :
  match result (getImageOnPage d page n) with
  | Ok (raw, img) =>
      pageAngle d maxAngle include90Degrees page
      = Ok (angleOf (cimg.bitmap img) maxAngle include90Degrees)
  | Err e => pageAngle d maxAngle include90Degrees page = Err e
  | Panic msg => pageAngle d maxAngle include90Degrees page = Panic msg
  end.
Proof.
  unfold pageAngle.
  pose proof (getImageOnPage_shift d page n 0%N) as Hs.
  destruct (result (getImageOnPage d page n)) as [[raw img]|e|msg].
  - destruct Hs as (_ & _ & ->). reflexivity.
  - rewrite Hs. reflexivity.
  - rewrite Hs. reflexivity.
Qed.

Lemma PageAngles_loop_result (d : Document) (maxAngle : float64)
  (include90Degrees : bool) (pages : list Z) (angles : list float64) (n : N) :
  result (PageAngles_loop d maxAngle include90Degrees pages angles n) =
  match gather (pageAngle d maxAngle include90Degrees) pages with
  | Ok l => Ok (angles ++ l)%list
  | Err e => Err e
  | Panic msg => Panic msg
  end.
Proof.
  revert angles n. induction pages as [|page rest IH]; intros angles n.
  - cbn [PageAngles_loop gather]. rewrite app_nil_r. reflexivity.
  - cbn [PageAngles_loop gather].
    pose proof (pageAngle_run d maxAngle include90Degrees page n) as Hp.
    unfold bind at 1.
    destruct (result (getImageOnPage d page n)) as [[raw img]|e|msg];
      rewrite Hp; try reflexivity.
    cbn [result]. unfold bind at 1. rewrite getImageAngle_run.
    cbn [result next]. rewrite IH.
    destruct (gather _ rest) as [l|e|msg]; try reflexivity.
    rewrite <- app_assoc. reflexivity.
Qed.

Lemma PageAngles_Ok (d : Document) (maxAngle : float64)
  (include90Degrees : bool) (n : N) (angles : list float64) :
  result (PageAngles d maxAngle include90Degrees n) = Ok angles <->
  Forall2 (fun page a => pageAngle d maxAngle include90Degrees page = Ok a)
    (range_int (NumPages d)) angles.
Proof.
  unfold PageAngles. rewrite PageAngles_loop_result, <- gather_Ok.
  destruct (gather _ (range_int (NumPages d))) as [l|e|msg];
    cbn [app]; split; congruence.
Qed.

(** An invariant of the calls goes through [bind]. *)
Lemma calls_bind_Forall {A B} (P : event -> Prop) (m : M A) (k : A -> M B)
  (n : N) :
  Forall P (calls (m n)) ->
  (forall a n', Forall P (calls (k a n'))) ->
  Forall P (calls (bind m k n)).
Proof.
  intros Hm Hk. unfold bind.
  destruct (result (m n)) as [a|e|msg]; cbn [calls]; try exact Hm.
  apply Forall_app. split; [exact Hm|apply Hk].
Qed.

Lemma getImageOnPage_calls (d : Document) (pageIdx : Z) (n : N) :
  Forall (fun ev => extraction_call (fst ev)) (calls (getImageOnPage d pageIdx n)).
Proof.
  unfold getImageOnPage, Decompress, new_Image, bind, invoke, ret, fail, panic.
  cbn [result next calls].
  destruct (pdfapi_ExtractImagesRaw (reader d) _) as [images|e|msg];
    cbn [calls]; try (repeat constructor).
  destruct (negb (len images =? 1)); cbn [calls app];
    try (repeat constructor).
  destruct images as [|m rest]; cbn [calls app]; try (repeat constructor).
  destruct m as [|[k img] others]; cbn [calls app]; try (repeat constructor).
  destruct (model.Reader img) as [r|]; cbn [result calls app];
    try (repeat constructor).
  destruct (io.ReadAll r) as [raw|e|msg]; cbn [result next calls app];
    try (repeat constructor).
  destruct (cimg_Decompress raw) as [b|e|msg]; cbn [result next calls app];
    repeat constructor.
Qed.

Lemma extraction_resolver (maxAngle : float64) (include90Degrees : bool)
  (l : list event) :
  Forall (fun ev => extraction_call (fst ev)) l ->
  Forall (fun ev => resolver_call maxAngle include90Degrees (fst ev)) l.
Proof.
  apply Forall_impl. intros [c e]. cbn [fst].
  destruct c; cbn; tauto.
Qed.

Lemma PageAngles_loop_calls (d : Document) (maxAngle : float64)
  (include90Degrees : bool) (pages : list Z) (angles : list float64) (n : N) :
  Forall (fun ev => resolver_call maxAngle include90Degrees (fst ev))
    (calls (PageAngles_loop d maxAngle include90Degrees pages angles n)).
Proof.
  revert angles n. induction pages as [|page rest IH]; intros angles n.
  - constructor.
  - cbn [PageAngles_loop]. apply calls_bind_Forall.
    + apply extraction_resolver, getImageOnPage_calls.
    + intros [raw img] n'. apply calls_bind_Forall.
      * rewrite getImageAngle_run. cbn [calls].
        repeat constructor.
      * intros angle n''. apply IH.
Qed.

(** X3.  [PageAngles] returns one angle per page, in page order: when the
    image of every page is obtained it returns (the estimator cannot
    fail); what it returns has as many entries as the document has pages,
    the entry of a page being the estimator's answer for the gray version
    of that page's image; and it returns the error of the first page
    whose image is not obtained. *)
Theorem PageAngles_one_per_page (d : Document) (maxAngle : float64)
  (include90Degrees : bool) (n : N) :
  ((forall page, 0 <= page < NumPages d ->
      exists raw img, result (getImageOnPage d page 0%N) = Ok (raw, img)) ->
   exists angles,
     result (PageAngles d maxAngle include90Degrees n) = Ok angles)
  /\ (forall angles,
        result (PageAngles d maxAngle include90Degrees n) = Ok angles ->
        len angles = Z.max 0 (NumPages d)
        /\ forall page, 0 <= page < NumPages d ->
             exists raw img,
               result (getImageOnPage d page 0%N) = Ok (raw, img)
               /\ lookup angles page
                  = Some (angleOf (cimg.bitmap img) maxAngle
                            include90Degrees))
  /\ (forall pre page post e,
        range_int (NumPages d) = (pre ++ page :: post)%list ->
        (forall q, In q pre ->
           exists raw img, result (getImageOnPage d q 0%N) = Ok (raw, img)) ->
        result (getImageOnPage d page 0%N) = Err e ->
        result (PageAngles d maxAngle include90Degrees n) = Err e).
Proof.
  split; [|split].
  - intros Hall.
    assert (H : forall pages,
               (forall page, In page pages ->
                  exists raw img,
                    result (getImageOnPage d page 0%N) = Ok (raw, img)) ->
               exists l, gather (pageAngle d maxAngle include90Degrees) pages
                         = Ok l).
    { induction pages as [|p ps IH]; intros Hp.
      - exists []. reflexivity.
      - destruct (Hp p (or_introl eq_refl)) as (raw & img & Himg).
        destruct IH as [l Hl]; [intros q Hq; apply Hp; right; exact Hq|].
        eexists. cbn [gather]. unfold pageAngle at 1.
        rewrite Himg, Hl. reflexivity. }
    destruct (H (range_int (NumPages d))) as [l Hl].
    { intros page Hin. apply Hall. apply range_int_In. exact Hin. }
    exists l. unfold PageAngles. rewrite PageAngles_loop_result, Hl.
    reflexivity.
  - intros angles Hrun. apply PageAngles_Ok in Hrun. split.
    + unfold len. rewrite <- (Forall2_length Hrun).
      unfold range_int. rewrite length_map, length_seq. lia.
    + intros page Hpage.
      destruct (Forall2_nth_error_l _ _ _ (Z.to_nat page) page Hrun
                  (range_int_nth _ _ Hpage)) as (a & Hnth & Ha).
      unfold pageAngle in Ha.
      destruct (result (getImageOnPage d page 0%N)) as [[raw img]|e|msg];
        try discriminate.
      exists raw, img. split; [reflexivity|].
      unfold lookup.
      destruct (page <? 0) eqn:Hneg; [apply Z.ltb_lt in Hneg; lia|].
      rewrite Hnth. injection Ha as <-. reflexivity.
  - intros pre page post e Hsplit Hpre Hfail.
    unfold PageAngles. rewrite PageAngles_loop_result, Hsplit.
    clear Hsplit. induction pre as [|p ps IH]; cbn [app gather].
    + unfold pageAngle at 1. rewrite Hfail. reflexivity.
    + destruct (Hpre p (or_introl eq_refl)) as (raw & img & Himg).
      unfold pageAngle at 1. rewrite Himg.
      specialize (IH (fun q Hq => Hpre q (or_intror Hq))).
      destruct (gather _ (ps ++ page :: post)%list) as [l|e'|msg];
        try discriminate; exact IH.
Qed.

(** X4.  Whatever [PageAngles] does, it asks the estimator only for the
    window from [-maxAngle] to [maxAngle] with the quarter-turn flag it
    was given, the other parameters being the library's defaults; and its
    only other calls extract, read, decode and gray the page images:
    nothing is rotated, encoded or assembled. *)
Theorem PageAngles_asks_symmetric_window (d : Document) (maxAngle : float64)
  (include90Degrees : bool) (n : N) :
  Forall (fun ev =>
            match fst ev with
            | Call_GetAngleWhiteLines params =>
                docangle.MinDeltaDegrees params = (- maxAngle)%float
                /\ docangle.MaxDeltaDegrees params = maxAngle
                /\ docangle.Include90Degrees params = include90Degrees
                /\ docangle.defaults params
                   = docangle.defaults docangle_NewWhiteLinesParams
            | Call_ExtractImagesRaw _ | Call_ReadAll | Call_Decompress
            | Call_ToGray => True
            | _ => False
            end)
    (calls (PageAngles d maxAngle include90Degrees n)).
Proof.
  unfold PageAngles.
  eapply Forall_impl;
    [|apply (PageAngles_loop_calls d maxAngle include90Degrees)].
  intros [c e]. cbn [fst]. destruct c; cbn [resolver_call]; try tauto.
  intros ->. repeat split.
Qed.

(** *** [StraightenOnePass] *)

Lemma onePassPage_run (d : Document) (orient : textorient_Orient)
  (maxAngle : float64) (page : Z) (n : N) :
  match result (getImageOnPage d page n) with
  | Ok (raw, img) =>
      result (straightenImage d orient raw img
                (angleOf (cimg.bitmap img) maxAngle false) (N.succ (N.succ n)))
      = onePassPage d orient maxAngle page
  | Err e => onePassPage d orient maxAngle page = Err e
  | Panic msg => onePassPage d orient maxAngle page = Panic msg
  end.
Proof.
  unfold onePassPage.
  pose proof (getImageOnPage_shift d page n 0%N) as Hs.
  destruct (result (getImageOnPage d page n)) as [[raw img]|e|msg].
  - destruct Hs as (Haddr & _ & ->). rewrite bitmap_at_addr.
    apply straightenImage_result_indep.
    + reflexivity.
    + lia.
    + cbn [at_addr cimg.addr]. lia.
  - rewrite Hs. reflexivity.
  - rewrite Hs. reflexivity.
Qed.

Lemma StraightenOnePass_loop_result (d : Document)
  (orient : textorient_Orient) (maxAngle : float64) (pages : list Z)
  (straightImages : list bytes) (n : N) :
  result (StraightenOnePass_loop d orient maxAngle pages straightImages n) =
  match gather (onePassPage d orient maxAngle) pages with
  | Ok outs => Ok (straightImages ++ outs)%list
  | Err e => Err e
  | Panic msg => Panic msg
  end.
Proof.
  revert straightImages n. induction pages as [|page rest IH]; intros acc n.
  - cbn [StraightenOnePass_loop gather]. rewrite app_nil_r. reflexivity.
  - cbn [StraightenOnePass_loop gather].
    pose proof (onePassPage_run d orient maxAngle page n) as Hp.
    pose proof (getImageOnPage_shift d page n n) as Hs.
    unfold bind at 1.
    destruct (result (getImageOnPage d page n)) as [[raw img]|e|msg];
      [|rewrite Hp; reflexivity|rewrite Hp; reflexivity].
    destruct Hs as (_ & Hnext & _).
    cbn [result]. unfold bind at 1. rewrite getImageAngle_run.
    cbn [result next]. rewrite Hnext, <- Hp. unfold bind at 1.
    destruct (result (straightenImage d orient raw img _ _)) as [out|e|msg];
      try reflexivity.
    cbn [result]. rewrite IH.
    destruct (gather _ rest) as [outs|e|msg]; try reflexivity.
    rewrite <- app_assoc. reflexivity.
Qed.

Lemma StraightenOnePass_result (d : Document) (orient : textorient_Orient)
  (maxAngle : float64) (n : N) :
  result (StraightenOnePass d orient maxAngle n) =
  match gather (onePassPage d orient maxAngle) (range_int (NumPages d)) with
  | Ok outs => pdfapi_ImportImages outs importConfig
  | Err e => Err e
  | Panic msg => Panic msg
  end.
Proof.
  unfold StraightenOnePass, bind.
  rewrite StraightenOnePass_loop_result.
  destruct (gather _ (range_int (NumPages d))) as [outs|e|msg];
    try reflexivity.
  cbn [result app]. apply buildNewPDF_result.
Qed.

Lemma Straighten_result_gather (d : Document) (orient : textorient_Orient)
  (pageAngles : list float64) (n : N) :
  result (Straighten d orient pageAngles n) =
  match gather (fun page => result (straightenPage d orient pageAngles page 0%N))
          (range_int (NumPages d)) with
  | Ok outs => pdfapi_ImportImages outs importConfig
  | Err e => Err e
  | Panic msg => Panic msg
  end.
Proof.
  rewrite Straighten_result. unfold StraightenedImages.
  rewrite StraightenedImages_loop_result, collect_gather.
  destruct (gather _ (range_int (NumPages d))); reflexivity.
Qed.

(** The loop body of [StraightenedImages] on a page whose image and angle
    are known. *)
Lemma straightenPage_given (d : Document) (orient : textorient_Orient)
  (pageAngles : list float64) (page : Z) (raw : bytes) (img : cimg.Image)
  (angle : float64) :
  result (getImageOnPage d page 0%N) = Ok (raw, img) ->
  lookup pageAngles page = Some angle ->
  result (straightenPage d orient pageAngles page 0%N)
  = result (straightenImage d orient raw img angle 1%N).
Proof.
  intros Himg Hangle. rewrite straightenPage_result.
  pose proof (getImageOnPage_shift d page 0%N 0%N) as Hs.
  rewrite Himg in Hs |- *. destruct Hs as (_ & -> & _).
  rewrite Hangle. reflexivity.
Qed.

(** A page entry of one image at most is visited in one order only. *)
Lemma single_image_one_order (imagesOnPage visited : imageMap) :
  len imagesOnPage <= 1 -> Permutation imagesOnPage visited ->
  visited = imagesOnPage.
Proof.
  unfold len. intros Hlen Hperm.
  destruct imagesOnPage as [|entry [|entry' rest]].
  - apply Permutation_nil in Hperm. exact Hperm.
  - apply Permutation_length_1_inv in Hperm. exact Hperm.
  - cbn [List.length] in Hlen. lia.
Qed.

(** X5.  The single pass is the two passes, on a document whose pages
    hold one image each at most (so that a page read twice gives the same
    image both times): when [PageAngles] with the same window and no
    quarter-turn hypothesis returns angles, [StraightenOnePass] ends
    exactly as [Straighten] does on these angles, with the same document
    or the same error; and whenever [StraightenOnePass] returns a
    document, [PageAngles] returns. *)
Theorem StraightenOnePass_is_two_passes (d : Document)
  (orient : textorient_Orient) (maxAngle : float64) (n : N) :
  single_images d ->
  (forall angles n1 n2,
     result (PageAngles d maxAngle false n) = Ok angles ->
     result (StraightenOnePass d orient maxAngle n1)
     = result (Straighten d orient angles n2))
  /\ (forall pdf,
        result (StraightenOnePass d orient maxAngle n) = Ok pdf ->
        exists angles,
          result (PageAngles d maxAngle false n) = Ok angles
          /\ result (Straighten d orient angles n) = Ok pdf).
Proof.
  intros _.
  assert (Hfirst : forall angles n1 n2,
             result (PageAngles d maxAngle false n) = Ok angles ->
             result (StraightenOnePass d orient maxAngle n1)
             = result (Straighten d orient angles n2)).
  { intros angles n1 n2 Hangles.
    rewrite StraightenOnePass_result, Straighten_result_gather.
    rewrite (gather_ext (onePassPage d orient maxAngle)
               (fun page => result (straightenPage d orient angles page 0%N)));
      [reflexivity|].
    intros page Hin. apply range_int_In in Hin.
    apply PageAngles_Ok in Hangles.
    destruct (Forall2_nth_error_l _ _ _ (Z.to_nat page) page Hangles
                (range_int_nth _ _ Hin)) as (a & Hnth & Ha).
    unfold pageAngle in Ha. unfold onePassPage.
    destruct (result (getImageOnPage d page 0%N)) as [[raw img]|e|msg] eqn:Hg;
      try discriminate.
    injection Ha as <-. symmetry.
    apply straightenPage_given; [exact Hg|].
    unfold lookup.
    destruct (page <? 0) eqn:Hneg; [apply Z.ltb_lt in Hneg; lia|].
    exact Hnth. }
  split; [exact Hfirst|].
  intros pdf Hpdf.
  assert (Hall : exists angles,
             gather (pageAngle d maxAngle false) (range_int (NumPages d))
             = Ok angles).
  { rewrite StraightenOnePass_result in Hpdf.
    destruct (gather (onePassPage d orient maxAngle) (range_int (NumPages d)))
      as [outs|e|msg] eqn:Houts; try discriminate.
    clear Hpdf. revert outs Houts.
    induction (range_int (NumPages d)) as [|p ps IH]; intros outs Houts.
    - exists []. reflexivity.
    - cbn [gather] in Houts |- *. unfold onePassPage in Houts at 1.
      unfold pageAngle at 1.
      destruct (result (getImageOnPage d p 0%N)) as [[raw img]|e|msg];
        try discriminate.
      destruct (result (straightenImage d orient raw img _ 1%N));
        try discriminate.
      destruct (gather (onePassPage d orient maxAngle) ps) as [outs'|e|msg];
        try discriminate.
      destruct (IH outs' eq_refl) as [l ->]. eexists. reflexivity. }
  destruct Hall as [angles Hangles]. exists angles.
  assert (Hrun : result (PageAngles d maxAngle false n) = Ok angles).
  { unfold PageAngles. rewrite PageAngles_loop_result, Hangles. reflexivity. }
  split; [exact Hrun|].
  rewrite <- (Hfirst angles n n Hrun). exact Hpdf.
Qed.

(** *** [Straighten] and [buildNewPDF] *)

Lemma straightenImage_calls (d : Document) (orient : textorient_Orient)
  (raw : bytes) (img : cimg.Image) (angle : float64) (n : N) :
  Forall (fun ev => straightening_call (fst ev))
    (calls (straightenImage d orient raw img angle n)).
Proof.
  unfold straightenImage. apply calls_bind_Forall.
  - destruct (negb (angle =? 0)%float).
    + rewrite rotateImage_run. cbn [calls]. repeat constructor.
    + constructor.
  - intros fixed n'. apply calls_bind_Forall.
    + unfold MakeUpright. apply calls_bind_Forall.
      * repeat constructor.
      * intros [|b] n''; constructor.
    + intros upright n''.
      destruct (cimg.addr upright =? cimg.addr img)%N.
      * constructor.
      * unfold Compress, invoke. cbn [calls]. repeat constructor.
Qed.

Lemma extraction_straightening (l : list event) :
  Forall (fun ev => extraction_call (fst ev)) l ->
  Forall (fun ev => straightening_call (fst ev)) l.
Proof.
  apply Forall_impl. intros [c e]. cbn [fst].
  destruct c; cbn; tauto.
Qed.

Lemma StraightenedImages_loop_calls (d : Document)
  (orient : textorient_Orient) (pageAngles : list float64) (pages : list Z)
  (straightImages : list bytes) (n : N) :
  Forall (fun ev => straightening_call (fst ev))
    (calls (StraightenedImages_loop d orient pageAngles pages straightImages n)).
Proof.
  revert straightImages n. induction pages as [|page rest IH]; intros acc n.
  - constructor.
  - cbn [StraightenedImages_loop]. apply calls_bind_Forall.
    + unfold straightenPage. apply calls_bind_Forall.
      * apply extraction_straightening, getImageOnPage_calls.
      * intros [raw img] n'. apply calls_bind_Forall.
        -- rewrite index_run. constructor.
        -- intros angle n''. apply straightenImage_calls.
    + intros fixed n'. apply IH.
Qed.

(** X6.  [Straighten] assembles once, at the end, and only a complete
    document.  Its page loop extracts, reads, decodes, rotates, orients
    and encodes (always under quality 95 and 4:4:4 sampling): it never
    estimates an angle and never assembles.  When every page has been
    straightened, one call of [pdfapi.ImportImages] follows, the last of
    the run, with one image per page, scale 1 and position [types.Full],
    and its answer is the answer of [Straighten].  When a page fails, the
    run ends there, with the failure of the page: nothing is assembled. *)
Theorem Straighten_assembles_once (d : Document) (orient : textorient_Orient)
  (pageAngles : list float64) (n : N) :
  Forall (fun ev =>
            match fst ev with
            | Call_ExtractImagesRaw _ | Call_ReadAll | Call_Decompress
            | Call_NewImage _ _ | Call_Rotate _ | Call_MakeUpright => True
            | Call_Compress params =>
                params = cimg.MakeCompressParams cimg.Sampling444 95 0
            | _ => False
            end)
    (calls (StraightenedImages d orient pageAngles n))
  /\ match result (StraightenedImages d orient pageAngles n) with
     | Ok straightImages =>
         List.length straightImages = Z.to_nat (NumPages d)
         /\ pdfcpu.Scale importConfig = 1%float
         /\ pdfcpu.Pos importConfig = types.Full
         /\ pdfcpu.defaults importConfig
            = pdfcpu.defaults pdfcpu_DefaultImportConfig
         /\ result (Straighten d orient pageAngles n)
            = pdfapi_ImportImages straightImages importConfig
         /\ calls (Straighten d orient pageAngles n)
            = (calls (StraightenedImages d orient pageAngles n)
               ++ [(Call_ImportImages (Z.to_nat (NumPages d)) importConfig,
                    match pdfapi_ImportImages straightImages importConfig with
                    | Err e => Some e
                    | _ => None
                    end)])%list
     | Err e =>
         result (Straighten d orient pageAngles n) = Err e
         /\ calls (Straighten d orient pageAngles n)
            = calls (StraightenedImages d orient pageAngles n)
     | Panic msg =>
         result (Straighten d orient pageAngles n) = Panic msg
         /\ calls (Straighten d orient pageAngles n)
            = calls (StraightenedImages d orient pageAngles n)
     end.
Proof.
  split.
  - unfold StraightenedImages.
    eapply Forall_impl; [|apply StraightenedImages_loop_calls].
    intros [c e]. cbn [fst]. destruct c; cbn [straightening_call]; tauto.
  - destruct (result (StraightenedImages d orient pageAngles n))
      as [straightImages|e|msg] eqn:Hrun.
    + assert (Hlen : List.length straightImages = Z.to_nat (NumPages d)).
      { apply StraightenedImages_Ok in Hrun.
        rewrite <- (Forall2_length Hrun).
        unfold range_int. rewrite length_map, length_seq. reflexivity. }
      split; [exact Hlen|].
      split; [reflexivity|]. split; [reflexivity|]. split; [reflexivity|].
      split.
      * rewrite Straighten_result, Hrun. reflexivity.
      * unfold Straighten. rewrite (bind_Ok _ _ _ _ Hrun). cbn [calls].
        unfold buildNewPDF, invoke, importConfig.
        cbn [calls pdfcpu.Scale pdfcpu.Pos pdfcpu.defaults].
        rewrite map_id, Hlen. reflexivity.
    + unfold Straighten. rewrite (bind_Err _ _ _ _ Hrun). split; reflexivity.
    + unfold Straighten. rewrite (bind_Panic _ _ _ _ Hrun). split; reflexivity.
Qed.

(** *** The canvas of a straightened page *)

Lemma SFabs_binary_round_sign (s s' : bool) (m : positive) (e : Z) :
  SFabs (binary_round prec emax s m e) = SFabs (binary_round prec emax s' m e).
Proof.
  unfold binary_round.
  destruct (shl_align m e _) as [mz ez].
  rewrite !SFabs_binary_round_aux. reflexivity.
Qed.

Lemma SFabs_binary_normalize_opp (z e : Z) :
  SFabs (binary_normalize prec emax (- z) e false)
  = SFabs (binary_normalize prec emax z e false).
Proof.
  destruct z as [|p|p]; cbn [binary_normalize Z.opp]; try reflexivity;
    apply SFabs_binary_round_sign.
Qed.

Lemma SFabs_SFopp (x : spec_float) : SFabs (SFopp x) = SFabs x.
Proof. destruct x; reflexivity. Qed.

Lemma cond_Zopp_negb (s : bool) (z : Z) :
  cond_Zopp (negb s) z = - cond_Zopp s z.
Proof. destruct s; cbn [cond_Zopp negb]; lia. Qed.

Lemma SFabs_SFsub_SFopp (x y : spec_float) :
  SFabs (SFsub prec emax (SFopp x) y) = SFabs (SFadd prec emax x y).
Proof.
  destruct x as [sx|sx| |sx mx ex], y as [sy|sy| |sy my ey];
    try reflexivity;
    try (destruct sx, sy; reflexivity).
  cbn [SFopp SFsub SFadd]. cbv zeta.
  rewrite cond_Zopp_negb.
  rewrite <- SFabs_binary_normalize_opp. f_equal. f_equal. lia.
Qed.

Lemma SFabs_SFadd_SFopp (x y : spec_float) :
  SFabs (SFadd prec emax (SFopp x) y) = SFabs (SFsub prec emax x y).
Proof.
  destruct x as [sx|sx| |sx mx ex], y as [sy|sy| |sy my ey];
    try reflexivity;
    try (destruct sx, sy; reflexivity).
  cbn [SFopp SFsub SFadd]. cbv zeta.
  rewrite cond_Zopp_negb.
  rewrite <- SFabs_binary_normalize_opp. f_equal. f_equal. lia.
Qed.

(** [|-a| = |a|], [|-a - b| = |a + b|] and [|-a + b| = |a - b|], bit for
    bit: rounding to nearest is symmetric. *)
Lemma abs_opp (a : float64) : abs (- a) = abs a.
Proof.
  apply Prim2SF_inj. rewrite !abs_spec, opp_spec. apply SFabs_SFopp.
Qed.

Lemma abs_opp_sub (a b : float64) : abs (- a - b) = abs (a + b).
Proof.
  apply Prim2SF_inj. rewrite !abs_spec, sub_spec, add_spec, opp_spec.
  apply SFabs_SFsub_SFopp.
Qed.

Lemma abs_opp_add (a b : float64) : abs (- a + b) = abs (a - b).
Proof.
  apply Prim2SF_inj. rewrite !abs_spec, sub_spec, add_spec, opp_spec.
  apply SFabs_SFadd_SFopp.
Qed.

(** The canvas [rotateImage] allocates for the opposite of an angle. *)
Lemma rotateImage_size_opp_small (img : cimg.Image) (angle : float64) :
  (abs angle <=? 5)%float = true ->
  rotateImage_size img (- angle)%float = (cimg.Width img, cimg.Height img).
Proof.
  intros Hsmall. unfold rotateImage_size, cropLimitDegrees.
  rewrite abs_opp, Hsmall. reflexivity.
Qed.

Lemma rotateImage_size_opp_quarter (img : cimg.Image) (angle : float64) :
  ((abs (angle - 90) <=? 5) || (abs (angle + 90) <=? 5))%float = true ->
  rotateImage_size img (- angle)%float = (cimg.Height img, cimg.Width img).
Proof.
  intros Hquarter. unfold rotateImage_size, cropLimitDegrees.
  rewrite abs_opp, abs_opp_sub, abs_opp_add.
  destruct (abs angle <=? 5)%float eqn:Hsmall.
  - destruct (near_zero_not_near_quarter angle Hsmall) as [H1 H2].
    rewrite H1, H2 in Hquarter. discriminate.
  - rewrite orb_comm, Hquarter. reflexivity.
Qed.

(** X7.  The canvas of a straightened page, by the angle of the page.
    For an angle that is not zero [straightenImage] rotates by the
    opposite angle into a new image of the format of the page; that image
    has the size of the page when the angle is within 5 degrees of zero,
    and the size of the page with width and height exchanged when the
    angle is within 5 degrees of 90 or of -90.  It is this image that is
    encoded when [MakeUpright] leaves it as it is. *)
Theorem straightenImage_canvas (d : Document) (orient : textorient_Orient)
  (raw : bytes) (img : cimg.Image) (angle : float64) (n : N) :
  (angle =? 0)%float = false ->
  (cimg.addr img < n)%N ->
  exists fixed : cimg.Image,
    result (rotateImage d img (- angle)%float n) = Ok fixed
    /\ In (Call_NewImage (cimg.Width fixed) (cimg.Height fixed), None)
         (calls (straightenImage d orient raw img angle n))
    /\ cimg.Format fixed = cimg.Format img
    /\ ((abs angle <=? 5)%float = true ->
        (cimg.Width fixed, cimg.Height fixed)
        = (cimg.Width img, cimg.Height img))
    /\ (((abs (angle - 90) <=? 5) || (abs (angle + 90) <=? 5))%float = true ->
        (cimg.Width fixed, cimg.Height fixed)
        = (cimg.Height img, cimg.Width img))
    /\ (textorient_upright orient (cimg.bitmap fixed) = Ok Unchanged ->
        result (straightenImage d orient raw img angle n)
        = cimg_Compress (cimg.bitmap fixed) profile).
Proof.
  intros Hnz Hlt. exists (rotated img (- angle)%float n).
  destruct (rotated_fields img (- angle)%float n) as (_ & Hsize & Hformat).
  pose proof (straightenImage_nonzero_run d orient raw img angle n Hnz Hlt)
    as Hrun.
  cbv zeta in Hrun.
  split; [rewrite rotateImage_run; reflexivity|].
  split; [|split; [exact Hformat|split; [|split]]].
  - rewrite Hrun, <- Hsize. cbn [fst snd].
    destruct (textorient_upright orient _) as [[|b]|e|msg]; cbn [calls];
      left; reflexivity.
  - intros Hsmall. rewrite Hsize. apply rotateImage_size_opp_small, Hsmall.
  - intros Hquarter. rewrite Hsize.
    apply rotateImage_size_opp_quarter, Hquarter.
  - intros Hup. rewrite Hrun, Hup. reflexivity.
Qed.

(** *** The earliest revision *)

(** X8.  Within the crop limit the present [straightenImage] still returns
    what the earliest revision returned, whenever [MakeUpright] finds
    nothing to do: the raw bytes for an angle of zero, and otherwise the
    encoding, under the same profile, of the page rotated by the opposite
    angle into a canvas of its own size. *)
Theorem straightenImage_agrees_with_v1 (d : Document)
  (orient : textorient_Orient) (raw : bytes) (img : cimg.Image)
  (angle : float64) (n : N) :
  (cimg.addr img < n)%N ->
  (abs angle <=? 5)%float = true ->
  textorient_upright orient
    (cimg.bitmap (if (angle =? 0)%float then img
                  else rotated img (- angle)%float n)) = Ok Unchanged ->
  result (straightenImage d orient raw img angle n)
  = result (straightenImage_v1 d raw img angle n).
Proof.
  intros Hlt Hsmall Hup. unfold straightenImage_v1.
  destruct (angle =? 0)%float eqn:Hz; cbn [negb].
  - rewrite (straightenImage_zero_run d orient raw img angle n Hz), Hup.
    reflexivity.
  - pose proof (straightenImage_nonzero_run d orient raw img angle n Hz Hlt)
      as Hrun.
    cbv zeta in Hrun. rewrite Hrun, Hup. cbn [result].
    unfold rotated. rewrite (rotateImage_size_opp_small img angle Hsmall).
    reflexivity.
Qed.

(** *** The pages read *)

Lemma calls_bind {A B} (m : M A) (k : A -> M B) (n : N) :
  calls (bind m k n)
  = (calls (m n)
     ++ match result (m n) with
        | Ok a => calls (k a (next (m n)))
        | _ => []
        end)%list.
Proof.
  unfold bind. destruct (result (m n)); cbn [calls];
    rewrite ?app_nil_r; reflexivity.
Qed.

Lemma extractions_app (l l' : list event) :
  extractions (l ++ l') = (extractions l ++ extractions l')%list.
Proof. apply flat_map_app. Qed.

Lemma getImageOnPage_extractions (d : Document) (pageIdx : Z) (n : N) :
  extractions (calls (getImageOnPage d pageIdx n))
  = [[Sprintf_d (int_add pageIdx 1)]].
Proof.
  unfold getImageOnPage, Decompress, new_Image, bind, invoke, ret, fail, panic.
  cbn [result next calls].
  destruct (pdfapi_ExtractImagesRaw (reader d) _) as [images|e|msg];
    cbn [calls]; try reflexivity.
  destruct (negb (len images =? 1)); cbn [calls app]; try reflexivity.
  destruct images as [|m rest]; cbn [calls app]; try reflexivity.
  destruct m as [|[k img] others]; cbn [calls app]; try reflexivity.
  destruct (model.Reader img) as [r|]; cbn [result calls app];
    try reflexivity.
  destruct (io.ReadAll r) as [raw|e|msg]; cbn [result next calls app];
    try reflexivity.
  destruct (cimg_Decompress raw) as [b|e|msg]; reflexivity.
Qed.

Lemma extractions_none (l : list event) :
  Forall (fun ev => match fst ev with
                    | Call_ExtractImagesRaw _ => False
                    | _ => True
                    end) l ->
  extractions l = [].
Proof.
  induction 1 as [|[c e] l Hc _ IH]; [reflexivity|].
  cbn [extractions flat_map fst] in *. destruct c; try contradiction;
    exact IH.
Qed.

Lemma straightenImage_extractions (d : Document) (orient : textorient_Orient)
  (raw : bytes) (img : cimg.Image) (angle : float64) (n : N) :
  extractions (calls (straightenImage d orient raw img angle n)) = [].
Proof.
  apply extractions_none.
  unfold straightenImage. apply calls_bind_Forall.
  - destruct (negb (angle =? 0)%float).
    + rewrite rotateImage_run. cbn [calls]. repeat constructor.
    + constructor.
  - intros fixed n'. apply calls_bind_Forall.
    + unfold MakeUpright. apply calls_bind_Forall.
      * repeat constructor.
      * intros [|b] n''; constructor.
    + intros upright n''.
      destruct (cimg.addr upright =? cimg.addr img)%N.
      * constructor.
      * unfold Compress, invoke. cbn [calls]. repeat constructor.
Qed.

Lemma PageAngles_loop_extractions (d : Document) (maxAngle : float64)
  (include90Degrees : bool) (pages : list Z) (angles : list float64) (n : N) :
  let r := PageAngles_loop d maxAngle include90Degrees pages angles n in
  (exists k, extractions (calls r) = firstn k (pageNames pages))
  /\ (forall l, result r = Ok l -> extractions (calls r) = pageNames pages).
Proof.
  cbv zeta. revert angles n.
  induction pages as [|page rest IH]; intros angles n.
  - split; [exists 0%nat; reflexivity|]. intros l _. reflexivity.
  - cbn [PageAngles_loop pageNames map].
    rewrite calls_bind, extractions_app, getImageOnPage_extractions.
    unfold bind at 2.
    destruct (result (getImageOnPage d page n)) as [[raw img]|e|msg];
      [|split; [exists 1%nat; reflexivity|discriminate]..].
    cbn [result]. rewrite calls_bind, getImageAngle_run.
    cbn [result next calls app extractions flat_map fst].
    fold (extractions
            (calls (PageAngles_loop d maxAngle include90Degrees rest
                      (angles ++ [angleOf (cimg.bitmap img) maxAngle
                                    include90Degrees])
                      (N.succ (next (getImageOnPage d page n)))))).
    unfold bind at 1. rewrite getImageAngle_run. cbn [result next].
    destruct (IH (angles ++ [angleOf (cimg.bitmap img) maxAngle
                               include90Degrees])%list
                (N.succ (next (getImageOnPage d page n))))
      as [[k Hk] Hall].
    split.
    + exists (S k). cbn [firstn app]. rewrite Hk. reflexivity.
    + intros l Hl. cbn [app]. rewrite (Hall l Hl). reflexivity.
Qed.

Lemma straightenPage_extractions (d : Document) (orient : textorient_Orient)
  (pageAngles : list float64) (page : Z) (n : N) :
  extractions (calls (straightenPage d orient pageAngles page n))
  = [[Sprintf_d (int_add page 1)]].
Proof.
  unfold straightenPage.
  rewrite calls_bind, extractions_app, getImageOnPage_extractions.
  destruct (result (getImageOnPage d page n)) as [[raw img]|e|msg];
    try reflexivity.
  rewrite calls_bind, index_run. cbn [result next calls app].
  destruct (lookup pageAngles page) as [angle|]; [|reflexivity].
  rewrite straightenImage_extractions. reflexivity.
Qed.

Lemma StraightenedImages_loop_extractions (d : Document)
  (orient : textorient_Orient) (pageAngles : list float64) (pages : list Z)
  (straightImages : list bytes) (n : N) :
  let r := StraightenedImages_loop d orient pageAngles pages straightImages n in
  (exists k, extractions (calls r) = firstn k (pageNames pages))
  /\ (forall l, result r = Ok l -> extractions (calls r) = pageNames pages).
Proof.
  cbv zeta. revert straightImages n.
  induction pages as [|page rest IH]; intros acc n.
  - split; [exists 0%nat; reflexivity|]. intros l _. reflexivity.
  - cbn [StraightenedImages_loop pageNames map].
    rewrite calls_bind, extractions_app, straightenPage_extractions.
    unfold bind at 1.
    destruct (result (straightenPage d orient pageAngles page n))
      as [fixed|e|msg];
      [|split; [exists 1%nat; reflexivity|discriminate]..].
    cbn [result].
    destruct (IH (acc ++ [fixed])%list
                (next (straightenPage d orient pageAngles page n)))
      as [[k Hk] Hall].
    split.
    + exists (S k). cbn [firstn app]. rewrite Hk. reflexivity.
    + intros l Hl. cbn [app]. rewrite (Hall l Hl). reflexivity.
Qed.

(** X13.  [PageAngles] and [Straighten] read the pages in order, each
    once, one page per call of [pdfapi.ExtractImagesRaw], the page of
    index [i] under the name [i+1]: the pages asked for during a run are
    the first so many of "1", "2", ... up to the number of pages, and
    all of them when the run succeeds. *)
Theorem pages_read_in_order (d : Document) (orient : textorient_Orient)
  (maxAngle : float64) (include90Degrees : bool) (pageAngles : list float64)
  (n : N) :
  let names := pageNames (range_int (NumPages d)) in
  let resolving := PageAngles d maxAngle include90Degrees n in
  let straightening := Straighten d orient pageAngles n in
  (exists k, extractions (calls resolving) = firstn k names)
  /\ (forall angles, result resolving = Ok angles ->
        extractions (calls resolving) = names)
  /\ (exists k, extractions (calls straightening) = firstn k names)
  /\ (forall pdf, result straightening = Ok pdf ->
        extractions (calls straightening) = names).
Proof.
  cbv zeta.
  destruct (PageAngles_loop_extractions d maxAngle include90Degrees
              (range_int (NumPages d)) [] n) as [Hprefix Hall].
  cbv zeta in Hprefix, Hall.
  split; [exact Hprefix|]. split; [exact Hall|].
  destruct (StraightenedImages_loop_extractions d orient pageAngles
              (range_int (NumPages d)) [] n) as [Hprefix' Hall'].
  cbv zeta in Hprefix', Hall'.
  assert (Hsame : extractions (calls (Straighten d orient pageAngles n))
                  = extractions
                      (calls (StraightenedImages d orient pageAngles n))).
  { unfold Straighten. rewrite calls_bind, extractions_app.
    destruct (result (StraightenedImages d orient pageAngles n));
      rewrite ?app_nil_r; reflexivity. }
  rewrite Hsame. split; [exact Hprefix'|].
  intros pdf Hpdf. rewrite Straighten_result in Hpdf.
  unfold StraightenedImages in Hpdf |- *.
  destruct (result (StraightenedImages_loop d orient pageAngles
                      (range_int (NumPages d)) [] n)) as [l|e|msg] eqn:Hl;
    try discriminate.
  apply (Hall' l). reflexivity.
Qed.

(** *** The constructors *)

Lemma concat_pageNames (pages : list Z) :
  List.concat (pageNames pages)
  = map (fun i => Sprintf_d (int_add i 1)) pages.
Proof.
  induction pages as [|page rest IH]; [reflexivity|].
  cbn [pageNames map List.concat app]. unfold pageNames in IH.
  rewrite IH. reflexivity.
Qed.

Lemma constructed_NumPages (d : Document) :
  (exists filename, NewDocumentFromFile filename = Ok d)
  \/ (exists doc, NewDocumentFromMemory doc = Ok d) ->
  NumPages d = fitz_NumPage (fz d) /\ Verbose d = false.
Proof.
  intros [[filename H]|[doc H]].
  - unfold NewDocumentFromFile, newDocument in H.
    destruct (fitz_New filename); try discriminate.
    injection H as <-. split; reflexivity.
  - unfold NewDocumentFromMemory, newDocument in H.
    destruct (fitz_NewFromMemory doc); try discriminate.
    injection H as <-. split; reflexivity.
Qed.

(** X14.  A document made by [NewDocumentFromFile] or by
    [NewDocumentFromMemory] has the number of pages go-fitz reports, and
    is not verbose.  On such a document [IsScanned] begins by listing the
    images of exactly the pages that [PageAngles] and [Straighten] read
    one by one, under the same names; a document from memory is read
    from the very bytes it was made of. *)
Theorem constructed_documents_agree_on_pages (d : Document) (n : N) :
  (exists filename, NewDocumentFromFile filename = Ok d)
  \/ (exists doc, NewDocumentFromMemory doc = Ok d) ->
  NumPages d = fitz_NumPage (fz d)
  /\ Verbose d = false
  /\ (exists err,
        hd_error (calls (IsScanned d n))
        = Some (Call_Images
                  (List.concat (pageNames (range_int (NumPages d)))), err))
  /\ (forall doc, NewDocumentFromMemory doc = Ok d ->
        reader d = BytesReader doc)
  /\ (forall filename, NewDocumentFromFile filename = Ok d ->
        exists file, reader d = FileReader file).
Proof.
  intros Hmade. destruct (constructed_NumPages d Hmade) as [Hpages Hquiet].
  split; [exact Hpages|]. split; [exact Hquiet|]. split; [|split].
  - rewrite concat_pageNames, Hpages.
    pose proof (IsScanned_run d n) as Hrun. cbv zeta in Hrun. rewrite Hrun.
    destruct (pdfapi_Images (reader d) _) as [allImages|e|msg].
    + destruct (images_loop allImages); eexists; reflexivity.
    + eexists. reflexivity.
    + eexists. reflexivity.
  - intros doc H. unfold NewDocumentFromMemory, newDocument in H.
    destruct (fitz_NewFromMemory doc); try discriminate.
    injection H as <-. reflexivity.
  - intros filename H. unfold NewDocumentFromFile, newDocument in H.
    destruct (fitz_New filename); try discriminate.
    injection H as <-. eexists. reflexivity.
Qed.

End Resolving.

(** ** The drivers *)

Section DriverFacts.

Context {C : Collaborators} {Sh : Shell}.

(** *** [Close] *)

(** A second [Close] finds nothing to release. *)
Lemma Close_again (h : handles) :
  Close (fst (Close h)) = (fst (Close h), []).
Proof.
  destruct h as [[fz|] [|f|doc]]; reflexivity.
Qed.

Lemma repeatedly_Close (k : nat) (h : handles) :
  repeatedly Close (S k) h = Close h.
Proof.
  revert h. induction k as [|k IH]; intros h.
  - cbn [repeatedly]. destruct (Close h) as [h' closed].
    rewrite app_nil_r. reflexivity.
  - change (repeatedly Close (S (S k)) h)
      with (let '(h', closed) := Close h in
            let '(h'', closed') := repeatedly Close (S k) h' in
            (h'', (closed ++ closed')%list)).
    pose proof (Close_again h) as Hagain.
    destruct (Close h) as [h' closed]. cbn [fst] in Hagain.
    rewrite IH, Hagain, app_nil_r. reflexivity.
Qed.

Lemma repeatedly_Close_v1 (k : nat) (h : handles) :
  repeatedly Close_v1 k h
  = (h, List.concat (repeat (snd (Close_v1 h)) k)).
Proof.
  induction k as [|k IH]; [reflexivity|].
  cbn [repeatedly repeat List.concat].
  assert (Hsame : fst (Close_v1 h) = h)
    by (unfold Close_v1; destruct (h_reader h); reflexivity).
  destruct (Close_v1 h) as [h' closed] eqn:Hc. cbn [fst snd] in *.
  subst h'. rewrite IH. reflexivity.
Qed.

(** X10.  However often [Close] is called on a document, it releases the
    file behind the reader once (when the reader is a file; a reader over
    bytes has nothing to close and stays) and then the fitz document
    once, and leaves no handle that could be released again.  The
    earlier revisions closed the file again on every call and never
    released the fitz document. *)
Theorem Close_releases_once (d : Document) (k : nat) :
  let h := handles_of d in
  snd (repeatedly Close (S k) h)
  = ((match reader d with
      | FileReader f => [Release_reader f]
      | _ => []
      end) ++ [Release_fz (fz d)])%list
  /\ h_fz (fst (repeatedly Close (S k) h)) = None
  /\ h_reader (fst (repeatedly Close (S k) h))
     = match reader d with
       | BytesReader doc => BytesReader doc
       | _ => NilReader
       end
  /\ snd (repeatedly Close_v1 k h)
     = List.concat (repeat (match reader d with
                       | FileReader f => [Release_reader f]
                       | _ => []
                       end) k)
  /\ fst (repeatedly Close_v1 k h) = h.
Proof.
  cbv zeta. rewrite repeatedly_Close, repeatedly_Close_v1.
  unfold handles_of, Close, Close_v1. cbn [h_fz h_reader fst snd].
  destruct (reader d) as [|f|doc]; repeat split.
Qed.

(** *** The fields a function reads *)

Lemma text_loop_result (d d' : Document) (pages : list Z) (n n' : N) :
  fz d = fz d' ->
  result (text_loop d pages n) = result (text_loop d' pages n').
Proof.
  intros Hfz. revert n n'. induction pages as [|i rest IH]; intros n n'.
  - reflexivity.
  - cbn [text_loop]. unfold bind, invoke. cbn [result next calls].
    rewrite <- Hfz.
    destruct (fitz_Text (fz d) i) as [txt|e|msg]; try reflexivity.
    destruct (negb (txt =? "")%string); [reflexivity|].
    cbn [result]. apply IH.
Qed.

(** [IsScanned], [PageAngles] and [Straighten] read [fz], [reader] and
    [NumPages], not [Verbose], and their results do not depend on the
    state of the allocator. *)
Lemma IsScanned_result_verbose (d : Document) (v : bool) (n : N) :
  result (IsScanned (MkDocument (fz d) (reader d) (NumPages d) v) n)
  = result (IsScanned d 0%N).
Proof.
  pose proof (IsScanned_run (MkDocument (fz d) (reader d) (NumPages d) v) n)
    as H.
  pose proof (IsScanned_run d 0%N) as H0.
  cbv zeta in H, H0. rewrite H, H0. cbn [fz reader].
  destruct (pdfapi_Images (reader d) _) as [allImages|e|msg];
    try reflexivity.
  destruct (images_loop allImages); [|reflexivity].
  cbn [result]. apply text_loop_result. reflexivity.
Qed.

Lemma PageAngles_result_verbose (d : Document) (v : bool)
  (maxAngle : float64) (include90Degrees : bool) (n : N) :
  result (PageAngles (MkDocument (fz d) (reader d) (NumPages d) v)
            maxAngle include90Degrees n)
  = result (PageAngles d maxAngle include90Degrees 0%N).
Proof.
  unfold PageAngles. rewrite !PageAngles_loop_result. reflexivity.
Qed.

Lemma Straighten_result_verbose (d : Document) (v : bool)
  (orient : textorient_Orient) (pageAngles : list float64) (n : N) :
  result (Straighten (MkDocument (fz d) (reader d) (NumPages d) v)
            orient pageAngles n)
  = result (Straighten d orient pageAngles 0%N).
Proof.
  rewrite !Straighten_result_gather. reflexivity.
Qed.

(** *** The angle loop *)

Lemma normalizeAngles_nRotated (allow90Degrees : bool)
  (angles : list float64) :
  0 <= snd (normalizeAngles allow90Degrees angles)
  /\ (snd (normalizeAngles allow90Degrees angles) = 0 <->
      Forall (fun a => (a =? 0)%float = true) angles).
Proof.
  induction angles as [|a rest [IHpos IH]].
  - split; [cbn; lia|]. split; [constructor|reflexivity].
  - cbn [normalizeAngles].
    destruct (normalizeAngles allow90Degrees rest) as [rest' nRotated].
    cbn [snd] in *.
    destruct (a =? 0)%float eqn:Hz; cbn [negb].
    + split; [exact IHpos|]. split.
      * intros H. constructor; [exact Hz|apply IH, H].
      * intros H. inversion H; subst. apply IH. assumption.
    + split; [lia|]. split.
      * intros H. lia.
      * intros H. inversion H; subst. congruence.
Qed.

(** *** Running a driver *)

Lemma yields_andThen {A B} (m : D A) (k : A -> D B) (r1 : outcome A)
  (o1 : list effect) (r : outcome B) (out : list effect) :
  yields m r1 o1 ->
  match r1 with
  | Ok a => exists o2, yields (k a) r o2 /\ out = (o1 ++ o2)%list
  | Err e => r = Err e /\ out = o1
  | Panic msg => r = Panic msg /\ out = o1
  end ->
  yields (andThen m k) r out.
Proof.
  intros Hm Hk n. destruct (Hm n) as [He Ho]. unfold andThen.
  rewrite He. destruct r1 as [a|e|msg].
  - destruct Hk as (o2 & Hk & ->). destruct (Hk (heap (m n))) as [He' Ho'].
    cbn [exit output]. rewrite He', Ho, Ho'. split; reflexivity.
  - destruct Hk as [-> ->]. cbn [exit output]. split; [reflexivity|exact Ho].
  - destruct Hk as [-> ->]. cbn [exit output]. split; [reflexivity|exact Ho].
Qed.

Lemma yields_done {A} (a : A) : yields (done a) (Ok a) [].
Proof. intros n. split; reflexivity. Qed.

Lemma yields_emit (e : effect) : yields (emit e) (Ok tt) [e].
Proof. intros n. split; reflexivity. Qed.

Lemma yields_run_pkg {A} (m : M A) (r : outcome A) :
  (forall n, result (m n) = r) -> yields (run_pkg m) r [].
Proof. intros H n. split; [apply H|reflexivity]. Qed.

Lemma yields_call_pure {A} (r : outcome A) : yields (call_pure r) r [].
Proof. intros n. split; reflexivity. Qed.

Lemma yields_check {A} (m : D A) (r : outcome A) (out : list effect) :
  yields m r out ->
  yields (check m)
    (match r with
     | Ok a => Ok a
     | Err e => Panic e
     | Panic msg => Panic msg
     end) out.
Proof.
  intros H n. destruct (H n) as [He Ho]. unfold check. cbn [exit output].
  rewrite He. split; [reflexivity|exact Ho].
Qed.

Lemma yields_attempt {A} (m : D A) (r : outcome A) (out : list effect) :
  yields m r out ->
  yields (attempt m)
    (match r with
     | Ok a => Ok (inl a)
     | Err e => Ok (inr e)
     | Panic msg => Panic msg
     end) out.
Proof.
  intros H n. destruct (H n) as [He Ho]. unfold attempt. cbn [exit output].
  rewrite He. split; [reflexivity|exact Ho].
Qed.

Lemma yields_ignore (m : D unit) (r : outcome unit) (out : list effect) :
  yields m r out ->
  yields (ignore m)
    (match r with
     | Ok a => Ok a
     | Err e => Ok tt
     | Panic msg => Panic msg
     end) out.
Proof.
  intros H n. destruct (H n) as [He Ho]. unfold ignore. cbn [exit output].
  rewrite He. split; [reflexivity|exact Ho].
Qed.

Lemma yields_defer {A} (e : effect) (body : D A) (r : outcome A)
  (out : list effect) :
  yields body r out -> yields (defer e body) r (out ++ [e])%list.
Proof.
  intros H n. destruct (H n) as [He Ho]. unfold defer. cbn [exit output].
  rewrite Ho. split; [exact He|reflexivity].
Qed.

Lemma yields_WriteFile (name : string) (data : bytes) (perm : Z) :
  yields (WriteFile name data perm)
    (match os_WriteFile name data perm with
     | Some e => Err e
     | None => Ok tt
     end)
    [Out_WriteFile name data perm (os_WriteFile name data perm)].
Proof. intros n. split; reflexivity. Qed.

Lemma yields_index {A} (l : list A) (i : Z) :
  yields (run_pkg (index l i))
    (match lookup l i with
     | Some a => Ok a
     | None => Panic (outOfRange l i)
     end) [].
Proof.
  apply yields_run_pkg. intros n. rewrite index_run. reflexivity.
Qed.

(** *** cmd/straighten *)

Ltac peel H :=
  eapply yields_andThen; [exact H|]; eexists; split; [|reflexivity];
  cbv beta.

Tactic Notation "enter" open_constr(out) :=
  match goal with
  | Hnew : NewDocumentFromFile _ = Ok ?d |- _ =>
      cbv zeta; rewrite Hnew
  end;
  match goal with
  | Hdoc : yields (check (call_pure (Ok _))) _ _ |- _ => peel Hdoc
  end;
  apply (yields_defer _ _ _ out);
  match goal with
  | Hscanned : yields (attempt _) _ _ |- _ => peel Hscanned
  end.

(** What [main] does when it is given a file name, by what its
    collaborators and the package answer. *)
Lemma main_with_filename (arg0 filename : string) :
  let main := cmd_straighten.main [arg0; filename] in
  match textorient_NewOrient with
  | Ok orient =>
      match NewDocumentFromFile filename with
      | Ok doc =>
          let closing := Out_Close (snd (Close (handles_of doc))) in
          match result (IsScanned doc 0%N) with
          | Ok true =>
              match result (PageAngles doc main_maxAngle true 0%N) with
              | Ok angles =>
                  if snd (main_angles angles) =? 0 then
                    yields main (Ok tt)
                      [Out_Printf ("Document is already 100% straight" ++ nl);
                       closing]
                  else
                    match result (Straighten doc orient angles 0%N) with
                    | Ok straight =>
                        yields main (Ok tt)
                          [Out_Printf ("Straightening" ++ nl);
                           Out_WriteFile "straightened.pdf" straight perm_0644
                             (os_WriteFile "straightened.pdf" straight
                                perm_0644);
                           closing]
                    | Err e =>
                        yields main (Panic e)
                          [Out_Printf ("Straightening" ++ nl); closing]
                    | Panic msg =>
                        yields main (Panic msg)
                          [Out_Printf ("Straightening" ++ nl); closing]
                    end
              | Err e => yields main (Panic e) [closing]
              | Panic msg => yields main (Panic msg) [closing]
              end
          | Ok false =>
              yields main (Ok tt)
                [Out_Printf ("Document is not scanned" ++ nl); closing]
          | Err e =>
              yields main (Ok tt)
                [Out_Printf ("Error checking if document is scanned: "
                             ++ e ++ nl); closing]
          | Panic msg => yields main (Panic msg) [closing]
          end
      | Err e => yields main (Panic e) []
      | Panic msg => yields main (Panic msg) []
      end
  | Err e => yields main (Panic e) []
  | Panic msg => yields main (Panic msg) []
  end.
Proof.
  cbv zeta. unfold cmd_straighten.main.
  change (negb (len [arg0; filename] =? 2)) with false. cbv iota.
  assert (Hargs : yields (run_pkg (index [arg0; filename] 1)) (Ok filename) []).
  { apply (yields_index [arg0; filename] 1). }
  pose proof (yields_check _ _ _ (yields_call_pure textorient_NewOrient))
    as Horient.
  pose proof (yields_check _ _ _
                (yields_call_pure (NewDocumentFromFile filename))) as Hdoc.
  destruct textorient_NewOrient as [orient|e|msg];
    [|eapply yields_andThen; [exact Hargs|]; eexists; split;
       [eapply yields_andThen; [exact Horient|]; split; reflexivity
       |reflexivity]..].
  destruct (NewDocumentFromFile filename) as [doc|e|msg] eqn:Hnew;
    [|eapply yields_andThen; [exact Hargs|]; eexists; split;
       [cbv beta; eapply yields_andThen; [exact Horient|]; eexists; split;
          [cbv beta zeta; rewrite Hnew;
           eapply yields_andThen; [exact Hdoc|]; split; reflexivity
          |reflexivity]
       |reflexivity]..].
  set (doc' := MkDocument (fz doc) (reader doc) (NumPages doc) true).
  set (closing := Out_Close (snd (Close (handles_of doc)))).
  assert (Hscanned :
            yields (attempt (run_pkg (IsScanned doc')))
              (match result (IsScanned doc 0%N) with
               | Ok a => Ok (inl a)
               | Err e => Ok (inr e)
               | Panic msg => Panic msg
               end) []).
  { apply yields_attempt, yields_run_pkg. intros n.
    apply IsScanned_result_verbose. }
  assert (Hangles :
            yields (check (run_pkg (PageAngles doc' main_maxAngle true)))
              (match result (PageAngles doc main_maxAngle true 0%N) with
               | Ok a => Ok a
               | Err e => Panic e
               | Panic msg => Panic msg
               end) []).
  { apply yields_check, yields_run_pkg. intros n.
    apply PageAngles_result_verbose. }
  assert (Hstraight : forall angles,
            yields (check (run_pkg (Straighten doc' orient angles)))
              (match result (Straighten doc orient angles 0%N) with
               | Ok a => Ok a
               | Err e => Panic e
               | Panic msg => Panic msg
               end) []).
  { intros angles. apply yields_check, yields_run_pkg. intros n.
    apply Straighten_result_verbose. }
  destruct (result (IsScanned doc 0%N)) as [[|]|e|msg].
  - destruct (result (PageAngles doc main_maxAngle true 0%N))
      as [angles|e|msg].
    + pose proof (main_angles_fst angles) as Hfst.
      unfold main_angles in Hfst |- *.
      destruct (normalizeAngles main_allow90Degrees angles)
        as [angles0 nRotated] eqn:Hloop.
      cbn [fst snd] in Hfst |- *. subst angles0.
      destruct (nRotated =? 0) eqn:Hzero.
      * peel Hargs. peel Horient. enter [_]. peel Hangles. rewrite Hloop, Hzero. apply yields_emit.
      * specialize (Hstraight angles).
        destruct (result (Straighten doc orient angles 0%N))
          as [straight|e|msg].
        -- peel Hargs. peel Horient. enter [_; _]. peel Hangles. rewrite Hloop, Hzero.
           peel (yields_emit (Out_Printf ("Straightening" ++ nl))).
           unfold cmd_straighten.outputPDF. peel Hstraight.
           pose proof (yields_ignore _ _ _
                         (yields_WriteFile "straightened.pdf" straight
                            perm_0644)) as Hw.
           destruct (os_WriteFile "straightened.pdf" straight perm_0644);
             exact Hw.
        -- peel Hargs. peel Horient. enter [_]. peel Hangles. rewrite Hloop, Hzero.
           peel (yields_emit (Out_Printf ("Straightening" ++ nl))).
           unfold cmd_straighten.outputPDF.
           eapply yields_andThen; [exact Hstraight|]. split; reflexivity.
        -- peel Hargs. peel Horient. enter [_]. peel Hangles. rewrite Hloop, Hzero.
           peel (yields_emit (Out_Printf ("Straightening" ++ nl))).
           unfold cmd_straighten.outputPDF.
           eapply yields_andThen; [exact Hstraight|]. split; reflexivity.
    + peel Hargs. peel Horient. enter (@nil effect).
      eapply yields_andThen; [exact Hangles|]. split; reflexivity.
    + peel Hargs. peel Horient. enter (@nil effect).
      eapply yields_andThen; [exact Hangles|]. split; reflexivity.
  - peel Hargs. peel Horient. enter [_]. apply yields_emit.
  - peel Hargs. peel Horient. enter [_]. apply yields_emit.
  - peel Hargs. peel Horient. cbv zeta. rewrite Hnew. peel Hdoc.
    apply (yields_defer _ _ _ []). fold doc'.
    eapply yields_andThen; [exact Hscanned|]. split; reflexivity.
Qed.

Lemma nRotated_nonzero (allow90Degrees : bool) (angles : list float64) :
  (snd (normalizeAngles allow90Degrees angles) =? 0) = false <->
  Exists (fun a => (a =? 0)%float = false) angles.
Proof.
  destruct (normalizeAngles_nRotated allow90Degrees angles) as [Hpos Hzero].
  rewrite Z.eqb_neq, Hzero. clear Hpos Hzero.
  induction angles as [|a rest IH].
  - split.
    + intros H. exfalso. apply H. constructor.
    + intros H. inversion H.
  - split.
    + intros H. destruct (a =? 0)%float eqn:Hz.
      * apply Exists_cons_tl, IH. intros Hrest. apply H.
        constructor; assumption.
      * apply Exists_cons_hd. exact Hz.
    + intros H Hall. inversion Hall as [|? ? Ha Hrest]; subst.
      inversion H as [? ? Hhd|? ? Htl]; subst.
      * congruence.
      * apply IH in Htl. apply Htl, Hrest.
Qed.






(** *** cmd/dump: the names of the files *)

Lemma append_inv_head (s a b : string) :
  (s ++ a)%string = (s ++ b)%string -> a = b.
Proof.
  induction s as [|c s IH]; cbn [append]; intros H; [exact H|].
  injection H as H. apply IH, H.
Qed.

Lemma append_assoc (a b c : string) :
  ((a ++ b) ++ c)%string = (a ++ (b ++ c))%string.
Proof.
  induction a as [|x a IH]; cbn [append]; [reflexivity|].
  rewrite IH. reflexivity.
Qed.

Lemma ReplaceAll_app (a b : string) (old new : ascii) :
  cmd_dump.ReplaceAll (a ++ b) old new
  = (cmd_dump.ReplaceAll a old new ++ cmd_dump.ReplaceAll b old new)%string.
Proof.
  induction a as [|c a IH]; cbn [append cmd_dump.ReplaceAll]; [reflexivity|].
  rewrite IH. reflexivity.
Qed.

(** After [ReplaceAll(s, " ", "_")] no space is left. *)
Lemma ReplaceAll_no_space (s : string) :
  ~ In " "%char (list_ascii_of_string (cmd_dump.ReplaceAll s " " "_")).
Proof.
  induction s as [|c s IH]; cbn [cmd_dump.ReplaceAll list_ascii_of_string In].
  - intros [].
  - intros [H|H]; [|exact (IH H)].
    destruct (Ascii.eqb c " ") eqn:Hc; [discriminate|].
    apply Ascii.eqb_neq in Hc. congruence.
Qed.

Lemma ReplaceAll_digits (u : Decimal.uint) :
  cmd_dump.ReplaceAll (NilEmpty.string_of_uint u) " " "_"
  = NilEmpty.string_of_uint u.
Proof.
  induction u; cbn [NilEmpty.string_of_uint cmd_dump.ReplaceAll];
    try reflexivity; rewrite IHu; reflexivity.
Qed.

Lemma ReplaceAll_zeros (k : nat) :
  cmd_dump.ReplaceAll (cmd_dump.zeros k) " " "_" = cmd_dump.zeros k.
Proof.
  induction k as [|k IH]; cbn [cmd_dump.zeros cmd_dump.ReplaceAll];
    [reflexivity|].
  rewrite IH. reflexivity.
Qed.

Lemma ReplaceAll_Sprintf_0d (width : nat) (n : Z) :
  cmd_dump.ReplaceAll (cmd_dump.Sprintf_0d width n) " " "_"
  = cmd_dump.Sprintf_0d width n.
Proof.
  unfold cmd_dump.Sprintf_0d.
  destruct (n <? 0); rewrite !ReplaceAll_app, ?ReplaceAll_zeros,
    ?ReplaceAll_digits; reflexivity.
Qed.

(** The name as it is written: the directory and the base name with their
    spaces replaced, the numbers as they are. *)
Lemma outputFile_shape (outputDir : string) (outputIdx : Z) (base : string)
  (i : Z) :
  cmd_dump.outputFile outputDir outputIdx base i
  = (cmd_dump.ReplaceAll outputDir " " "_" ++ "/"
     ++ cmd_dump.Sprintf_0d 5 outputIdx ++ "_"
     ++ cmd_dump.ReplaceAll base " " "_" ++ "_"
     ++ cmd_dump.Sprintf_0d 2 (int_add i 1) ++ ".jpg")%string.
Proof.
  unfold cmd_dump.outputFile.
  rewrite !ReplaceAll_app, !ReplaceAll_Sprintf_0d. reflexivity.
Qed.

(** Zeros in front of a number are digits of it. *)
Lemma zeros_digits (k : nat) (u : Decimal.uint) :
  (cmd_dump.zeros k ++ NilEmpty.string_of_uint u)%string
  = NilEmpty.string_of_uint (Nat.iter k Decimal.D0 u).
Proof.
  induction k as [|k IH]; cbn [cmd_dump.zeros append Nat.iter nat_rect];
    [reflexivity|].
  rewrite IH. reflexivity.
Qed.

Lemma of_uint_zeros (k : nat) (u : Decimal.uint) :
  N.of_uint (Nat.iter k Decimal.D0 u) = N.of_uint u.
Proof.
  induction k as [|k IH]; [reflexivity|]. exact IH.
Qed.

(** Digits followed by an underscore: the digits are determined. *)
Lemma digits_then_underscore (u u' : Decimal.uint) (r r' : string) :
  (NilEmpty.string_of_uint u ++ String "_" r)%string
  = (NilEmpty.string_of_uint u' ++ String "_" r')%string ->
  u = u'.
Proof.
  revert u'. induction u; intros u'; destruct u';
    cbn [NilEmpty.string_of_uint append]; intros H;
    try discriminate; try reflexivity;
    injection H as H; f_equal; apply IHu, H.
Qed.

Lemma Sprintf_0d_digits (width : nat) (n : Z) :
  0 <= n ->
  exists u, cmd_dump.Sprintf_0d width n = NilEmpty.string_of_uint u
            /\ N.of_uint u = Z.to_N n.
Proof.
  intros Hn. unfold cmd_dump.Sprintf_0d.
  destruct (n <? 0) eqn:Hneg; [apply Z.ltb_lt in Hneg; lia|].
  rewrite zeros_digits. eexists. split; [reflexivity|].
  rewrite of_uint_zeros, DecimalN.Unsigned.of_to.
  destruct n; try reflexivity. lia.
Qed.

(** Two names in the same directory are different as soon as their
    [outputIdx] are. *)
Lemma outputFile_inj (outputDir : string) (outputIdx outputIdx' : Z)
  (base base' : string) (i i' : Z) :
  0 <= outputIdx -> 0 <= outputIdx' ->
  cmd_dump.outputFile outputDir outputIdx base i
  = cmd_dump.outputFile outputDir outputIdx' base' i' ->
  outputIdx = outputIdx'.
Proof.
  intros Hidx Hidx'. rewrite !outputFile_shape. intros H.
  apply append_inv_head in H. cbn [append] in H. injection H as H.
  destruct (Sprintf_0d_digits 5 outputIdx Hidx) as (u & Hu & Hval).
  destruct (Sprintf_0d_digits 5 outputIdx' Hidx') as (u' & Hu' & Hval').
  rewrite Hu, Hu' in H.
  apply digits_then_underscore in H. subst u'.
  rewrite Hval in Hval'. lia.
Qed.
(** *** cmd/dump: the files written *)

Lemma written_app (a b : list effect) :
  written (a ++ b) = (written a ++ written b)%list.
Proof. apply flat_map_app. Qed.

Lemma written_andThen {A B} (m : D A) (k : A -> D B) (n : N) :
  written (output (andThen m k n))
  = (written (output (m n))
     ++ match exit (m n) with
        | Ok a => written (output (k a (heap (m n))))
        | _ => []
        end)%list.
Proof.
  unfold andThen. destruct (exit (m n)); cbn [output].
  - apply written_app.
  - rewrite app_nil_r. reflexivity.
  - rewrite app_nil_r. reflexivity.
Qed.

Lemma exit_andThen {A B} (m : D A) (k : A -> D B) (n : N) :
  exit (andThen m k n)
  = match exit (m n) with
    | Ok a => exit (k a (heap (m n)))
    | Err e => Err e
    | Panic msg => Panic msg
    end.
Proof. unfold andThen. destruct (exit (m n)); reflexivity. Qed.

Lemma int_add_small (a b : Z) :
  min_int <= a + b <= max_int -> int_add a b = a + b.
Proof.
  unfold int_add, wrap_int, min_int, max_int. intros H.
  rewrite Z.mod_small by lia. lia.
Qed.

Lemma numbered_app (outputDir : string) (names names' : list string)
  (outputIdx : Z) :
  cmd_dump.numbered outputDir outputIdx names ->
  cmd_dump.numbered outputDir (outputIdx + len names) names' ->
  cmd_dump.numbered outputDir outputIdx (names ++ names').
Proof.
  intros H. induction H as [idx|idx base i names H IH]; intros H'.
  - unfold len in H'. cbn [List.length Z.of_nat] in H'.
    rewrite Z.add_0_r in H'. exact H'.
  - cbn [app]. constructor. apply IH.
    replace (idx + 1 + len names) with (idx + len (cmd_dump.outputFile outputDir idx base i :: names)); [exact H'|].
    unfold len. cbn [List.length]. lia.
Qed.

(** The inner loop numbers its files from [outputIdx] on, and leaves in
    [outputIdx] the next free number. *)
Lemma write_images_numbered (outputDir base : string) (images : list bytes)
  (i outputIdx : Z) (n : N) :
  let s := cmd_dump.write_images outputDir base i images outputIdx n in
  0 <= outputIdx ->
  outputIdx + len (written (output s)) < max_int ->
  cmd_dump.numbered outputDir outputIdx (written (output s))
  /\ match exit s with
     | Ok outputIdx' => outputIdx' = outputIdx + len (written (output s))
     | _ => True
     end.
Proof.
  cbv zeta. revert i outputIdx n.
  induction images as [|img rest IH]; intros i idx n Hidx.
  - cbn. intros _. split; [constructor|]. unfold len. cbn. lia.
  - cbn [cmd_dump.write_images].
    rewrite written_andThen, exit_andThen.
    unfold check, WriteFile.
    cbn [exit heap output written flat_map app].
    destruct (os_WriteFile _ img perm_0644) as [e|].
    + intros _. split; [|exact I]. constructor. constructor.
    + cbn [app]. intros Hbound.
      assert (Hlen : len (cmd_dump.outputFile outputDir idx base i
                          :: written (output (cmd_dump.write_images outputDir
                                                base (i + 1) rest
                                                (int_add idx 1) n)))
                     = 1 + len (written (output (cmd_dump.write_images
                                                   outputDir base (i + 1) rest
                                                   (int_add idx 1) n)))).
      { unfold len. cbn [List.length]. lia. }
      rewrite Hlen in Hbound |- *.
      assert (Hpos : 0 <= len (written (output (cmd_dump.write_images
                                                  outputDir base (i + 1) rest
                                                  (int_add idx 1) n))))
        by (unfold len; lia).
      assert (Hnext : int_add idx 1 = idx + 1)
        by (apply int_add_small; unfold min_int, max_int in *; lia).
      rewrite Hnext in *.
      destruct (IH (i + 1) (idx + 1) n) as [Hnum Hexit]; [lia|lia|].
      split; [constructor; exact Hnum|].
      destruct (exit _); try exact I. lia.
Qed.
Lemma len_app {A} (a b : list A) : len (a ++ b) = len a + len b.
Proof. unfold len. rewrite length_app. lia. Qed.

Lemma len_nonneg {A} (a : list A) : 0 <= len a.
Proof. unfold len. lia. Qed.

(** The loop over the documents numbers all the files it writes, from
    [outputIdx] on. *)
Lemma process_numbered (orient : textorient_Orient) (outputDir : string)
  (pdfFiles : list string) (outputIdx : Z) (n : N) :
  let s := cmd_dump.process orient outputDir pdfFiles outputIdx n in
  0 <= outputIdx ->
  outputIdx + len (written (output s)) < max_int ->
  cmd_dump.numbered outputDir outputIdx (written (output s)).
Proof.
  cbv zeta. revert outputIdx n.
  induction pdfFiles as [|pdfFile rest IH]; intros idx n Hidx.
  - intros _. constructor.
  - cbn [cmd_dump.process].
    rewrite written_andThen. unfold check, call_pure, run_pkg, emit.
    cbn [exit heap output written flat_map app].
    destruct (NewDocumentFromFile pdfFile) as [doc|e|msg];
      try (intros _; constructor).
    rewrite written_andThen.
    cbn [exit heap output written flat_map app].
    destruct (result (IsScanned doc n)) as [[|]|e|msg];
      try (intros _; constructor); cbn [negb].
    + rewrite written_andThen.
      cbn [exit heap output written flat_map app].
      rewrite written_andThen.
      cbn [exit heap output written flat_map app].
      destruct (result (PageAngles doc 2.5%float true _)) as [angles|e|msg];
        try (intros _; constructor).
      rewrite written_andThen.
      cbn [exit heap output written flat_map app].
      destruct (result (StraightenedImages doc orient angles _))
        as [images|e|msg];
        try (intros _; constructor).
      rewrite written_andThen.
      match goal with
      | |- context [cmd_dump.write_images ?d ?b ?i ?l ?k ?m] =>
          pose proof (write_images_numbered d b l i k m Hidx) as Hw;
          cbv zeta in Hw;
          pose proof (len_nonneg
                        (written (output (cmd_dump.write_images d b i l k m))))
            as Hpos;
          destruct (exit (cmd_dump.write_images d b i l k m))
            as [idx'|e|msg]
      end.
      * rewrite len_app. intros Hbound.
        match goal with
        | |- context [cmd_dump.process orient outputDir rest idx' ?m] =>
            pose proof (len_nonneg
                          (written (output (cmd_dump.process orient outputDir
                                              rest idx' m)))) as Hpos'
        end.
        destruct Hw as [Hnum Hnext]; [lia|]. subst idx'.
        apply numbered_app; [exact Hnum|]. apply IH; lia.
      * rewrite app_nil_r. intros Hbound. apply Hw, Hbound.
      * rewrite app_nil_r. intros Hbound. apply Hw, Hbound.
    + rewrite written_andThen.
      cbn [exit heap output written flat_map app].
      apply IH, Hidx.
Qed.
Lemma numbered_In (outputDir : string) (outputIdx : Z) (names : list string)
  (name : string) :
  cmd_dump.numbered outputDir outputIdx names -> In name names ->
  exists k base i,
    outputIdx <= k /\ name = cmd_dump.outputFile outputDir k base i.
Proof.
  intros H. induction H as [idx|idx base i names H IH]; intros Hin.
  - destruct Hin.
  - destruct Hin as [<-|Hin].
    + exists idx, base, i. split; [lia|reflexivity].
    + destruct (IH Hin) as (k & base' & i' & Hk & ->).
      exists k, base', i'. split; [lia|reflexivity].
Qed.

Lemma numbered_NoDup (outputDir : string) (outputIdx : Z)
  (names : list string) :
  0 <= outputIdx -> cmd_dump.numbered outputDir outputIdx names ->
  NoDup names.
Proof.
  intros Hidx H. induction H as [idx|idx base i names H IH].
  - constructor.
  - constructor; [|apply IH; lia].
    intros Hin. destruct (numbered_In _ _ _ _ H Hin) as (k & b & j & Hk & Heq).
    apply outputFile_inj in Heq; lia.
Qed.

(** What [main] of cmd/dump writes, it writes in its loop over the
    documents, after it has asked for the output directory to be made. *)
Lemma dump_main_written (args : list string) (n : N) :
  written (output (cmd_dump.main args n)) = []
  \/ exists outputDir orient pdfFiles m,
       lookup args 2 = Some outputDir
       /\ In (Out_MkdirAll outputDir perm_0755)
            (output (cmd_dump.main args n))
       /\ written (output (cmd_dump.main args n))
          = written (output (cmd_dump.process orient outputDir pdfFiles 1 m)).
Proof.
  unfold cmd_dump.main, cmd_dump.findAllPDFFilesInDirectory.
  unfold andThen, run_pkg, emit, check, call_pure. cbv zeta.
  cbn [exit heap output]. rewrite !index_run. cbn [result next].
  destruct (lookup args 1) as [inputDir|]; [|left; reflexivity].
  destruct (lookup args 2) as [outputDir|]; [|left; reflexivity].
  cbn [exit heap output app].
  destruct (cmd_dump.walk (filepath_Walk inputDir) []) as [pdfFiles|e|msg];
    [|left; reflexivity..].
  cbn [exit heap output app].
  destruct textorient_NewOrient as [orient|e|msg]; [|left; reflexivity..].
  cbn [exit heap output app].
  right. exists outputDir, orient, pdfFiles, n.
  split; [reflexivity|]. split; [left; reflexivity|]. reflexivity.
Qed.

(** X11.  [main] of cmd/dump never writes twice to the same file, and
    never to a file with a space in its name: the files of a run are
    numbered one after the other across all its documents.  Every file
    goes under the output directory with the spaces of its name
    replaced by underscores, while the directory [main] has asked to be
    made is the one it was given.  (The count of files is taken to stay
    below the largest [int].) *)
Theorem dump_writes_distinct_files (args : list string) (n : N) :
  1 + len (written (output (cmd_dump.main args n))) < max_int ->
  NoDup (written (output (cmd_dump.main args n)))
  /\ forall name,
       In name (written (output (cmd_dump.main args n))) ->
       ~ In " "%char (list_ascii_of_string name)
       /\ exists outputDir rest,
            lookup args 2 = Some outputDir
            /\ In (Out_MkdirAll outputDir perm_0755)
                 (output (cmd_dump.main args n))
            /\ name = (cmd_dump.ReplaceAll outputDir " " "_" ++ "/"
                       ++ rest)%string.
Proof.
  intros Hbound.
  destruct (dump_main_written args n)
    as [Hnone|(outputDir & orient & pdfFiles & m & Hdir & Hmade & Hsame)].
  - rewrite Hnone. split; [constructor|]. intros name [].
  - rewrite Hsame in Hbound |- *.
    pose proof (process_numbered orient outputDir pdfFiles 1 m) as Hnum.
    cbv zeta in Hnum.
    assert (H1 : 0 <= 1) by lia. specialize (Hnum H1 Hbound).
    split; [apply (numbered_NoDup outputDir 1); [lia|exact Hnum]|].
    intros name Hin.
    destruct (numbered_In _ _ _ _ Hnum Hin) as (k & base & i & Hk & ->).
    split; [apply ReplaceAll_no_space|].
    exists outputDir. eexists. split; [exact Hdir|]. split; [exact Hmade|].
    rewrite outputFile_shape. reflexivity.
Qed.

(** *** cmd/dump: the files found *)

Lemma walk_found (entries : list (string * bool * option error))
  (pdfFiles : list string) :
  Forall (fun entry => snd entry = None) entries ->
  cmd_dump.walk entries pdfFiles
  = Ok (pdfFiles
        ++ map (fun entry => fst (fst entry))
             (filter (fun entry =>
                        negb (snd (fst entry))
                        && (strings_ToLower (filepath_Ext (fst (fst entry)))
                            =? ".pdf")%string) entries))%list.
Proof.
  intros H. revert pdfFiles.
  induction H as [|[[path isDir] err] rest Hnone _ IH]; intros pdfFiles.
  - cbn [cmd_dump.walk filter map]. rewrite app_nil_r. reflexivity.
  - cbn [snd] in Hnone. subst err.
    cbn [cmd_dump.walk filter map fst snd].
    destruct (negb isDir
              && (strings_ToLower (filepath_Ext path) =? ".pdf")%string).
    + rewrite IH, <- app_assoc. reflexivity.
    + apply IH.
Qed.

Lemma walk_error (pre post : list (string * bool * option error))
  (path : string) (isDir : bool) (e : error) (pdfFiles : list string) :
  Forall (fun entry => snd entry = None) pre ->
  cmd_dump.walk (pre ++ (path, isDir, Some e) :: post) pdfFiles = Err e.
Proof.
  intros H. revert pdfFiles.
  induction H as [|[[path' isDir'] err] rest Hnone _ IH]; intros pdfFiles.
  - reflexivity.
  - cbn [snd] in Hnone. subst err. cbn [app cmd_dump.walk].
    destruct (negb isDir' && _); apply IH.
Qed.

(** X12.  [findAllPDFFilesInDirectory] returns, in the order of the walk,
    exactly the paths that are not directories and whose extension is
    ".pdf" once put in lower case; it writes nothing.  The first error the
    walk meets makes it panic with that error, whatever it had found. *)
Theorem findAllPDFFilesInDirectory_filters (dir : string) (n : N) :
  let s := cmd_dump.findAllPDFFilesInDirectory dir n in
  output s = []
  /\ (Forall (fun entry => snd entry = None) (filepath_Walk dir) ->
      exit s
      = Ok (map (fun entry => fst (fst entry))
              (filter (fun entry =>
                         negb (snd (fst entry))
                         && (strings_ToLower (filepath_Ext (fst (fst entry)))
                             =? ".pdf")%string) (filepath_Walk dir))))
  /\ (forall pre path isDir e post,
        filepath_Walk dir = (pre ++ (path, isDir, Some e) :: post)%list ->
        Forall (fun entry => snd entry = None) pre ->
        exit s = Panic e).
Proof.
  cbv zeta. unfold cmd_dump.findAllPDFFilesInDirectory, check, call_pure.
  cbn [exit output]. split; [reflexivity|]. split.
  - intros Hnone. rewrite (walk_found _ [] Hnone). reflexivity.
  - intros pre path isDir e post -> Hpre.
    rewrite (walk_error pre post path isDir e [] Hpre). reflexivity.
Qed.

(** X15.  How [main] of cmd/straighten ends.  A failure to load the
    orientation model or to open the document makes it panic with that
    error before anything is done.  Once the document is open it is
    closed on every path, as the last thing [main] does, a panic
    included.  An error of [IsScanned] is printed and [main] returns
    normally; an error of [PageAngles] or of [Straighten] makes it panic
    with that error; in none of these cases is a file written. *)
Theorem main_closes_and_reports (args : list string) (n : N) :
  let s := cmd_straighten.main args n in
  (forall arg0 filename e,
     args = [arg0; filename] -> textorient_NewOrient = Err e ->
     exit s = Panic e /\ output s = [])
  /\ (forall arg0 filename orient e,
        args = [arg0; filename] -> textorient_NewOrient = Ok orient ->
        NewDocumentFromFile filename = Err e ->
        exit s = Panic e /\ output s = [])
  /\ (forall arg0 filename orient doc,
        args = [arg0; filename] -> textorient_NewOrient = Ok orient ->
        NewDocumentFromFile filename = Ok doc ->
        last (output s) (Out_Printf "")
        = Out_Close (snd (Close (handles_of doc)))
        /\ (forall e,
              result (IsScanned doc 0%N) = Err e ->
              exit s = Ok tt
              /\ output s
                 = [Out_Printf ("Error checking if document is scanned: "
                                ++ e ++ nl);
                    Out_Close (snd (Close (handles_of doc)))])
        /\ (forall e,
              result (IsScanned doc 0%N) = Ok true ->
              result (PageAngles doc main_maxAngle true 0%N) = Err e ->
              exit s = Panic e
              /\ output s = [Out_Close (snd (Close (handles_of doc)))])
        /\ (forall angles e,
              result (IsScanned doc 0%N) = Ok true ->
              result (PageAngles doc main_maxAngle true 0%N) = Ok angles ->
              Exists (fun a => (a =? 0)%float = false) angles ->
              result (Straighten doc orient angles 0%N) = Err e ->
              exit s = Panic e /\ written (output s) = [])).
Proof.
  cbv zeta. split; [|split].
  - intros arg0 filename e -> Horient.
    pose proof (main_with_filename arg0 filename) as Htable.
    cbv zeta in Htable. rewrite Horient in Htable. exact (Htable n).
  - intros arg0 filename orient e -> Horient Hdoc.
    pose proof (main_with_filename arg0 filename) as Htable.
    cbv zeta in Htable. rewrite Horient, Hdoc in Htable. exact (Htable n).
  - intros arg0 filename orient doc -> Horient Hdoc.
    pose proof (main_with_filename arg0 filename) as Htable.
    cbv zeta in Htable. rewrite Horient, Hdoc in Htable.
    split; [|split; [|split]].
    + destruct (result (IsScanned doc 0%N)) as [[|]|e|msg];
        try (destruct (Htable n) as [_ ->]; reflexivity).
      destruct (result (PageAngles doc main_maxAngle true 0%N))
        as [angles|e|msg];
        try (destruct (Htable n) as [_ ->]; reflexivity).
      destruct (snd (main_angles angles) =? 0);
        try (destruct (Htable n) as [_ ->]; reflexivity).
      destruct (result (Straighten doc orient angles 0%N));
        destruct (Htable n) as [_ ->]; reflexivity.
    + intros e He. rewrite He in Htable. exact (Htable n).
    + intros e Hscanned He. rewrite Hscanned, He in Htable. exact (Htable n).
    + intros angles e Hscanned Hangles Hsome He.
      rewrite Hscanned, Hangles in Htable.
      apply (proj2 (nRotated_nonzero main_allow90Degrees angles)) in Hsome.
      unfold main_angles in Htable. rewrite Hsome, He in Htable.
      destruct (Htable n) as [-> ->]. split; reflexivity.
Qed.

End DriverFacts.

(** ** The further properties in the sample worlds *)

(** The first and the last page of the sample scan are found tilted by 2
    degrees, the upside-down page in between is found straight. *)
Example PageAngles_tilted_scan :
  result (@PageAngles SampleShell.tilted SampleShell.scan main_maxAngle true
            0%N)
  = Ok [2%float; 0%float; 2%float].
Proof. vm_compute. reflexivity. Qed.

Lemma StraightenOnePass_is_two_passes_witness :
  @single_images SampleShell.tilted SampleShell.scan
  /\ result (@PageAngles SampleShell.tilted SampleShell.scan 2%float false
               0%N)
     = Ok [2%float; 0%float; 2%float]
  /\ result (@StraightenOnePass SampleShell.tilted SampleShell.scan tt
               2%float 0%N)
     = result (@Straighten SampleShell.tilted SampleShell.scan tt
                 [2%float; 0%float; 2%float] 0%N).
Proof.
  assert (Hsingle : @single_images SampleShell.tilted SampleShell.scan).
  { intros page images Hpage Himages.
    assert (Hwhich : page = 0 \/ page = 1 \/ page = 2)
      by (cbn [NumPages SampleShell.scan] in Hpage; lia).
    destruct Hwhich as [-> | [-> | ->]]; vm_compute in Himages;
      injection Himages as <-; repeat constructor; discriminate. }
  split; [exact Hsingle|]. split; [vm_compute; reflexivity|].
  apply (proj1 (@StraightenOnePass_is_two_passes SampleShell.tilted
                  SampleShell.scan tt 2%float 0%N Hsingle)).
  vm_compute. reflexivity.
Defined.

(** The three pages of the sample scan make nineteen calls, and a
    twentieth assembles the three images. *)
Example Straighten_tilted_scan :
  let r := @Straighten SampleShell.tilted SampleShell.scan tt
             [2%float; 0%float; 2%float] 0%N in
  result r = Ok [Byte.x50; Byte.x50; Byte.x50]
  /\ List.length (calls r) = 20%nat
  /\ last (map fst (calls r)) Call_MakeUpright
     = Call_ImportImages 3 (@importConfig SampleShell.tilted).
Proof. vm_compute. repeat split. Qed.

(** A page of 100 x 80 found tilted by 2 degrees keeps its canvas; found
    tilted by 88 degrees it gets one of 80 x 100. *)
Lemma straightenImage_canvas_witness :
  (2 =? 0)%float = false
  /\ (cimg.addr Sample.imgA < 1)%N
  /\ exists fixed : cimg.Image,
       result (@rotateImage Sample.world Sample.scan Sample.imgA (- 2)%float
                 1%N) = Ok fixed
       /\ (cimg.Width fixed, cimg.Height fixed) = (100, 80)
       /\ result (@straightenImage Sample.world Sample.scan tt Sample.rawA
                    Sample.imgA 2%float 1%N)
          = Ok Sample.againA.
Proof.
  split; [reflexivity|]. split; [reflexivity|].
  destruct (@straightenImage_canvas Sample.world Sample.scan tt Sample.rawA
              Sample.imgA 2%float 1%N eq_refl eq_refl)
    as (fixed & Hrun & _ & _ & Hsmall & _ & Hout).
  exists fixed. split; [exact Hrun|].
  split; [apply Hsmall; reflexivity|].
  rewrite Hout; vm_compute in Hrun; injection Hrun as <-;
    vm_compute; reflexivity.
Defined.

Example canvas_of_a_quarter_turn :
  exists w h,
    In (Call_NewImage w h, None)
      (calls (@straightenImage Sample.world Sample.scan tt Sample.rawA
                Sample.imgA 88%float 1%N))
    /\ (w, h) = (80, 100).
Proof. exists 80, 100. vm_compute. split; [left|]; reflexivity. Qed.

Lemma straightenImage_agrees_with_v1_witness :
  (cimg.addr Sample.imgA < 1)%N
  /\ (abs 2 <=? 5)%float = true
  /\ result (@straightenImage Sample.world Sample.scan tt Sample.rawA
               Sample.imgA 2%float 1%N)
     = result (@straightenImage_v1 Sample.world Sample.scan Sample.rawA
                 Sample.imgA 2%float 1%N)
  /\ result (@straightenImage_v1 Sample.world Sample.scan Sample.rawA
               Sample.imgA 2%float 1%N)
     = Ok Sample.againA.
Proof.
  split; [reflexivity|]. split; [reflexivity|].
  split; [|vm_compute; reflexivity].
  apply (@straightenImage_agrees_with_v1 Sample.world Sample.scan tt
           Sample.rawA Sample.imgA 2%float 1%N); reflexivity.
Defined.


Example main_straightens_scan :
  let s := @cmd_straighten.main SampleShell.tilted
             (SampleShell.shell SampleShell.tilted tt true)
             ["straighten"; "scan.pdf"] 0%N in
  exit s = Ok tt
  /\ output s
     = [Out_Printf ("Straightening" ++ nl);
        Out_WriteFile "straightened.pdf" [Byte.x50; Byte.x50; Byte.x50]
          perm_0644 None;
        SampleShell.closing].
Proof. vm_compute. split; reflexivity. Qed.

(** Where the estimator finds every page straight, [main] writes nothing,
    although the second page of the sample scan is upside down. *)
Example main_leaves_upside_down_page :
  let s := @cmd_straighten.main Sample.world
             (SampleShell.shell Sample.world tt true)
             ["straighten"; "scan.pdf"] 0%N in
  exit s = Ok tt
  /\ written (output s) = []
  /\ In (Out_Printf ("Document is already 100% straight" ++ nl)) (output s)
  /\ result (@Straighten Sample.world Sample.scan tt
               [0%float; 0%float; 0%float] 0%N)
     = Ok [Byte.x50; Byte.x50; Byte.x50]
  /\ result (@StraightenedImages Sample.world Sample.scan tt
               [0%float; 0%float; 0%float] 0%N)
     = Ok [Sample.rawA; Sample.againF; Sample.rawA].
Proof. vm_compute. repeat split. left. reflexivity. Qed.

(** The file the operating system would not open: [IsScanned] fails on the
    nil file, [main] says so and returns normally, after closing the nil
    file and the fitz document. *)
Example main_reports_unreadable_file :
  let s := @cmd_straighten.main Sample.world
             (SampleShell.shell Sample.world tt true)
             ["straighten"; "locked.pdf"] 0%N in
  exit s = Ok tt
  /\ output s
     = [Out_Printf ("Error checking if document is scanned: invalid argument"
                    ++ nl);
        @Out_Close Sample.world
          [@Release_reader Sample.world None;
           @Release_fz Sample.world [Sample.pageA]]].
Proof. vm_compute. split; reflexivity. Qed.

Lemma constructed_documents_agree_on_pages_witness :
  @NewDocumentFromFile Sample.world "scan.pdf" = Ok Sample.scan
  /\ NumPages Sample.scan = @fitz_NumPage Sample.world (fz Sample.scan)
  /\ hd_error (calls (@IsScanned Sample.world Sample.scan 0%N))
     = Some (Call_Images ["1"; "2"; "3"], None).
Proof.
  assert (Hmade : @NewDocumentFromFile Sample.world "scan.pdf"
                  = Ok Sample.scan) by (vm_compute; reflexivity).
  split; [exact Hmade|].
  split; [|vm_compute; reflexivity].
  apply (proj1 (@constructed_documents_agree_on_pages Sample.world
                  Sample.scan 0%N
                  (or_introl
                     (ex_intro
                        (fun filename =>
                           @NewDocumentFromFile Sample.world filename
                           = Ok Sample.scan) "scan.pdf" Hmade)))).
Defined.

Example main_usage_line :
  let s := @cmd_straighten.main Sample.world
             (SampleShell.shell Sample.world tt true) ["straighten"] 0%N in
  exit s = Ok tt
  /\ output s = [Out_Printf ("Usage: straighten <filename>" ++ nl)].
Proof. vm_compute. split; reflexivity. Qed.

Example Close_twice :
  repeatedly Close 2 (handles_of SampleShell.scan)
  = (MkHandles None NilReader,
     [@Release_reader SampleShell.tilted
        (Some [Sample.pageA; Sample.pageF; Sample.pageA]);
      @Release_fz SampleShell.tilted
        [Sample.pageA; Sample.pageF; Sample.pageA]])
  /\ snd (repeatedly Close_v1 2 (handles_of SampleShell.scan))
     = [@Release_reader SampleShell.tilted
          (Some [Sample.pageA; Sample.pageF; Sample.pageA]);
        @Release_reader SampleShell.tilted
          (Some [Sample.pageA; Sample.pageF; Sample.pageA])].
Proof. split; reflexivity. Qed.

(** Asked to write into "my out", the sample run has "my out" made and
    writes its three files under "my_out". *)
Lemma dump_writes_distinct_files_witness :
  let s := @cmd_dump.main Sample.world
             (SampleShell.shell Sample.world tt true)
             ["dump"; "."; "my out"] 0%N in
  written (output s)
  = ["my_out/00001_scan.pdf_01.jpg"; "my_out/00002_scan.pdf_02.jpg";
     "my_out/00003_scan.pdf_03.jpg"]
  /\ In (Out_MkdirAll "my out" perm_0755) (output s)
  /\ NoDup (written (output s)).
Proof.
  cbv zeta. split; [vm_compute; reflexivity|].
  split; [vm_compute; left; reflexivity|].
  apply (proj1 (@dump_writes_distinct_files Sample.world
                  (SampleShell.shell Sample.world tt true)
                  ["dump"; "."; "my out"] 0%N
                  ltac:(vm_compute; reflexivity))).
Defined.

Example dump_without_arguments :
  exit (@cmd_dump.main Sample.world (SampleShell.shell Sample.world tt true)
          ["dump"; "."] 0%N)
  = Panic "runtime error: index out of range [2] with length 2".
Proof. vm_compute. reflexivity. Qed.
